(** * Stereo delay plug-in: the signal-processing core

    A shallow embedding of the C++ sources under [Source/]:
    [DelayLine.cpp], [Tempo.cpp], [Measurement.h], [DSP.h],
    [Parameters.cpp], the per-sample loop of [PluginProcessor.cpp],
    [ProtectYourEars.h] and the timer and scale of [LevelMeter.cpp].

    Numeric conventions.  The sources compute with [float] and [double].
    Both are embedded as the real numbers [R]: a literal denotes the decimal
    it is written as (the constant of the panning law apart, whose [float]
    lies on the other side of pi / 4 than its decimal and is embedded as the
    [float] it is), and [+ - * /] are the exact operations, so rounding,
    overflow to infinity and NaN are outside the model; the debug guard of
    [ProtectYourEars.h] alone keeps the values that are not numbers apart.
    [std::exp], [std::cos] and [std::sin] are the real functions [exp],
    [cos], [sin]; [std::log10] is [ln] over [ln 10].
    C++ [int] is embedded as [Z]; every integer the code computes here is an
    index bounded by a buffer length, so no wrap-around is involved.
    An access outside an array is undefined behaviour in C++; reads that
    would do so return [None]. *)

From Stdlib Require Import Reals Lra Lia ZArith List Bool Zfloor.
From Stdlib Require String.
Import ListNotations.

#[local] Open Scope R_scope.

(** ** Language-level operations: conversions, [std::max], array access *)

Module Cmath.

(** [int(x)] for a floating-point [x]: the fractional part is discarded
    (rounding toward zero). *)
Definition truncate (x : R) : Z :=
  if Rle_dec 0 x then Zfloor x else Zceil x.

(** [int(std::ceil(x))]. *)
Definition ceil (x : R) : Z := Zceil x.

(** The largest [int].  The embedding computes with [Z]; it agrees with
    the code as long as the [int]s stay at most this, which the properties
    that depend on it require. *)
Definition INT_MAX : Z := 2147483647.

(** [std::max] and [std::abs] on floats. *)
Definition fmax (a b : R) : R := if Rlt_dec a b then b else a.

Definition fabs (a : R) : R := Rabs a.

(** [a[size_t(i)]] as an rvalue, for an array [a] and an [int] [i].  A
    negative [int] converts to a huge [size_t], which is outside every
    array. *)
Definition load (l : list R) (i : Z) : option R :=
  if (i <? 0)%Z then None else nth_error l (Z.to_nat i).

(** [a[i] = x].  Outside the array the C++ is undefined; the list is
    left as it is. *)
Fixpoint store (i : nat) (x : R) (l : list R) : list R :=
  match l, i with
  | [], _ => []
  | _ :: tl, O => x :: tl
  | y :: tl, S j => y :: store j x tl
  end.

Definition storeZ (i : Z) (x : R) (l : list R) : list R :=
  if (i <? 0)%Z then l else store (Z.to_nat i) x l.

End Cmath.

(** ** DelayLine.h / DelayLine.cpp *)

Module DelayLine.

(** The object: the owned array, its capacity and the write cursor. *)
Record t : Type := mk {
  buffer : list R;
  bufferLength : Z;
  writeIndex : Z
}.

(** Member initialisers of the class: no array, [bufferLength = 0],
    [writeIndex = 0]. *)
Definition init : t := mk [] 0 0.

Section Allocation.

(** [new float[n]] leaves the elements indeterminate: slot [i] of a fresh
    array holds [indeterminate i]. *)
Variable indeterminate : nat -> R.

(** [paddedLength] is an [int] sum in the source and the sum in [Z] here:
    the two agree as long as the sum is at most [Cmath.INT_MAX]. *)
Definition setMaximumDelayInSamples (maxLengthInSamples : Z) (d : t) : t :=
  let paddedLength := (maxLengthInSamples + 2)%Z in
  if (bufferLength d <? paddedLength)%Z
  then mk (map indeterminate (seq 0 (Z.to_nat paddedLength)))
          paddedLength (writeIndex d)
  else d.

End Allocation.

Definition reset (d : t) : t :=
  mk (repeat 0 (Z.to_nat (bufferLength d)))
     (bufferLength d)
     (bufferLength d - 1)%Z.

Definition write (input : R) (d : t) : t :=
  let w := (writeIndex d + 1)%Z in
  let w := if (bufferLength d <=? w)%Z then 0%Z else w in
  mk (Cmath.storeZ w input (buffer d)) (bufferLength d) w.

(** The two [jassert]s at the head of [read]. *)
Definition read_precondition (d : t) (delayInSamples : R) : Prop :=
  1 <= delayInSamples <= IZR (bufferLength d) - 2.

(** The nested wrap-around of the four read indices. *)
Definition wrapIndices (bufferLength : Z) (a b c d : Z) : Z * Z * Z * Z :=
  if (d <? 0)%Z then
    let d := (d + bufferLength)%Z in
    if (c <? 0)%Z then
      let c := (c + bufferLength)%Z in
      if (b <? 0)%Z then
        let b := (b + bufferLength)%Z in
        if (a <? 0)%Z then
          let a := (a + bufferLength)%Z in (a, b, c, d)
        else (a, b, c, d)
      else (a, b, c, d)
    else (a, b, c, d)
  else (a, b, c, d).

(** The index computation of [read], up to the four array accesses. *)
Definition readIndices (d : t) (delayInSamples : R) : Z * Z * Z * Z :=
  let integerDelay := Cmath.truncate delayInSamples in
  let readIndexA := (writeIndex d - integerDelay + 1)%Z in
  let readIndexB := (readIndexA - 1)%Z in
  let readIndexC := (readIndexA - 2)%Z in
  let readIndexD := (readIndexA - 3)%Z in
  wrapIndices (bufferLength d) readIndexA readIndexB readIndexC readIndexD.

(** The interpolation of [read] on the four fetched samples. *)
Definition interpolate (sampleA sampleB sampleC sampleD fraction : R) : R :=
  let slope0 := (sampleC - sampleA) * 0.5 in
  let slope1 := (sampleD - sampleB) * 0.5 in
  let v := sampleB - sampleC in
  let w := slope0 + v in
  let a := w + v + slope1 in
  let b := w + a in
  let stage1 := a * fraction - b in
  let stage2 := stage1 * fraction + slope0 in
  stage2 * fraction + sampleB.

Definition read (d : t) (delayInSamples : R) : option R :=
  let integerDelay := Cmath.truncate delayInSamples in
  let '(readIndexA, readIndexB, readIndexC, readIndexD) :=
    readIndices d delayInSamples in
  match Cmath.load (buffer d) readIndexA,
        Cmath.load (buffer d) readIndexB,
        Cmath.load (buffer d) readIndexC,
        Cmath.load (buffer d) readIndexD with
  | Some sampleA, Some sampleB, Some sampleC, Some sampleD =>
      let fraction := delayInSamples - IZR integerDelay in
      Some (interpolate sampleA sampleB sampleC sampleD fraction)
  | _, _, _, _ => None
  end.

Definition getBufferLength (d : t) : Z := bufferLength d.

End DelayLine.

(** ** Tempo.h / Tempo.cpp *)

Module Tempo.

(** The table in quarter-note units, index 0 (1/32 note) to 15 (whole note),
    entry for entry as in the source. *)
Definition noteLengthMultipliers : list R :=
  [ 0.125;        (*  0 = 1/32 note     *)
    0.5 / 3.0;    (*  1 = 1/16 triplet  *)
    0.1875;       (*  2 = 1/32 dotted   *)
    0.25;         (*  3 = 1/16 note     *)
    1.0 / 3.0;    (*  4 = 1/8 triplet   *)
    0.375;        (*  5 = 1/16 dotted   *)
    0.5;          (*  6 = 1/8 note      *)
    2.0 / 3.0;    (*  7 = 1/4 triplet   *)
    0.75;         (*  8 = 1/8 dotted    *)
    1.0;          (*  9 = 1/4 note      *)
    4.0 / 3.0;    (* 10 = 1/2 triplet   *)
    1.5;          (* 11 = 1/4 dotted    *)
    2.0;          (* 12 = 1/2 note      *)
    8.0 / 3.0;    (* 13 = 1/1 triplet   *)
    3.0;          (* 14 = 1/2 dotted    *)
    4.0           (* 15 = whole note    *) ].

Record t : Type := mk { bpm : R }.

(** [double bpm = 120.0;] *)
Definition init : t := mk 120.0.

(** What [update] consults of the host: [juce::AudioPlayHead::getPosition]
    gives an optional [PositionInfo], whose [getBpm] is optional again.
    A null [playhead] pointer is [None]. *)
Record PositionInfo : Type := { getBpm : option R }.

Record AudioPlayHead : Type := { getPosition : option PositionInfo }.

Definition reset (s : t) : t := mk 120.0.

Definition update (playhead : option AudioPlayHead) (s : t) : t :=
  let s := reset s in
  match playhead with
  | None => s
  | Some ph =>
      match getPosition ph with
      | None => s
      | Some pos =>
          match getBpm pos with
          | Some hostBpm => mk hostBpm
          | None => s
          end
      end
  end.

(** [noteLengthMultipliers[size_t(index)]] is not bounds-checked: outside
    0..15 the access is undefined and the result is [None]. *)
Definition getMillisecondsForNoteLength (index : Z) (s : t) : option R :=
  match Cmath.load noteLengthMultipliers index with
  | Some multiplier => Some (60000.0 * multiplier / bpm s)
  | None => None
  end.

Definition getTempo (s : t) : R := bpm s.

End Tempo.

(** ** Measurement.h *)

Module Measurement.

(** [std::atomic<float> value], observed from one thread. *)
Record t : Type := mk { value : R }.

Definition reset (m : t) : t := mk 0.0.

(** [value.compare_exchange_weak (expected, desired)]: when the stored
    value equals [expected] it is replaced by [desired] and the call returns
    [true]; otherwise [expected] is overwritten with the stored value and
    the call returns [false].  The weak form may also fail although the
    values are equal; [spurious] says whether this attempt does.
    The result is (success, expected afterwards, object afterwards). *)
Definition compare_exchange_weak (spurious : bool) (expected desired : R)
  (m : t) : bool * R * t :=
  if spurious then (false, value m, m)
  else if Req_dec_T (value m) expected then (true, expected, mk desired)
  else (false, value m, m).

(** The [while] loop of [updateIfGreater].  [spurious] lists, attempt by
    attempt, which exchanges fail spuriously (none after the list ends);
    [fuel] bounds the number of iterations, [None] meaning it ran out. *)
Fixpoint updateLoop (fuel : nat) (spurious : list bool)
  (newValue oldValue : R) (m : t) : option t :=
  match fuel with
  | O => None
  | S fuel' =>
      if Rgt_dec newValue oldValue then
        let '(exchanged, oldValue', m') :=
          compare_exchange_weak (hd false spurious) oldValue newValue m in
        if exchanged then Some m'
        else updateLoop fuel' (tl spurious) newValue oldValue' m'
      else Some m
  end.

Definition updateIfGreater (fuel : nat) (spurious : list bool)
  (newValue : R) (m : t) : option t :=
  let oldValue := value m in
  updateLoop fuel spurious newValue oldValue m.

(** [value.exchange (0.0f)]: the previous value and the object afterwards. *)
Definition readAndReset (m : t) : R * t := (value m, mk 0.0).

End Measurement.

(** ** DSP.h *)

Module DSP.

(** The literal [0.7853981633974483f].  No [float] holds this decimal; the
    compiler stores the nearest one, 13176795 / 2^24
    = 0.785398185253143310546875, which lies above pi / 4 although the
    decimal lies below it. *)
Definition quarterTurn : R := 13176795 / 16777216.

(** The outputs [left] and [right] are returned as a pair. *)
Definition panningEqualPower (panning : R) : R * R :=
  let x := quarterTurn * (panning + 1.0) in
  (cos x, sin x).

End DSP.

(** ** The JUCE classes the plug-in is built on

    [juce::LinearSmoothedValue<float>], [juce::dsp::StateVariableTPTFilter
    <float>] and [juce::Decibels] are library code.  They enter as
    interfaces: a state type with the member functions the plug-in calls,
    each returning the object afterwards. *)

Module Juce.

Class LinearSmoothedValue (S : Type) : Type := {
  (** [reset (sampleRate, rampLengthInSeconds)] *)
  rampReset : R -> R -> S -> S;
  setCurrentAndTargetValue : R -> S -> S;
  setTargetValue : R -> S -> S;
  getNextValue : S -> R * S
}.

Class StateVariableTPTFilter (F : Type) : Type := {
  (** [prepare (spec)] with [spec.sampleRate], [spec.maximumBlockSize],
      [spec.numChannels] *)
  prepare : R -> Z -> Z -> F -> F;
  filterReset : F -> F;
  setCutoffFrequency : R -> F -> F;
  (** [processSample (channel, inputValue)] *)
  processSample : Z -> R -> F -> R * F
}.

(** Two implementations of the interfaces, to run the plug-in on concrete
    inputs: a smoother whose ramp has no steps, so that its value is its
    target at once, and a filter that passes every sample through. *)
Definition steplessValue : LinearSmoothedValue R := {|
  rampReset := fun _ _ s => s;
  setCurrentAndTargetValue := fun v _ => v;
  setTargetValue := fun v _ => v;
  getNextValue := fun s => (s, s)
|}.

Definition bypassFilter : StateVariableTPTFilter unit := {|
  prepare := fun _ _ _ f => f;
  filterReset := fun f => f;
  setCutoffFrequency := fun _ f => f;
  processSample := fun _ x f => (x, f)
|}.

(** [juce::Decibels::decibelsToGain] with its default floor of -100 dB. *)
Definition decibelsToGain (decibels : R) : R :=
  if Rgt_dec decibels (-100) then Rpower 10 (decibels * 0.05) else 0.

(** [juce::Decibels::gainToDecibels] with its default floor of -100 dB;
    [std::log10] is the real logarithm to base 10. *)
Definition gainToDecibels (gain : R) : R :=
  if Rgt_dec gain 0
  then Cmath.fmax (-100) (ln gain / ln 10 * 20.0)
  else -100.

(** [juce::String], as far as the text parsers of the plug-in use it. *)
Class JuceString (T : Type) : Type := {
  getFloatValue : T -> R;
  endsWithIgnoreCase : T -> String.string -> bool
}.

(** A text that is a plain number, with no unit behind it. *)
Definition plainNumber : JuceString R := {|
  getFloatValue := fun x => x;
  endsWithIgnoreCase := fun _ _ => false
|}.

End Juce.

(** ** Parameters.h / Parameters.cpp *)

Module Parameters.

Import Juce.

(** The values held by the [AudioProcessorValueTreeState], as the
    [...Param->get()] calls (and [getIndex] for the choice) read them. *)
Record Store : Type := mkStore {
  gainParam : R;
  delayTimeParam : R;
  mixParam : R;
  feedbackParam : R;
  stereoParam : R;
  lowCutParam : R;
  highCutParam : R;
  tempoSyncParam : bool;
  delayNoteParam : Z
}.

Definition minDelayTime : R := 5.0.

Definition maxDelayTime : R := 5000.0.

(** The default values [createParameterLayout] declares. *)
Definition defaultStore : Store :=
  mkStore 0.0 100.0 100.0 0.0 0.0 20.0 20000.0 false 9.

(** The ranges [createParameterLayout] declares: the host keeps every
    stored value inside them. *)
Definition inLayout (s : Store) : Prop :=
  -12.0 <= gainParam s <= 12.0 /\
  minDelayTime <= delayTimeParam s <= maxDelayTime /\
  0.0 <= mixParam s <= 100.0 /\
  -100.0 <= feedbackParam s <= 100.0 /\
  -100.0 <= stereoParam s <= 100.0 /\
  20.0 <= lowCutParam s <= 20000.0 /\
  20.0 <= highCutParam s <= 20000.0 /\
  (0 <= delayNoteParam s < 16)%Z.

Section WithJuce.

Context {S : Type} {smoothedValue : LinearSmoothedValue S}.

(** [juce::Decibels::decibelsToGain]. *)
Variable decibelsToGain : R -> R.

Record t : Type := mk {
  gain : R;
  delayTime : R;
  mix : R;
  feedback : R;
  panL : R;
  panR : R;
  lowCut : R;
  highCut : R;
  delayNote : Z;
  tempoSync : bool;
  gainSmoother : S;
  targetDelayTime : R;
  coeff : R;
  mixSmoother : S;
  feedbackSmoother : S;
  stereoSmoother : S;
  lowCutSmoother : S;
  highCutSmoother : S
}.

(** The member initialisers of the class; the six smoothers are whatever
    their default construction gives. *)
Definition init (s0 : S) : t :=
  mk 0.0 0.0 1.0 0.0 0.0 1.0 20.0 20000.0 0 false
     s0 0.0 0.0 s0 s0 s0 s0 s0.

(** The coefficient is the real 1 - exp (- 1 / (0.2 * sampleRate)). *)
Definition prepareToPlay (sampleRate : R) (p : t) : t :=
  let duration := 0.02 in
  mk (gain p) (delayTime p) (mix p) (feedback p) (panL p) (panR p)
     (lowCut p) (highCut p) (delayNote p) (tempoSync p)
     (rampReset sampleRate duration (gainSmoother p))
     (targetDelayTime p)
     (1.0 - exp (- 1.0 / (0.2 * sampleRate)))
     (rampReset sampleRate duration (mixSmoother p))
     (rampReset sampleRate duration (feedbackSmoother p))
     (rampReset sampleRate duration (stereoSmoother p))
     (rampReset sampleRate duration (lowCutSmoother p))
     (rampReset sampleRate duration (highCutSmoother p)).

Definition reset (store : Store) (p : t) : t :=
  mk 0.0 0.0 1.0 0.0 0.0 1.0 20.0 20000.0 (delayNote p) (tempoSync p)
     (setCurrentAndTargetValue (decibelsToGain (gainParam store))
        (gainSmoother p))
     (targetDelayTime p)
     (coeff p)
     (setCurrentAndTargetValue (mixParam store * 0.01) (mixSmoother p))
     (setCurrentAndTargetValue (feedbackParam store * 0.01)
        (feedbackSmoother p))
     (setCurrentAndTargetValue (stereoParam store * 0.01)
        (stereoSmoother p))
     (setCurrentAndTargetValue (lowCutParam store) (lowCutSmoother p))
     (setCurrentAndTargetValue (highCutParam store) (highCutSmoother p)).

Definition update (store : Store) (p : t) : t :=
  let targetDelayTime' := delayTimeParam store in
  let delayTime' :=
    if Req_dec_T (delayTime p) 0.0 then targetDelayTime' else delayTime p in
  mk (gain p) delayTime' (mix p) (feedback p) (panL p) (panR p)
     (lowCut p) (highCut p)
     (delayNoteParam store) (tempoSyncParam store)
     (setTargetValue (decibelsToGain (gainParam store)) (gainSmoother p))
     targetDelayTime'
     (coeff p)
     (setTargetValue (mixParam store * 0.01) (mixSmoother p))
     (setTargetValue (feedbackParam store * 0.01) (feedbackSmoother p))
     (setTargetValue (stereoParam store * 0.01) (stereoSmoother p))
     (setTargetValue (lowCutParam store) (lowCutSmoother p))
     (setTargetValue (highCutParam store) (highCutSmoother p)).

(** The one-pole step of the delay time is the exact one.  In [float] an
    increment below half a unit in the last place of [delayTime] is lost,
    so the code can come to rest short of the target; nothing here says how
    fast the target is approached, only that it is not passed. *)
Definition smoothen (p : t) : t :=
  let '(gain', gainSmoother') := getNextValue (gainSmoother p) in
  let delayTime' :=
    delayTime p + (targetDelayTime p - delayTime p) * coeff p in
  let '(mix', mixSmoother') := getNextValue (mixSmoother p) in
  let '(feedback', feedbackSmoother') :=
    getNextValue (feedbackSmoother p) in
  let '(stereo, stereoSmoother') := getNextValue (stereoSmoother p) in
  let '(panL', panR') := DSP.panningEqualPower stereo in
  let '(lowCut', lowCutSmoother') := getNextValue (lowCutSmoother p) in
  let '(highCut', highCutSmoother') := getNextValue (highCutSmoother p) in
  mk gain' delayTime' mix' feedback' panL' panR' lowCut' highCut'
     (delayNote p) (tempoSync p)
     gainSmoother' (targetDelayTime p) (coeff p)
     mixSmoother' feedbackSmoother' stereoSmoother'
     lowCutSmoother' highCutSmoother'.

End WithJuce.

Arguments t S : clear implicits.

End Parameters.

(** ** PluginProcessor.h / PluginProcessor.cpp *)

Module Processor.

Import Juce.

(** Sequencing of steps that may hit undefined behaviour. *)
Definition bind {A B : Type} (m : option A) (k : A -> option B) : option B :=
  match m with
  | Some a => k a
  | None => None
  end.

#[local] Notation "x <- m ;; k" := (bind m (fun x => k))
  (at level 61, m at next level, right associativity).

Section WithJuce.

Context {S F : Type} {smoothedValue : LinearSmoothedValue S}
  {filter : StateVariableTPTFilter F}.

Variable decibelsToGain : R -> R.

Variable indeterminate : nat -> R.

(** The data members of [DelayAudioProcessor] that the audio path uses. *)
Record t : Type := mk {
  params : Parameters.t S;
  levelL : Measurement.t;
  levelR : Measurement.t;
  delayLineL : DelayLine.t;
  delayLineR : DelayLine.t;
  feedbackL : R;
  feedbackR : R;
  lowCutFilter : F;
  highCutFilter : F;
  lastLowCut : R;
  lastHighCut : R;
  tempo : Tempo.t
}.

(** The object after construction: member initialisers, two filters and
    two level meters as they come ([std::atomic<float> value] is not
    initialised by [Measurement]). *)
Definition constructed (s0 : S) (lowCut0 highCut0 : F)
  (levelL0 levelR0 : Measurement.t) : t :=
  mk (Parameters.init s0) levelL0 levelR0 DelayLine.init DelayLine.init
     0.0 0.0 lowCut0 highCut0 (-1.0) (-1.0) Tempo.init.

(** What the host supplies to one [processBlock] call besides the audio:
    the parameter values, [getSampleRate ()] and [getPlayHead ()]. *)
Record Host : Type := mkHost {
  store : Parameters.Store;
  getSampleRate : R;
  getPlayHead : option Tempo.AudioPlayHead
}.

(** [int (std::ceil (numSamples))] is the ceiling in [Z]: the two agree as
    long as the sample count is at most [Cmath.INT_MAX]. *)
Definition prepareToPlay (store : Parameters.Store)
  (sampleRate : R) (samplesPerBlock : Z) (p : t) : t :=
  let params' :=
    Parameters.reset decibelsToGain store
      (Parameters.prepareToPlay sampleRate (params p)) in
  let numSamples := Parameters.maxDelayTime / 1000.0 * sampleRate in
  let maxDelayInSamples := Cmath.ceil numSamples in
  let delayLineL' :=
    DelayLine.reset
      (DelayLine.setMaximumDelayInSamples indeterminate maxDelayInSamples
         (delayLineL p)) in
  let delayLineR' :=
    DelayLine.reset
      (DelayLine.setMaximumDelayInSamples indeterminate maxDelayInSamples
         (delayLineR p)) in
  let lowCutFilter' :=
    filterReset (prepare sampleRate samplesPerBlock 2 (lowCutFilter p)) in
  let highCutFilter' :=
    filterReset (prepare sampleRate samplesPerBlock 2 (highCutFilter p)) in
  mk params'
     (Measurement.reset (levelL p)) (Measurement.reset (levelR p))
     delayLineL' delayLineR'
     0.0 0.0
     lowCutFilter' highCutFilter'
     (-1.0) (-1.0)
     (Tempo.reset (tempo p)).

(** The delay the loop body passes to both [read] calls, as the exact
    quotient and product.  The code rounds both to [float], which can move
    the value by a few parts in 2^24 and so, next to a whole number, change
    its integer part; properties that depend on the integer part keep
    [roundingMargin] away from such places. *)
Definition delayInSamples (syncedTime sampleRate : R) (q : Parameters.t S)
  : R :=
  let delayTime :=
    if Parameters.tempoSync q then syncedTime else Parameters.delayTime q in
  delayTime / 1000.0 * sampleRate.

(** The state of the [for] loop: the processor, the locals [maxL] and
    [maxR], and the output samples stored so far. *)
Record Loop : Type := mkLoop {
  proc : t;
  maxL : R;
  maxR : R;
  output : list (R * R)
}.

(** [if (cutoff != last) { filter.setCutoffFrequency (cutoff);
    last = cutoff; }]: the filter and the cached cutoff afterwards. *)
Definition refreshCutoff (cutoff last : R) (f : F) : F * R :=
  if Req_dec_T cutoff last then (f, last)
  else (setCutoffFrequency cutoff f, cutoff).

(** The six statements that compute the next [feedbackL] and [feedbackR]
    from the wet samples, through the low-cut and then the high-cut filter,
    channel 0 before channel 1.  The result is the two feedback samples and
    the two filters afterwards. *)
Definition feedbackPath (feedback wetL wetR : R)
  (lowCutFilter highCutFilter : F) : (R * R) * (F * F) :=
  let feedbackL := wetL * feedback in
  let '(feedbackL, lowCutFilter) :=
    processSample 0 feedbackL lowCutFilter in
  let '(feedbackL, highCutFilter) :=
    processSample 0 feedbackL highCutFilter in
  let feedbackR := wetR * feedback in
  let '(feedbackR, lowCutFilter) :=
    processSample 1 feedbackR lowCutFilter in
  let '(feedbackR, highCutFilter) :=
    processSample 1 feedbackR highCutFilter in
  ((feedbackL, feedbackR), (lowCutFilter, highCutFilter)).

(** One iteration of the loop, on the input samples [dryL], [dryR]. *)
Definition loopBody (syncedTime sampleRate : R) (l : Loop)
  (dry : R * R) : option Loop :=
  let p := proc l in
  let params' := Parameters.smoothen (params p) in
  let delayInSamples := delayInSamples syncedTime sampleRate params' in
  let '(lowCutFilter1, lastLowCut') :=
    refreshCutoff (Parameters.lowCut params') (lastLowCut p)
      (lowCutFilter p) in
  let '(highCutFilter1, lastHighCut') :=
    refreshCutoff (Parameters.highCut params') (lastHighCut p)
      (highCutFilter p) in
  let '(dryL, dryR) := dry in
  let mono := (dryL + dryR) * 0.5 in
  let delayLineL' :=
    DelayLine.write (mono * Parameters.panL params' + feedbackR p)
      (delayLineL p) in
  let delayLineR' :=
    DelayLine.write (mono * Parameters.panR params' + feedbackL p)
      (delayLineR p) in
  wetL <- DelayLine.read delayLineL' delayInSamples ;;
  wetR <- DelayLine.read delayLineR' delayInSamples ;;
  let '((feedbackL', feedbackR'), (lowCutFilter', highCutFilter')) :=
    feedbackPath (Parameters.feedback params') wetL wetR
      lowCutFilter1 highCutFilter1 in
  let mixL := dryL + wetL * Parameters.mix params' in
  let mixR := dryR + wetR * Parameters.mix params' in
  let outL := mixL * Parameters.gain params' in
  let outR := mixR * Parameters.gain params' in
  Some (mkLoop
          (mk params' (levelL p) (levelR p) delayLineL' delayLineR'
              feedbackL' feedbackR' lowCutFilter' highCutFilter'
              lastLowCut' lastHighCut' (tempo p))
          (Cmath.fmax (maxL l) (Cmath.fabs outL))
          (Cmath.fmax (maxR l) (Cmath.fabs outR))
          (output l ++ [(outL, outR)])).

(** The [for] loop over the samples of the block. *)
Fixpoint sampleLoop (syncedTime sampleRate : R) (l : Loop)
  (input : list (R * R)) : option Loop :=
  match input with
  | [] => Some l
  | dry :: rest =>
      l' <- loopBody syncedTime sampleRate l dry ;;
      sampleLoop syncedTime sampleRate l' rest
  end.

(** The tempo-synced delay time of the block, after the clamp. *)
Definition syncedTime (q : Parameters.t S) (tempo : Tempo.t) : option R :=
  syncedTime <-
    Tempo.getMillisecondsForNoteLength (Parameters.delayNote q) tempo ;;
  Some (if Rgt_dec syncedTime Parameters.maxDelayTime
        then Parameters.maxDelayTime else syncedTime).

(** The head of [processBlock]: [params.update ()] and
    [tempo.update (getPlayHead ())]. *)
Definition beginBlock (host : Host) (p : t) : t :=
  mk (Parameters.update decibelsToGain (store host) (params p))
     (levelL p) (levelR p) (delayLineL p) (delayLineR p)
     (feedbackL p) (feedbackR p) (lowCutFilter p) (highCutFilter p)
     (lastLowCut p) (lastHighCut p)
     (Tempo.update (getPlayHead host) (tempo p)).

(** [processBlock] up to the end of the sample loop.  [input] holds, sample
    by sample, what [inputDataL] and [inputDataR] point at (the same
    channel twice for a mono input); the result carries the samples stored
    through [outputDataL] and [outputDataR] and the peaks [maxL], [maxR]. *)
Definition processBlock (host : Host) (input : list (R * R)) (p : t)
  : option Loop :=
  let p' := beginBlock host p in
  syncedTime <- syncedTime (params p') (tempo p') ;;
  let sampleRate := getSampleRate host in
  sampleLoop syncedTime sampleRate (mkLoop p' 0.0 0.0 []) input.

(** The two calls that end [processBlock]:
    [levelL.updateIfGreater (maxL); levelR.updateIfGreater (maxR);]. *)
Definition publishPeaks (fuel : nat) (spuriousL spuriousR : list bool)
  (l : Loop) : option t :=
  let p := proc l in
  levelL' <- Measurement.updateIfGreater fuel spuriousL (maxL l) (levelL p) ;;
  levelR' <- Measurement.updateIfGreater fuel spuriousR (maxR l) (levelR p) ;;
  Some (mk (params p) levelL' levelR' (delayLineL p) (delayLineR p)
           (feedbackL p) (feedbackR p) (lowCutFilter p) (highCutFilter p)
           (lastLowCut p) (lastHighCut p) (tempo p)).

End WithJuce.

Arguments t S F : clear implicits.
Arguments Loop S F : clear implicits.

End Processor.

(** ** Parameters.cpp: the text parsers of the parameter layout *)

Module ParameterText.

Import String.

Section WithString.

Context {T : Type} {juceString : Juce.JuceString T}.

Definition millisecondsFromString (text : T) : R :=
  let value := Juce.getFloatValue text in
  if negb (Juce.endsWithIgnoreCase text "ms") then
    if Juce.endsWithIgnoreCase text "s"
       || (if Rlt_dec value Parameters.minDelayTime then true else false)
    then value * 1000.0
    else value
  else value.

Definition hzFromString (str : T) : R :=
  let value := Juce.getFloatValue str in
  if Rlt_dec value 20.0 then value * 1000.0 else value.

End WithString.

End ParameterText.

(** ** ProtectYourEars.h *)

Module ProtectYourEars.

(** A [float] of the output buffer.  This function is about the values that
    are not numbers, so they are kept apart from the finite ones. *)
Inductive Sample : Type :=
| Finite (x : R)
| Infinite (negative : bool)
| NaN.

(** The lines [DBG] prints. *)
Inductive Message : Type :=
| NanDetected
| InfDetected
| OutOfRangeSilencing
| OutOfRange (x : R).

(** The [if] chain on one sample: [silence] and [firstWarning] afterwards,
    and what was printed. *)
Definition examine (x : Sample) (firstWarning : bool)
  : bool * bool * list Message :=
  match x with
  | NaN => (true, firstWarning, [NanDetected])
  | Infinite _ => (true, firstWarning, [InfDetected])
  | Finite x =>
      if Rlt_dec x (-2.0) then (true, firstWarning, [OutOfRangeSilencing])
      else if Rgt_dec x 2.0 then (true, firstWarning, [OutOfRangeSilencing])
      else if Rlt_dec x (-1.0) then
        if firstWarning then (false, false, [OutOfRange x])
        else (false, firstWarning, [])
      else if Rgt_dec x 1.0 then
        if firstWarning then (false, false, [OutOfRange x])
        else (false, firstWarning, [])
      else (false, firstWarning, [])
  end.

(** The inner [for] loop over the samples of one channel.  [None] says the
    function has cleared the buffer and returned; otherwise the result is
    [firstWarning] after the channel.  The second component is the output
    of [DBG]. *)
Fixpoint sampleLoop (channelData : list Sample) (firstWarning : bool)
  : option bool * list Message :=
  match channelData with
  | [] => (Some firstWarning, [])
  | x :: rest =>
      let '(silence, firstWarning', printed) := examine x firstWarning in
      if silence then (None, printed)
      else
        let '(result, printed') := sampleLoop rest firstWarning' in
        (result, printed ++ printed')
  end.

(** The outer [for] loop over the channels. *)
Fixpoint channelLoop (channels : list (list Sample)) (firstWarning : bool)
  : option bool * list Message :=
  match channels with
  | [] => (Some firstWarning, [])
  | channelData :: rest =>
      match sampleLoop channelData firstWarning with
      | (None, printed) => (None, printed)
      | (Some firstWarning', printed) =>
          let '(result, printed') := channelLoop rest firstWarning' in
          (result, printed ++ printed')
      end
  end.

(** [buffer.clear ()]. *)
Definition clear (buffer : list (list Sample)) : list (list Sample) :=
  map (map (fun _ => Finite 0.0)) buffer.

(** The buffer afterwards and the output of [DBG]. *)
Definition protectYourEars (buffer : list (list Sample))
  : list (list Sample) * list Message :=
  match channelLoop buffer true with
  | (None, printed) => (clear buffer, printed)
  | (Some _, printed) => (buffer, printed)
  end.

End ProtectYourEars.

(** ** LevelMeter.h / LevelMeter.cpp *)

Module LevelMeter.

Definition maxdB : R := 6.0.

Definition mindB : R := -60.0.

Definition clampdB : R := -120.0.

Definition clampLevel : R := 0.000001.

Definition refreshRate : Z := 60.

(** The data members the timer and the scale use.  [measurementL] and
    [measurementR] are references to objects of the processor; they are
    passed to [timerCallback] and returned by it. *)
Record t : Type := mk {
  maxPos : R;
  minPos : R;
  dbLevelL : R;
  dbLevelR : R;
  decay : R;
  levelL : R;
  levelR : R
}.

(** The object after the constructor has run. *)
Definition constructed : t :=
  mk 0.0 0.0 clampdB clampdB
     (1.0 - exp (- 1.0 / (IZR refreshRate * 0.2)))
     clampLevel clampLevel.

(** [resized], for a component of height [getHeight ()]. *)
Definition resized (getHeight : Z) (m : t) : t :=
  mk 4.0 (IZR getHeight - 4.0) (dbLevelL m) (dbLevelR m) (decay m)
     (levelL m) (levelR m).

(** [juce::jmap (value, sourceMin, sourceMax, targetMin, targetMax)]. *)
Definition jmap (value sourceMin sourceMax targetMin targetMax : R) : R :=
  targetMin
  + (targetMax - targetMin) * (value - sourceMin) / (sourceMax - sourceMin).

(** [int (std::round (x))]: halves are rounded away from zero. *)
Definition round (x : R) : Z :=
  if Rle_dec 0 x then Zfloor (x + 0.5) else Zceil (x - 0.5).

Definition positionForLevel (m : t) (dbLevel : R) : Z :=
  round (jmap dbLevel maxdB mindB (maxPos m) (minPos m)).

(** [updateLevel (newLevel, smoothedLevel, leveldB)]: the two referenced
    variables afterwards. *)
Definition updateLevel (m : t) (newLevel smoothedLevel : R) : R * R :=
  let smoothedLevel' :=
    if Rgt_dec newLevel smoothedLevel then newLevel
    else smoothedLevel + (newLevel - smoothedLevel) * decay m in
  let leveldB' :=
    if Rgt_dec smoothedLevel' clampLevel
    then Juce.gainToDecibels smoothedLevel'
    else clampdB in
  (smoothedLevel', leveldB').

(** [timerCallback], without the [repaint]: the meter and the two
    measurements afterwards. *)
Definition timerCallback (m : t) (measurementL measurementR : Measurement.t)
  : t * Measurement.t * Measurement.t :=
  let '(newL, measurementL') := Measurement.readAndReset measurementL in
  let '(levelL', dbLevelL') := updateLevel m newL (levelL m) in
  let '(newR, measurementR') := Measurement.readAndReset measurementR in
  let '(levelR', dbLevelR') := updateLevel m newR (levelR m) in
  (mk (maxPos m) (minPos m) dbLevelL' dbLevelR' (decay m) levelL' levelR',
   measurementL', measurementR').

End LevelMeter.

(** * Vocabulary of the properties *)

(** Decimal literals are rationals injected into [R]; [ring] and [field]
    want them as quotients of integers. *)
Ltac decimals :=
  unfold Q2R; cbn [QArith_base.Qnum QArith_base.Qden].

(** ** Delay lines *)

(** The array has [bufferLength] slots. *)
Definition allocated (d : DelayLine.t) : Prop :=
  Z.of_nat (length (DelayLine.buffer d)) = DelayLine.bufferLength d.

(** The write cursor addresses a slot of the array. *)
Definition cursorInside (d : DelayLine.t) : Prop :=
  (0 <= DelayLine.writeIndex d < DelayLine.bufferLength d)%Z.

(** A delay line in the state the loop works on: the array is there and
    the cursor is inside. *)
Definition lineReady (d : DelayLine.t) : Prop :=
  allocated d /\ cursorInside d.

(** What the wrap-around is meant to do to one index. *)
Definition wrapOne (len i : Z) : Z := if (i <? 0)%Z then (i + len)%Z else i.

(** [write s1; write s2; ...; write sk], in this order. *)
Definition writes (samples : list R) (d : DelayLine.t) : DelayLine.t :=
  fold_left (fun acc s => DelayLine.write s acc) samples d.

(** The number of writes after which the cursor stands on the last slot. *)
Definition writesToLastSlot (d : DelayLine.t) : Z :=
  ((- 2 - DelayLine.writeIndex d) mod DelayLine.bufferLength d)%Z.

(** ** Tempo *)

(** No tempo reaches [update]: the playhead pointer is null, or the
    position is absent, or the position carries no BPM. *)
Definition noTempo (playhead : option Tempo.AudioPlayHead) : Prop :=
  match playhead with
  | None => True
  | Some ph =>
      match Tempo.getPosition ph with
      | None => True
      | Some pos => Tempo.getBpm pos = None
      end
  end.

(** A playhead that reports the tempo [b]. *)
Definition playheadAt (b : R) : option Tempo.AudioPlayHead :=
  Some {| Tempo.getPosition := Some {| Tempo.getBpm := Some b |} |}.

(** The table of the source, as fractions of a quarter note. *)
Definition quarterNoteFractions : list R :=
  [ 1 / 8; 1 / 6; 3 / 16; 1 / 4; 1 / 3; 3 / 8; 1 / 2; 2 / 3;
    3 / 4; 1; 4 / 3; 3 / 2; 2; 8 / 3; 3; 4 ].

(** ** Tolerance *)

(** The gap between 1 and the next [float], the scale of single-precision
    tolerance. *)
Definition FLT_EPSILON : R := / 2 ^ 23.

(** A relative margin of one part in a million.  The delay in samples
    reaches [read] after three roundings to [float] (the tempo-synced time,
    its quotient by 1000, the product with the sample rate), each within
    one part in 2^24; a bound kept with this margin in exact arithmetic
    holds of the rounded value as well. *)
Definition roundingMargin : R := 1.000001.

(** A sample rate that is a whole number of Hz, small enough that the
    capacity 5 * rate + 2 of a delay line is below 2^24.  Then no [int] of
    the code overflows, and the [float]s that hold the rate and the largest
    delay in samples hold them exactly. *)
Definition wholeRate (sampleRate : R) : Prop :=
  exists rate : Z,
    sampleRate = IZR rate /\ (1 <= rate)%Z /\ (5 * rate + 2 < 16777216)%Z.

(** ** The sample loop *)

Section LoopVocabulary.

Context {S F : Type} {smoothedValue : Juce.LinearSmoothedValue S}
  {filter : Juce.StateVariableTPTFilter F}.

(** Every delay the loop hands to [read] on [input], starting from [l],
    satisfies the precondition of [read] on both lines, and the loop
    completes.  ([write] does not change [bufferLength], so the line before
    the write of the iteration stands for the line that is read.) *)
Fixpoint delaysInWindow (syncedTime sampleRate : R)
  (l : Processor.Loop S F) (input : list (R * R)) : Prop :=
  match input with
  | [] => True
  | dry :: rest =>
      let p := Processor.proc l in
      let q := Parameters.smoothen (Processor.params p) in
      let delay := Processor.delayInSamples syncedTime sampleRate q in
      DelayLine.read_precondition (Processor.delayLineL p) delay /\
      DelayLine.read_precondition (Processor.delayLineR p) delay /\
      match Processor.loopBody syncedTime sampleRate l dry with
      | Some l' => delaysInWindow syncedTime sampleRate l' rest
      | None => False
      end
  end.

(** Between blocks: both lines ready and long enough for five seconds at
    [sampleRate], a smoothing coefficient in (0, 1), and a smoothed delay
    time that is either still the 0 of [reset] or inside the range of the
    parameter. *)
Definition blockReady (sampleRate : R) (p : Processor.t S F) : Prop :=
  lineReady (Processor.delayLineL p) /\
  lineReady (Processor.delayLineR p) /\
  5 * sampleRate
  <= IZR (DelayLine.bufferLength (Processor.delayLineL p)) - 2 /\
  5 * sampleRate
  <= IZR (DelayLine.bufferLength (Processor.delayLineR p)) - 2 /\
  0 < Parameters.coeff (Processor.params p) < 1 /\
  (Parameters.delayTime (Processor.params p) = 0 \/
   5 <= Parameters.delayTime (Processor.params p) <= 5000).

(** Inside a block, with the tempo-synced time [syncedTime] of the block. *)
Definition loopReady (sampleRate syncedTime : R) (l : Processor.Loop S F)
  : Prop :=
  let p := Processor.proc l in
  lineReady (Processor.delayLineL p) /\
  lineReady (Processor.delayLineR p) /\
  5 * sampleRate
  <= IZR (DelayLine.bufferLength (Processor.delayLineL p)) - 2 /\
  5 * sampleRate
  <= IZR (DelayLine.bufferLength (Processor.delayLineR p)) - 2 /\
  0 < Parameters.coeff (Processor.params p) < 1 /\
  5 <= Parameters.delayTime (Processor.params p) <= 5000 /\
  5 <= Parameters.targetDelayTime (Processor.params p) <= 5000 /\
  (Parameters.tempoSync (Processor.params p) = true ->
   1000 <= syncedTime * sampleRate /\ syncedTime <= 5000).

(** The host tempo is slow enough for the selected note to last one
    sample and the rounding margin more:
    bpm * roundingMargin <= 60 * multiplier * sampleRate.  It only matters
    when tempo sync is on. *)
Definition tempoWithinReach (sampleRate : R) (host : Processor.Host)
  : Prop :=
  Parameters.tempoSyncParam (Processor.store host) = true ->
  exists multiplier : R,
    Cmath.load Tempo.noteLengthMultipliers
      (Parameters.delayNoteParam (Processor.store host))
    = Some multiplier /\
    0 < Tempo.getTempo
          (Tempo.update (Processor.getPlayHead host) Tempo.init) /\
    Tempo.getTempo (Tempo.update (Processor.getPlayHead host) Tempo.init)
    * roundingMargin
    <= 60 * multiplier * sampleRate.

End LoopVocabulary.

(** ** Concrete inputs *)

Section ConcreteInputs.

#[local] Existing Instance Juce.steplessValue.

#[local] Existing Instance Juce.bypassFilter.

(** The plug-in constructed and prepared at 44.1 kHz with blocks of 512
    samples, every parameter at its default. *)
Definition preparedAt44100 : Processor.t R unit :=
  Processor.prepareToPlay Juce.decibelsToGain (fun _ => 0)
    Parameters.defaultStore 44100 512
    (Processor.constructed 0 tt tt (Measurement.mk 0) (Measurement.mk 0)).

(** Tempo sync switched on with the note length 1/32 (index 0), the other
    parameters at their defaults. *)
Definition syncedStore : Parameters.Store :=
  Parameters.mkStore 0.0 100.0 100.0 0.0 0.0 20.0 20000.0 true 0.

(** The host runs at 44.1 kHz and reports a tempo of 1000000 BPM. *)
Definition fastHost : Processor.Host :=
  Processor.mkHost syncedStore 44100 (playheadAt 1000000).

(** The host runs at 44.1 kHz and reports a tempo of 120 BPM. *)
Definition steadyHost : Processor.Host :=
  Processor.mkHost syncedStore 44100 (playheadAt 120).

(** The loop state at the first sample of a block, tempo sync on. *)
Definition syncedLoop : Processor.Loop R unit :=
  Processor.mkLoop
    (Processor.beginBlock Juce.decibelsToGain steadyHost preparedAt44100)
    0 0 [].

(** The delay time at 100 ms with a new target of 200 ms. *)
Definition sweepStart : Parameters.t R :=
  Parameters.update Juce.decibelsToGain
    (Parameters.mkStore 0.0 200.0 100.0 0.0 0.0 20.0 20000.0 false 9)
    (Parameters.update Juce.decibelsToGain Parameters.defaultStore
       (Parameters.reset Juce.decibelsToGain Parameters.defaultStore
          (Parameters.init 0))).

End ConcreteInputs.

(** ** Further vocabulary *)

(** A run of [updateIfGreater] calls on one thread, each with its own
    schedule of spurious exchange failures. *)
Fixpoint updatesFrom (fuel : nat) (calls : list (list bool * R))
  (m : Measurement.t) : option Measurement.t :=
  match calls with
  | [] => Some m
  | (spurious, newValue) :: rest =>
      match Measurement.updateIfGreater fuel spurious newValue m with
      | Some m' => updatesFrom fuel rest m'
      | None => None
      end
  end.

Section PeakVocabulary.

Context {S F : Type}.

(** The locals [maxL] and [maxR] of [processBlock] against the output
    stored so far: each bounds the magnitudes of its channel and is 0 or
    the magnitude of one stored sample. *)
Definition peaksCover (l : Processor.Loop S F) : Prop :=
  Forall (fun o => Rabs (fst o) <= Processor.maxL l /\
                   Rabs (snd o) <= Processor.maxR l)
         (Processor.output l) /\
  (Processor.maxL l = 0 \/
   exists o, In o (Processor.output l) /\ Processor.maxL l = Rabs (fst o)) /\
  (Processor.maxR l = 0 \/
   exists o, In o (Processor.output l) /\ Processor.maxR l = Rabs (snd o)).

End PeakVocabulary.

Section DryVocabulary.

Context {S : Type} {smoothedValue : Juce.LinearSmoothedValue S}.

(** The output of the sample loop with the wet path muted: each input
    pair times the gain of its iteration. *)
Fixpoint dryOutput (q : Parameters.t S) (input : list (R * R))
  : list (R * R) :=
  match input with
  | [] => []
  | (dryL, dryR) :: rest =>
      let q' := Parameters.smoothen q in
      (dryL * Parameters.gain q', dryR * Parameters.gain q')
      :: dryOutput q' rest
  end.

End DryVocabulary.

(** ** The debug guard *)

(** A sample the guard lets through: a number between -2 and 2. *)
Definition safeSample (x : ProtectYourEars.Sample) : Prop :=
  match x with
  | ProtectYourEars.Finite r => -2 <= r <= 2
  | _ => False
  end.

Definition safeBuffer (buffer : list (list ProtectYourEars.Sample)) : Prop :=
  Forall (Forall safeSample) buffer.

(** The soft warning, as opposed to the three that silence the buffer. *)
Definition isSoftWarning (m : ProtectYourEars.Message) : bool :=
  match m with
  | ProtectYourEars.OutOfRange _ => true
  | _ => false
  end.

Definition softWarnings (log : list ProtectYourEars.Message) : nat :=
  length (filter isSoftWarning log).

Definition silencings (log : list ProtectYourEars.Message) : nat :=
  length (filter (fun m => negb (isSoftWarning m)) log).

(** ** The level meter *)


(** ** Further concrete inputs *)

Section ManualInputs.

#[local] Existing Instance Juce.steplessValue.

#[local] Existing Instance Juce.bypassFilter.

(** The host runs at 44.1 kHz with no playhead and every parameter at its
    default: tempo sync off, a delay time of 100 ms. *)
Definition manualHost : Processor.Host :=
  Processor.mkHost Parameters.defaultStore 44100 None.

(** Tempo sync on with a feedback amount of 50 % and the stereo parameter
    at 50: the pan gains differ and the feedback path is open. *)
Definition crossFedStore : Parameters.Store :=
  Parameters.mkStore 0.0 100.0 100.0 50.0 50.0 20.0 20000.0 true 0.

(** A loop state in mid-stream at 1 kHz: both lines, of eight slots, hold
    three earlier samples each, and the feedback samples the previous
    iteration stored are 0.25 on the left and -0.125 on the right. *)
Definition crossFedLoop : Processor.Loop R unit :=
  let q :=
    Parameters.update Juce.decibelsToGain crossFedStore
      (Parameters.reset Juce.decibelsToGain crossFedStore
         (Parameters.prepareToPlay 1000 (Parameters.init 0))) in
  let line samples :=
    writes samples
      (DelayLine.reset
         (DelayLine.setMaximumDelayInSamples (fun _ => 0) 6
            DelayLine.init)) in
  Processor.mkLoop
    (Processor.mk q (Measurement.mk 0) (Measurement.mk 0)
       (line [0.1; 0.2; 0.3]) (line [0.4; 0.5; 0.6])
       0.25 (-0.125) tt tt 20.0 20000.0 Tempo.init)
    0.0 0.0 [].

(** The loop state at the first sample of a block, tempo sync off. *)
Definition manualLoop : Processor.Loop R unit :=
  Processor.mkLoop
    (Processor.beginBlock Juce.decibelsToGain manualHost preparedAt44100)
    0.0 0.0 [].

End ManualInputs.

(** * Properties *)

(** ** Conversions *)

Lemma truncate_IZR (n : Z) : Cmath.truncate (IZR n) = n.
Proof.
  unfold Cmath.truncate.
  destruct (Rle_dec 0 (IZR n)).
  - apply ZfloorZ.
  - apply Zceil_eq. lra.
Qed.

Lemma truncate_nonneg_bound (x : R) :
  0 <= x -> IZR (Cmath.truncate x) <= x < IZR (Cmath.truncate x) + 1.
Proof.
  intros Hx. unfold Cmath.truncate.
  destruct (Rle_dec 0 x); [apply Zfloor_bound | contradiction].
Qed.

(** Inside the window of [read] the integer part of the delay is inside
    the window as well. *)
Lemma truncate_window (x : R) (len : Z) :
  1 <= x <= IZR len - 2 ->
  (1 <= Cmath.truncate x <= len - 2)%Z.
Proof.
  intros [Hlo Hhi].
  destruct (truncate_nonneg_bound x) as [Hfl Hfu]; [lra |].
  split.
  - assert (Hlt : (0 < Cmath.truncate x)%Z); [| lia].
    apply lt_IZR. lra.
  - assert (Hlt : (Cmath.truncate x < len - 2 + 1)%Z); [| lia].
    apply lt_IZR. rewrite plus_IZR, minus_IZR. lra.
Qed.

Lemma load_Some (l : list R) (i : Z) :
  (0 <= i < Z.of_nat (length l))%Z -> exists v, Cmath.load l i = Some v.
Proof.
  intros Hi. unfold Cmath.load.
  destruct (Z.ltb_spec i 0); [lia |].
  destruct (nth_error l (Z.to_nat i)) eqn:E; [eauto |].
  apply nth_error_None in E. lia.
Qed.

Lemma length_store (i : nat) (x : R) (l : list R) :
  length (Cmath.store i x l) = length l.
Proof.
  revert i; induction l as [| y tl IH]; intros [| j]; simpl; auto.
Qed.

Lemma length_storeZ (i : Z) (x : R) (l : list R) :
  length (Cmath.storeZ i x l) = length l.
Proof.
  unfold Cmath.storeZ. destruct (i <? 0)%Z; auto using length_store.
Qed.

Lemma nth_error_store_same (i : nat) (x : R) (l : list R) :
  (i < length l)%nat -> nth_error (Cmath.store i x l) i = Some x.
Proof.
  revert i; induction l as [| y tl IH]; intros [| j] Hi; simpl in *;
    try lia; auto.
  apply IH. lia.
Qed.

Lemma nth_error_store_other (i j : nat) (x : R) (l : list R) :
  i <> j -> nth_error (Cmath.store i x l) j = nth_error l j.
Proof.
  revert i j; induction l as [| y tl IH]; intros [| i] [| j] Hij; simpl;
    auto; try congruence.
Qed.

Lemma load_storeZ_same (i : Z) (x : R) (l : list R) :
  (0 <= i < Z.of_nat (length l))%Z ->
  Cmath.load (Cmath.storeZ i x l) i = Some x.
Proof.
  intros Hi. unfold Cmath.load, Cmath.storeZ.
  destruct (Z.ltb_spec i 0); [lia |].
  apply nth_error_store_same. lia.
Qed.

Lemma load_storeZ_other (i j : Z) (x : R) (l : list R) :
  (0 <= i)%Z -> (0 <= j)%Z -> i <> j ->
  Cmath.load (Cmath.storeZ i x l) j = Cmath.load l j.
Proof.
  intros Hi Hj Hij. unfold Cmath.load, Cmath.storeZ.
  destruct (Z.ltb_spec i 0); [lia |].
  destruct (Z.ltb_spec j 0); [lia |].
  apply nth_error_store_other. lia.
Qed.

(** ** The delay line: representation invariant *)

Lemma allocated_init : allocated DelayLine.init.
Proof. reflexivity. Qed.

Lemma allocated_setMaximumDelayInSamples g n d :
  allocated d -> allocated (DelayLine.setMaximumDelayInSamples g n d).
Proof.
  unfold allocated, DelayLine.setMaximumDelayInSamples. intros Hd.
  destruct (Z.ltb_spec (DelayLine.bufferLength d) (n + 2)); simpl; auto.
  rewrite length_map, length_seq. lia.
Qed.

Lemma bufferLength_setMaximumDelayInSamples g n d :
  DelayLine.bufferLength (DelayLine.setMaximumDelayInSamples g n d)
  = Z.max (DelayLine.bufferLength d) (n + 2).
Proof.
  unfold DelayLine.setMaximumDelayInSamples.
  destruct (Z.ltb_spec (DelayLine.bufferLength d) (n + 2)); simpl; lia.
Qed.

Lemma allocated_reset d : allocated d -> allocated (DelayLine.reset d).
Proof.
  unfold allocated, DelayLine.reset; simpl. intros Hd.
  rewrite repeat_length. lia.
Qed.

Lemma cursorInside_reset d :
  (0 < DelayLine.bufferLength d)%Z -> cursorInside (DelayLine.reset d).
Proof. unfold cursorInside, DelayLine.reset; simpl. lia. Qed.

Lemma allocated_write x d : allocated d -> allocated (DelayLine.write x d).
Proof.
  unfold allocated, DelayLine.write; simpl. now rewrite length_storeZ.
Qed.

Lemma cursorInside_write x d :
  (0 < DelayLine.bufferLength d)%Z -> (-1 <= DelayLine.writeIndex d)%Z ->
  cursorInside (DelayLine.write x d).
Proof.
  unfold cursorInside, DelayLine.write; simpl. intros HL Hw.
  destruct (Z.leb_spec (DelayLine.bufferLength d)
              (DelayLine.writeIndex d + 1)); lia.
Qed.

Lemma bufferLength_write x d :
  DelayLine.bufferLength (DelayLine.write x d) = DelayLine.bufferLength d.
Proof. reflexivity. Qed.

(** ** The wrap-around of [read] *)

(** On indices in descending order the nested tests act on each index
    separately: an index has the length added exactly when it is negative. *)
Lemma wrapIndices_descending (len a b c d : Z) :
  (d < c < b)%Z -> (b < a)%Z ->
  DelayLine.wrapIndices len a b c d
  = (wrapOne len a, wrapOne len b, wrapOne len c, wrapOne len d).
Proof.
  intros H1 H2. unfold DelayLine.wrapIndices, wrapOne.
  destruct (Z.ltb_spec d 0), (Z.ltb_spec c 0), (Z.ltb_spec b 0),
    (Z.ltb_spec a 0); try reflexivity; lia.
Qed.

Lemma readIndices_wrapOne (d : DelayLine.t) (x : R) :
  let a := (DelayLine.writeIndex d - Cmath.truncate x + 1)%Z in
  let len := DelayLine.bufferLength d in
  DelayLine.readIndices d x
  = (wrapOne len a, wrapOne len (a - 1), wrapOne len (a - 2),
     wrapOne len (a - 3)).
Proof.
  intros a len. unfold DelayLine.readIndices.
  apply wrapIndices_descending; lia.
Qed.

Lemma wrapOne_inside (len i : Z) :
  (- len <= i < len)%Z -> (0 <= wrapOne len i < len)%Z.
Proof. unfold wrapOne. destruct (Z.ltb_spec i 0); lia. Qed.

Lemma wrapOne_mod (len i : Z) :
  (- len <= i < len)%Z -> wrapOne len i = (i mod len)%Z.
Proof.
  intros Hi. unfold wrapOne. destruct (Z.ltb_spec i 0).
  - apply Z.mod_unique with (q := (-1)%Z); lia.
  - symmetry. apply Z.mod_small. lia.
Qed.

(** C10.  Under the precondition of [read] and with the write cursor inside
    the buffer, the four indices, before the wrap-around, are in strictly
    descending order D < C < B < A, and after the nested wrap-around each
    of them lies in [0, bufferLength); on a buffer of that many slots the
    four accesses succeed and [read] returns a value. *)
Theorem read_indices_within_buffer :
  forall (d : DelayLine.t) (delayInSamples : R) (ia ib ic id : Z),
    DelayLine.read_precondition d delayInSamples ->
    cursorInside d ->
    DelayLine.readIndices d delayInSamples = (ia, ib, ic, id) ->
    let len := DelayLine.bufferLength d in
    let rawA :=
      (DelayLine.writeIndex d - Cmath.truncate delayInSamples + 1)%Z in
    (rawA - 3 < rawA - 2 < rawA - 1)%Z /\ (rawA - 1 < rawA)%Z /\
    (ia, ib, ic, id)
    = (wrapOne len rawA, wrapOne len (rawA - 1), wrapOne len (rawA - 2),
       wrapOne len (rawA - 3)) /\
    (0 <= ia < len)%Z /\ (0 <= ib < len)%Z /\
    (0 <= ic < len)%Z /\ (0 <= id < len)%Z /\
    (allocated d -> exists v, DelayLine.read d delayInSamples = Some v).
Proof.
  intros d x ia ib ic id Hpre Hcur Hidx len rawA.
  pose proof (truncate_window x _ Hpre) as Hn.
  unfold cursorInside in Hcur. fold len in Hn, Hcur.
  pose proof (readIndices_wrapOne d x) as Hw. cbv zeta in Hw.
  fold len rawA in Hw. rewrite Hidx in Hw.
  assert (Ha : (0 <= ia < len)%Z)
    by (injection Hw as -> _ _ _; apply wrapOne_inside; lia).
  assert (Hb : (0 <= ib < len)%Z)
    by (injection Hw as _ -> _ _; apply wrapOne_inside; lia).
  assert (Hc : (0 <= ic < len)%Z)
    by (injection Hw as _ _ -> _; apply wrapOne_inside; lia).
  assert (Hd : (0 <= id < len)%Z)
    by (injection Hw as _ _ _ ->; apply wrapOne_inside; lia).
  repeat split; try lia; try exact Hw.
  intros Hal. unfold allocated in Hal. fold len in Hal.
  unfold DelayLine.read. rewrite Hidx.
  destruct (load_Some (DelayLine.buffer d) ia) as [va ->]; [lia |].
  destruct (load_Some (DelayLine.buffer d) ib) as [vb ->]; [lia |].
  destruct (load_Some (DelayLine.buffer d) ic) as [vc ->]; [lia |].
  destruct (load_Some (DelayLine.buffer d) id) as [vd ->]; [lia |].
  eauto.
Qed.

(** ** The delay line after a sequence of writes *)

Lemma writes_snoc (l : list R) (x : R) (d : DelayLine.t) :
  writes (l ++ [x]) d = DelayLine.write x (writes l d).
Proof. unfold writes. now rewrite fold_left_app. Qed.

Lemma mod_succ_cursor (len k : Z) :
  (0 < len)%Z ->
  (if (len <=? (k - 1) mod len + 1)%Z then 0 else (k - 1) mod len + 1)%Z
  = (k mod len)%Z.
Proof.
  intros Hlen.
  pose proof (Z.mod_pos_bound (k - 1) len Hlen) as Hw.
  replace (k mod len)%Z with (((k - 1) mod len + 1) mod len)%Z
    by (rewrite Zplus_mod_idemp_l; f_equal; lia).
  destruct (Z.leb_spec len ((k - 1) mod len + 1)).
  - replace ((k - 1) mod len + 1)%Z with len by lia.
    now rewrite Z_mod_same_full.
  - rewrite (Z.mod_small ((k - 1) mod len + 1)); lia.
Qed.

Lemma mod_distinct_slots (len k j : Z) :
  (0 < j < len)%Z -> ((k - j) mod len)%Z <> (k mod len)%Z.
Proof.
  intros Hj Heq.
  assert (Hz : ((k - (k - j)) mod len = 0)%Z).
  { rewrite Zminus_mod, Heq, Z.sub_diag. apply Z.mod_0_l. lia. }
  replace (k - (k - j))%Z with j in Hz by lia.
  rewrite Z.mod_small in Hz; lia.
Qed.

(** After [k] writes into a reset line of [len] slots the cursor is at
    [(k - 1) mod len], and the slot [j] places behind it holds the sample
    written [j] writes before the last one, for the last [len] writes. *)
Lemma writes_invariant (d0 : DelayLine.t) (samples : list R) :
  allocated d0 -> (0 < DelayLine.bufferLength d0)%Z ->
  let d := writes samples (DelayLine.reset d0) in
  let len := DelayLine.bufferLength d0 in
  let k := Z.of_nat (length samples) in
  DelayLine.bufferLength d = len /\
  allocated d /\
  DelayLine.writeIndex d = ((k - 1) mod len)%Z /\
  forall j : Z,
    (0 <= j < k)%Z -> (j < len)%Z ->
    Cmath.load (DelayLine.buffer d) ((k - 1 - j) mod len)
    = Some (nth (Z.to_nat (k - 1 - j)) samples 0).
Proof.
  intros Hal Hlen. cbv zeta.
  induction samples as [| x l IH] using rev_ind.
  - simpl. split; [reflexivity |]. split; [now apply allocated_reset |].
    split; [apply Z.mod_unique with (q := (-1)%Z); lia |].
    intros j Hj. lia.
  - destruct IH as (HL & Hall & Hw & Hcontent).
    rewrite writes_snoc, length_app, Nat2Z.inj_add. simpl length.
    set (k := Z.of_nat (length l)) in *.
    set (len := DelayLine.bufferLength d0) in *.
    set (d := writes l (DelayLine.reset d0)) in *.
    replace (k + Z.of_nat 1 - 1)%Z with k by lia.
    assert (Hcur : DelayLine.writeIndex (DelayLine.write x d)
                   = (k mod len)%Z).
    { unfold DelayLine.write; simpl. rewrite HL, Hw.
      now apply mod_succ_cursor. }
    pose proof (Z.mod_pos_bound k len Hlen) as Hkm.
    split; [exact HL |]. split; [now apply allocated_write |].
    split; [exact Hcur |].
    { intros j Hj Hjl.
      assert (Hbuf : DelayLine.buffer (DelayLine.write x d)
                     = Cmath.storeZ (k mod len) x (DelayLine.buffer d)).
      { unfold DelayLine.write; simpl. rewrite HL, Hw.
        now rewrite mod_succ_cursor. }
      rewrite Hbuf.
      destruct (Z.eq_dec j 0) as [-> | Hj0].
      * rewrite Z.sub_0_r.
        rewrite load_storeZ_same by (unfold allocated in Hall; lia).
        f_equal. unfold k. rewrite Nat2Z.id.
        now rewrite nth_middle.
      * rewrite load_storeZ_other.
        -- replace (k - j)%Z with (k - 1 - (j - 1))%Z by lia.
           rewrite Hcontent by lia.
           f_equal. rewrite app_nth1; [reflexivity |]. lia.
        -- lia.
        -- apply Z.mod_pos_bound; lia.
        -- intros Heq. symmetry in Heq. revert Heq.
           apply mod_distinct_slots. lia. }
Qed.

(** A line that has been configured for [maxLen] samples and reset. *)
Lemma configured_reset_line g (maxLen : Z) (d0 : DelayLine.t) :
  allocated d0 -> (0 < maxLen)%Z ->
  let d := DelayLine.setMaximumDelayInSamples g maxLen d0 in
  allocated d /\ (0 < DelayLine.bufferLength d)%Z /\
  (maxLen + 2 <= DelayLine.bufferLength d)%Z.
Proof.
  intros Hal Hmax d. subst d. split; [| split].
  - now apply allocated_setMaximumDelayInSamples.
  - rewrite bufferLength_setMaximumDelayInSamples. lia.
  - rewrite bufferLength_setMaximumDelayInSamples. lia.
Qed.

(** ** What [read] fetches and returns *)

Lemma read_fetch (d : DelayLine.t) (x : R) :
  DelayLine.read_precondition d x -> cursorInside d -> allocated d ->
  let len := DelayLine.bufferLength d in
  let n := Cmath.truncate x in
  let w := DelayLine.writeIndex d in
  exists sa sb sc sd : R,
    Cmath.load (DelayLine.buffer d) ((w - n + 1) mod len) = Some sa /\
    Cmath.load (DelayLine.buffer d) ((w - n) mod len) = Some sb /\
    Cmath.load (DelayLine.buffer d) ((w - n - 1) mod len) = Some sc /\
    Cmath.load (DelayLine.buffer d) ((w - n - 2) mod len) = Some sd /\
    DelayLine.read d x
    = Some (DelayLine.interpolate sa sb sc sd (x - IZR n)).
Proof.
  intros Hpre Hcur Hal len n w.
  pose proof (truncate_window x _ Hpre) as Hn. fold len n in Hn.
  unfold cursorInside in Hcur. fold len w in Hcur.
  unfold allocated in Hal. fold len in Hal.
  unfold DelayLine.read. rewrite readIndices_wrapOne. fold len n w.
  rewrite !wrapOne_mod by lia.
  replace (w - n + 1 - 1)%Z with (w - n)%Z by lia.
  replace (w - n + 1 - 2)%Z with (w - n - 1)%Z by lia.
  replace (w - n + 1 - 3)%Z with (w - n - 2)%Z by lia.
  assert (Hlen : (0 < len)%Z) by lia.
  destruct (load_Some (DelayLine.buffer d) ((w - n + 1) mod len))
    as [sa Ha]; [pose proof (Z.mod_pos_bound (w - n + 1) len Hlen); lia |].
  destruct (load_Some (DelayLine.buffer d) ((w - n) mod len))
    as [sb Hb]; [pose proof (Z.mod_pos_bound (w - n) len Hlen); lia |].
  destruct (load_Some (DelayLine.buffer d) ((w - n - 1) mod len))
    as [sc Hc]; [pose proof (Z.mod_pos_bound (w - n - 1) len Hlen); lia |].
  destruct (load_Some (DelayLine.buffer d) ((w - n - 2) mod len))
    as [sd Hd]; [pose proof (Z.mod_pos_bound (w - n - 2) len Hlen); lia |].
  exists sa, sb, sc, sd. rewrite Ha, Hb, Hc, Hd. auto.
Qed.

(** At a zero fraction the polynomial is its constant term. *)
Lemma interpolate_zero (sa sb sc sd : R) :
  DelayLine.interpolate sa sb sc sd 0 = sb.
Proof. unfold DelayLine.interpolate. decimals. field. Qed.

(** On four equally spaced points of a line the cubic and quadratic
    coefficients vanish. *)
Lemma interpolate_affine (alpha beta p f : R) :
  DelayLine.interpolate (alpha * (p + 1) + beta) (alpha * p + beta)
    (alpha * (p - 1) + beta) (alpha * (p - 2) + beta) f
  = alpha * (p - f) + beta.
Proof. unfold DelayLine.interpolate. decimals. field. Qed.

Lemma written_line (g : nat -> R) (maxLen : Z) (d0 : DelayLine.t)
  (samples : list R) :
  allocated d0 -> (0 < maxLen)%Z ->
  let d1 := DelayLine.setMaximumDelayInSamples g maxLen d0 in
  let d := writes samples (DelayLine.reset d1) in
  let len := DelayLine.bufferLength d in
  let k := Z.of_nat (length samples) in
  (maxLen + 2 <= len)%Z /\ allocated d /\ cursorInside d /\
  DelayLine.writeIndex d = ((k - 1) mod len)%Z /\
  forall j : Z,
    (0 <= j < k)%Z -> (j < len)%Z ->
    Cmath.load (DelayLine.buffer d) ((DelayLine.writeIndex d - j) mod len)
    = Some (nth (Z.to_nat (k - 1 - j)) samples 0).
Proof.
  intros Hal Hmax d1 d len k.
  destruct (configured_reset_line g maxLen d0 Hal Hmax) as (Hal1 & Hpos & Hcap).
  fold d1 in Hal1, Hpos, Hcap.
  destruct (writes_invariant d1 samples Hal1 Hpos) as (HL & Hall & Hw & Hc).
  fold d k in HL, Hall, Hw, Hc.
  assert (Hlen : len = DelayLine.bufferLength d1) by exact HL.
  rewrite <- Hlen in Hw, Hc, Hpos, Hcap.
  split; [exact Hcap |]. split; [exact Hall |].
  split; [unfold cursorInside; fold len; rewrite Hw;
          apply Z.mod_pos_bound; lia |].
  split; [exact Hw |].
  intros j Hj Hjl. rewrite Hw, Zminus_mod_idemp_l. now apply Hc.
Qed.

(** C3.  A line is configured and reset and then [k] samples are written.
    Reading at an integer delay [N] with 1 <= N <= capacity - 2 and N < k
    returns exactly the sample written [N] writes before the last one,
    [s_(k-N)] counting from 1: the integer part of the delay is [N], the
    fraction is 0, and the polynomial collapses to the anchored sample. *)
Theorem read_integer_delay_exact :
  forall (g : nat -> R) (maxLen : Z) (d0 : DelayLine.t) (samples : list R)
         (N : Z),
    allocated d0 -> (0 < maxLen)%Z ->
    let d :=
      writes samples
        (DelayLine.reset (DelayLine.setMaximumDelayInSamples g maxLen d0)) in
    (1 <= N <= DelayLine.bufferLength d - 2)%Z ->
    (N < Z.of_nat (length samples))%Z ->
    IZR N - IZR (Cmath.truncate (IZR N)) = 0 /\
    DelayLine.read d (IZR N)
    = Some (nth (length samples - 1 - Z.to_nat N) samples 0).
Proof.
  intros g maxLen d0 samples N Hal Hmax d HN Hk.
  destruct (written_line g maxLen d0 samples Hal Hmax)
    as (Hcap & Hall & Hcur & Hw & Hcontent).
  fold d in Hcap, Hall, Hcur, Hw, Hcontent.
  assert (Hpre : DelayLine.read_precondition d (IZR N)).
  { unfold DelayLine.read_precondition. rewrite <- minus_IZR.
    split; apply IZR_le; lia. }
  pose proof (read_fetch d (IZR N) Hpre Hcur Hall) as Hf. cbv zeta in Hf.
  destruct Hf as (sa & sb & sc & sd & _ & Hb & _ & _ & Hread).
  rewrite truncate_IZR in Hb, Hread |- *.
  split; [lra |].
  rewrite Hread, Rminus_diag, interpolate_zero.
  rewrite Hcontent in Hb by lia.
  rewrite <- Hb. do 2 f_equal. lia.
Qed.

Lemma read_integer_delay_exact_witness :
  IZR 2 - IZR (Cmath.truncate (IZR 2)) = 0 /\
  DelayLine.read
    (writes [7; 8; 9]
       (DelayLine.reset
          (DelayLine.setMaximumDelayInSamples (fun _ => 0) 4
             DelayLine.init)))
    (IZR 2)
  = Some 7.
Proof.
  apply (read_integer_delay_exact (fun _ => 0) 4 DelayLine.init [7; 8; 9] 2).
  - reflexivity.
  - lia.
  - vm_compute. intuition discriminate.
  - simpl. lia.
Defined.

(** C4.  A line is configured and reset and then [k] samples are written.
    Let [x] be a delay in the window of [read] with integer part [n], such
    that the four samples [read] fetches, the ones written at positions
    [k - n - 2 .. k - n + 1] (counting from 1), lie on the ramp
    [s_i = alpha * i + beta].  Then [read x] is exactly the value of the
    ramp [x] positions behind the last write, [alpha * (k - x) + beta]. *)
Theorem read_affine_ramp_exact :
  forall (g : nat -> R) (maxLen : Z) (d0 : DelayLine.t) (samples : list R)
         (alpha beta x : R),
    allocated d0 -> (0 < maxLen)%Z ->
    let d :=
      writes samples
        (DelayLine.reset (DelayLine.setMaximumDelayInSamples g maxLen d0)) in
    let k := Z.of_nat (length samples) in
    let n := Cmath.truncate x in
    DelayLine.read_precondition d x ->
    (n + 2 < k)%Z ->
    (forall i : Z,
        (k - n - 2 <= i <= k - n + 1)%Z ->
        nth (Z.to_nat (i - 1)) samples 0 = alpha * IZR i + beta) ->
    DelayLine.read d x = Some (alpha * (IZR k - x) + beta).
Proof.
  intros g maxLen d0 samples alpha beta x Hal Hmax d k n Hpre Hwin Hramp.
  destruct (written_line g maxLen d0 samples Hal Hmax)
    as (Hcap & Hall & Hcur & Hw & Hcontent).
  fold d k in Hcap, Hall, Hcur, Hw, Hcontent.
  set (len := DelayLine.bufferLength d) in *.
  pose proof (truncate_window x _ Hpre) as Hn. fold len n in Hn.
  pose proof (read_fetch d x Hpre Hcur Hall) as Hf. cbv zeta in Hf.
  fold len n in Hf.
  destruct Hf as (sa & sb & sc & sd & Ha & Hb & Hc & Hd & Hread).
  rewrite Hread. f_equal.
  assert (Esb : sb = alpha * IZR (k - n) + beta).
  { rewrite Hcontent in Hb by lia. injection Hb as <-.
    rewrite <- Hramp by lia. f_equal. lia. }
  destruct (Z.eq_dec n (len - 2)) as [Hedge | Hinner].
  - (* the delay is the largest the window allows: it is an integer *)
    assert (Hx : x = IZR n).
    { destruct (truncate_nonneg_bound x) as [Hlo _];
        [unfold DelayLine.read_precondition in Hpre; lra |].
      fold n in Hlo. destruct Hpre as [_ Hhi]. fold len in Hhi.
      rewrite Hedge in Hlo |- *. rewrite minus_IZR in Hlo |- *. lra. }
    replace (x - IZR n) with 0 by lra.
    rewrite interpolate_zero, Esb, minus_IZR.
    replace (IZR n) with x by lra. reflexivity.
  - assert (Esa : sa = alpha * (IZR (k - n) + 1) + beta).
    { replace (DelayLine.writeIndex d - n + 1)%Z
        with (DelayLine.writeIndex d - (n - 1))%Z in Ha by lia.
      rewrite Hcontent in Ha by lia. injection Ha as <-.
      rewrite <- plus_IZR, <- Hramp by lia. f_equal. lia. }
    assert (Esc : sc = alpha * (IZR (k - n) - 1) + beta).
    { replace (DelayLine.writeIndex d - n - 1)%Z
        with (DelayLine.writeIndex d - (n + 1))%Z in Hc by lia.
      rewrite Hcontent in Hc by lia. injection Hc as <-.
      rewrite <- minus_IZR, <- Hramp by lia. f_equal. lia. }
    assert (Esd : sd = alpha * (IZR (k - n) - 2) + beta).
    { replace (DelayLine.writeIndex d - n - 2)%Z
        with (DelayLine.writeIndex d - (n + 2))%Z in Hd by lia.
      rewrite Hcontent in Hd by lia. injection Hd as <-.
      rewrite <- minus_IZR, <- Hramp by lia. f_equal. lia. }
    rewrite Esa, Esb, Esc, Esd, interpolate_affine, minus_IZR.
    f_equal. ring.
Qed.

Lemma truncate_three_halves : Cmath.truncate 1.5 = 1%Z.
Proof.
  unfold Cmath.truncate.
  destruct (Rle_dec 0 1.5) as [_ | Hneg]; [| exfalso; apply Hneg; lra].
  apply Zfloor_eq. lra.
Qed.

Lemma read_affine_ramp_exact_witness :
  DelayLine.read
    (writes [1; 2; 3; 4; 5]
       (DelayLine.reset
          (DelayLine.setMaximumDelayInSamples (fun _ => 0) 4
             DelayLine.init)))
    1.5
  = Some (1 * (IZR 5 - 1.5) + 0).
Proof.
  apply (read_affine_ramp_exact (fun _ => 0) 4 DelayLine.init
           [1; 2; 3; 4; 5] 1 0 1.5).
  - reflexivity.
  - lia.
  - unfold DelayLine.read_precondition.
    change (DelayLine.bufferLength _) with 6%Z. lra.
  - rewrite truncate_three_halves. simpl. lia.
  - rewrite truncate_three_halves. simpl length. intros i Hi.
    assert (Hcases : i = 2%Z \/ i = 3%Z \/ i = 4%Z \/ i = 5%Z) by lia.
    destruct Hcases as [-> | [-> | [-> | ->]]]; simpl; lra.
Defined.

(** ** The tempo clock *)

Lemma update_playheadAt (b : R) (s : Tempo.t) :
  Tempo.getTempo (Tempo.update (playheadAt b) s) = b.
Proof. reflexivity. Qed.

(** C2, as stated, fails: after a block in which the host reported 140 BPM,
    a block without transport information does not leave 140 in place. *)
Lemma update_without_transport_loses_bpm :
  let before := Tempo.update (playheadAt 140) Tempo.init in
  Tempo.getTempo before = 140 /\
  noTempo None /\
  Tempo.getTempo (Tempo.update None before) <> Tempo.getTempo before.
Proof.
  cbv zeta. split; [reflexivity |]. split; [exact I |].
  simpl. lra.
Qed.

(** C2, amended.  [update] starts from the default: when no tempo reaches it
    (null playhead, absent position, or position without BPM), [getTempo]
    afterwards returns 120 whatever it returned before; the previous value
    is still there exactly when it was 120. *)
Theorem update_without_transport_is_default :
  forall (playhead : option Tempo.AudioPlayHead) (s : Tempo.t),
    noTempo playhead ->
    Tempo.getTempo (Tempo.update playhead s) = 120 /\
    (Tempo.getTempo (Tempo.update playhead s) = Tempo.getTempo s
     <-> Tempo.getTempo s = 120).
Proof.
  intros playhead s Hno.
  assert (Hdef : Tempo.getTempo (Tempo.update playhead s) = 120).
  { unfold Tempo.update, noTempo in *.
    destruct playhead as [ph |]; simpl; [| lra].
    destruct (Tempo.getPosition ph) as [pos |]; simpl; [| lra].
    rewrite Hno. simpl. lra. }
  split; [exact Hdef |]. rewrite Hdef. split; congruence.
Qed.

Lemma update_without_transport_is_default_witness :
  Tempo.getTempo
    (Tempo.update (Some {| Tempo.getPosition := None |}) (Tempo.mk 90))
  = 120 /\
  (Tempo.getTempo
     (Tempo.update (Some {| Tempo.getPosition := None |}) (Tempo.mk 90))
   = Tempo.getTempo (Tempo.mk 90)
   <-> Tempo.getTempo (Tempo.mk 90) = 120).
Proof.
  apply (update_without_transport_is_default
           (Some {| Tempo.getPosition := None |}) (Tempo.mk 90)).
  exact I.
Defined.

Lemma noteLengthMultipliers_fractions (index : Z) :
  (0 <= index < 16)%Z ->
  Cmath.load Tempo.noteLengthMultipliers index
  = Some (nth (Z.to_nat index) quarterNoteFractions 0).
Proof.
  intros Hi. unfold Cmath.load.
  destruct (Z.ltb_spec index 0); [lia |].
  assert (Hn : (Z.to_nat index < 16)%nat) by lia.
  revert Hn. generalize (Z.to_nat index). intros n Hn.
  do 16 (destruct n as [| n]; [simpl; f_equal; lra |]).
  lia.
Qed.

(** C7.  The table has 16 entries.  For an index in 0..15 and a positive
    BPM, [getMillisecondsForNoteLength] returns 60000 * multiplier / bpm
    for the multiplier of that index; at half the BPM it returns exactly
    twice as much; and index 9 at 120 BPM gives exactly 500 ms. *)
Theorem getMillisecondsForNoteLength_value :
  forall (index : Z) (bpm : R),
    (0 <= index < 16)%Z -> 0 < bpm ->
    let multiplier := nth (Z.to_nat index) quarterNoteFractions 0 in
    length Tempo.noteLengthMultipliers = 16%nat /\
    Tempo.getMillisecondsForNoteLength index (Tempo.mk bpm)
    = Some (60000 * multiplier / bpm) /\
    Tempo.getMillisecondsForNoteLength index (Tempo.mk (bpm / 2))
    = Some (2 * (60000 * multiplier / bpm)) /\
    Tempo.getMillisecondsForNoteLength 9 (Tempo.mk 120) = Some 500.
Proof.
  intros index bpm Hi Hbpm multiplier.
  split; [reflexivity |].
  unfold Tempo.getMillisecondsForNoteLength.
  rewrite (noteLengthMultipliers_fractions index Hi).
  rewrite (noteLengthMultipliers_fractions 9) by lia.
  fold multiplier. simpl Tempo.bpm.
  repeat split; f_equal.
  - decimals. field. lra.
  - decimals. field. lra.
  - simpl. lra.
Qed.

Lemma getMillisecondsForNoteLength_value_witness :
  length Tempo.noteLengthMultipliers = 16%nat /\
  Tempo.getMillisecondsForNoteLength 6 (Tempo.mk 100)
  = Some (60000 * (1 / 2) / 100) /\
  Tempo.getMillisecondsForNoteLength 6 (Tempo.mk (100 / 2))
  = Some (2 * (60000 * (1 / 2) / 100)) /\
  Tempo.getMillisecondsForNoteLength 9 (Tempo.mk 120) = Some 500.
Proof.
  apply (getMillisecondsForNoteLength_value 6 100).
  - lia.
  - lra.
Defined.

(** ** The peak tracker on one thread *)

Lemma measurement_eta (m : Measurement.t) :
  Measurement.mk (Measurement.value m) = m.
Proof. now destruct m. Qed.

(** With the object untouched by other threads, the expected value the
    loop carries is the stored one, so the first exchange that is not
    spurious succeeds. *)
Lemma updateLoop_single_thread (spurious : list bool) :
  forall (fuel : nat) (newValue : R) (m : Measurement.t),
    (length spurious < fuel)%nat ->
    Measurement.updateLoop fuel spurious newValue (Measurement.value m) m
    = Some (Measurement.mk (Rmax (Measurement.value m) newValue)).
Proof.
  induction spurious as [| b rest IH]; intros fuel newValue m Hfuel;
    (destruct fuel as [| fuel']; [simpl in Hfuel; lia |]); simpl.
  - destruct (Rgt_dec newValue (Measurement.value m)) as [Hgt | Hle].
    + unfold Measurement.compare_exchange_weak.
      destruct (Req_dec_T (Measurement.value m) (Measurement.value m));
        [| congruence].
      rewrite Rmax_right by lra. reflexivity.
    + rewrite Rmax_left by lra. now rewrite measurement_eta.
  - destruct (Rgt_dec newValue (Measurement.value m)) as [Hgt | Hle].
    + unfold Measurement.compare_exchange_weak. destruct b.
      * apply IH. simpl in Hfuel. lia.
      * destruct (Req_dec_T (Measurement.value m) (Measurement.value m));
          [| congruence].
        rewrite Rmax_right by lra. reflexivity.
    + rewrite Rmax_left by lra. now rewrite measurement_eta.
Qed.

Lemma updateIfGreater_single_thread (fuel : nat) (spurious : list bool)
  (newValue : R) (m : Measurement.t) :
  (length spurious < fuel)%nat ->
  Measurement.updateIfGreater fuel spurious newValue m
  = Some (Measurement.mk (Rmax (Measurement.value m) newValue)).
Proof. apply updateLoop_single_thread. Qed.

(** C8.  On one thread, whatever exchanges fail spuriously (finitely many,
    with fuel for one more), [updateIfGreater v] terminates and leaves
    max (previous, v) in the object; [readAndReset] returns the stored value
    and leaves 0.  From a reset object, the updates 0.2, 0.9, 0.5 followed
    by [readAndReset] give 0.9, and a second [readAndReset] gives 0.0. *)
Theorem peak_tracker_single_thread :
  forall (fuel : nat) (s1 s2 s3 : list bool) (v : R) (m : Measurement.t),
    (length s1 < fuel)%nat -> (length s2 < fuel)%nat ->
    (length s3 < fuel)%nat ->
    Measurement.updateIfGreater fuel s1 v m
    = Some (Measurement.mk (Rmax (Measurement.value m) v)) /\
    Measurement.readAndReset m = (Measurement.value m, Measurement.mk 0) /\
    exists m1 m2 m3 : Measurement.t,
      Measurement.updateIfGreater fuel s1 0.2 (Measurement.reset m)
      = Some m1 /\
      Measurement.updateIfGreater fuel s2 0.9 m1 = Some m2 /\
      Measurement.updateIfGreater fuel s3 0.5 m2 = Some m3 /\
      fst (Measurement.readAndReset m3) = 0.9 /\
      fst (Measurement.readAndReset (snd (Measurement.readAndReset m3)))
      = 0.0.
Proof.
  intros fuel s1 s2 s3 v m H1 H2 H3.
  split; [now apply updateIfGreater_single_thread |].
  split; [unfold Measurement.readAndReset; do 2 f_equal; lra |].
  eexists _, _, _.
  split; [now apply updateIfGreater_single_thread |].
  split; [now apply updateIfGreater_single_thread |].
  split; [now apply updateIfGreater_single_thread |].
  simpl. split; [| reflexivity].
  rewrite (Rmax_right 0.0 0.2) by lra.
  rewrite (Rmax_right 0.2 0.9) by lra.
  rewrite (Rmax_left 0.9 0.5) by lra. reflexivity.
Qed.

Lemma peak_tracker_single_thread_witness :
  Measurement.updateIfGreater 3 [true; true] 0.7 (Measurement.mk 0.4)
  = Some (Measurement.mk (Rmax (Measurement.value (Measurement.mk 0.4)) 0.7))
  /\
  Measurement.readAndReset (Measurement.mk 0.4)
  = (Measurement.value (Measurement.mk 0.4), Measurement.mk 0) /\
  exists m1 m2 m3 : Measurement.t,
    Measurement.updateIfGreater 3 [true; true] 0.2
      (Measurement.reset (Measurement.mk 0.4))
    = Some m1 /\
    Measurement.updateIfGreater 3 [false] 0.9 m1 = Some m2 /\
    Measurement.updateIfGreater 3 [] 0.5 m2 = Some m3 /\
    fst (Measurement.readAndReset m3) = 0.9 /\
    fst (Measurement.readAndReset (snd (Measurement.readAndReset m3)))
    = 0.0.
Proof.
  apply (peak_tracker_single_thread 3 [true; true] [false] [] 0.7
           (Measurement.mk 0.4)); simpl; lia.
Defined.

(** ** The one-pole smoothing of the delay time *)

Section DelayTimeSmoothing.

Context {S : Type} {smoothedValue : Juce.LinearSmoothedValue S}.

Lemma smoothen_delayTime (p : Parameters.t S) :
  Parameters.delayTime (Parameters.smoothen p)
  = Parameters.delayTime p
    + (Parameters.targetDelayTime p - Parameters.delayTime p)
      * Parameters.coeff p /\
  Parameters.targetDelayTime (Parameters.smoothen p)
  = Parameters.targetDelayTime p /\
  Parameters.coeff (Parameters.smoothen p) = Parameters.coeff p /\
  Parameters.tempoSync (Parameters.smoothen p) = Parameters.tempoSync p /\
  Parameters.delayNote (Parameters.smoothen p) = Parameters.delayNote p.
Proof.
  unfold Parameters.smoothen, DSP.panningEqualPower.
  destruct (Juce.getNextValue (Parameters.gainSmoother p)).
  destruct (Juce.getNextValue (Parameters.mixSmoother p)).
  destruct (Juce.getNextValue (Parameters.feedbackSmoother p)).
  destruct (Juce.getNextValue (Parameters.stereoSmoother p)).
  destruct (Juce.getNextValue (Parameters.lowCutSmoother p)).
  destruct (Juce.getNextValue (Parameters.highCutSmoother p)).
  simpl. auto.
Qed.

Lemma smoothen_iter_fixed (p : Parameters.t S) (n : nat) :
  Parameters.targetDelayTime (Nat.iter n Parameters.smoothen p)
  = Parameters.targetDelayTime p /\
  Parameters.coeff (Nat.iter n Parameters.smoothen p) = Parameters.coeff p.
Proof.
  induction n as [| n [IHt IHc]]; [auto |]. simpl.
  destruct (smoothen_delayTime (Nat.iter n Parameters.smoothen p))
    as (_ & Ht & Hc & _).
  rewrite Ht, Hc. auto.
Qed.

(** The coefficient [prepareToPlay] computes lies strictly between 0 and 1. *)
Lemma prepared_coeff_range (sampleRate : R) (p : Parameters.t S) :
  0 < sampleRate ->
  0 < Parameters.coeff (Parameters.prepareToPlay sampleRate p) < 1.
Proof.
  intros Hsr. unfold Parameters.prepareToPlay; simpl.
  set (e := - 1.0 / (0.2 * sampleRate)).
  assert (He : e < 0).
  { unfold e, Rdiv.
    assert (Hinv : 0 < / (0.2 * sampleRate))
      by (apply Rinv_0_lt_compat; lra).
    nra. }
  pose proof (exp_pos e) as Hpos.
  pose proof (exp_increasing e 0 He) as Hlt. rewrite exp_0 in Hlt.
  lra.
Qed.

(** One step with a coefficient in (0, 1) moves toward the target and stops
    short of it. *)
Lemma one_pole_step (current target c : R) :
  0 < c < 1 ->
  let next := current + (target - current) * c in
  (current <= target -> current <= next <= target) /\
  (target <= current -> target <= next <= current) /\
  Rabs (target - next) <= Rabs (target - current).
Proof.
  intros Hc next. subst next.
  split; [intros Hle; split; nra |].
  split; [intros Hle; split; nra |].
  replace (target - (current + (target - current) * c))
    with ((target - current) * (1 - c)) by ring.
  rewrite Rabs_mult, (Rabs_pos_eq (1 - c)) by lra.
  pose proof (Rabs_pos (target - current)). nra.
Qed.

Lemma one_pole_side (p : Parameters.t S) (n : nat) :
  0 < Parameters.coeff p < 1 ->
  let target := Parameters.targetDelayTime p in
  let current i :=
    Parameters.delayTime (Nat.iter i Parameters.smoothen p) in
  (current 0%nat <= target -> current n <= target) /\
  (target <= current 0%nat -> target <= current n).
Proof.
  intros Hc target current.
  induction n as [| n [IHle IHge]]; [auto |].
  unfold current in *. simpl Nat.iter.
  destruct (smoothen_delayTime (Nat.iter n Parameters.smoothen p))
    as (Hd & _).
  destruct (smoothen_iter_fixed p n) as [Ht Hco].
  rewrite Hd, Ht, Hco. fold target.
  destruct (one_pole_step
              (Parameters.delayTime (Nat.iter n Parameters.smoothen p))
              target (Parameters.coeff p) Hc) as (Hup & Hdown & _).
  split; intros H0.
  - apply Hup. now apply IHle.
  - apply Hdown. now apply IHge.
Qed.

(** C5.  After [prepareToPlay] at a positive sample rate the coefficient is
    1 - e^(-1 / (0.2 * sampleRate)) and lies strictly between 0 and 1.  With
    the target held, each [smoothen] replaces the current delay time by
    current + (target - current) * c; the current value stays on the side
    of the target where it started, moves monotonically toward it without
    passing it, and its distance to the target never grows. *)
Theorem delay_time_smoothing_no_overshoot :
  forall (sampleRate : R) (p0 : Parameters.t S) (n : nat),
    0 < sampleRate ->
    let p := Parameters.prepareToPlay sampleRate p0 in
    let c := Parameters.coeff p in
    let target := Parameters.targetDelayTime p in
    let current i :=
      Parameters.delayTime (Nat.iter i Parameters.smoothen p) in
    c = 1 - exp (- 1 / (0.2 * sampleRate)) /\
    0 < c < 1 /\
    current 0%nat = Parameters.delayTime p0 /\
    target = Parameters.targetDelayTime p0 /\
    Parameters.targetDelayTime (Nat.iter n Parameters.smoothen p) = target /\
    current (Datatypes.S n) = current n + (target - current n) * c /\
    (current 0%nat <= target ->
     current n <= current (Datatypes.S n) <= target) /\
    (target <= current 0%nat ->
     target <= current (Datatypes.S n) <= current n) /\
    Rabs (target - current (Datatypes.S n)) <= Rabs (target - current n).
Proof.
  intros sampleRate p0 n Hsr p c target current.
  pose proof (prepared_coeff_range sampleRate p0 Hsr) as Hc.
  fold p c in Hc.
  destruct (smoothen_iter_fixed p n) as [Ht Hco].
  destruct (smoothen_delayTime (Nat.iter n Parameters.smoothen p))
    as (Hd & _).
  rewrite Ht, Hco in Hd. fold target c in Hd.
  assert (Hstep : current (Datatypes.S n)
                  = current n + (target - current n) * c) by exact Hd.
  destruct (one_pole_side p n Hc) as [Hle Hge]. fold target current in Hle, Hge.
  destruct (one_pole_step (current n) target c Hc) as (Hup & Hdown & Habs).
  split.
  { unfold c, p, Parameters.prepareToPlay; simpl.
    do 2 f_equal. decimals. field. lra. }
  split; [exact Hc |].
  split; [reflexivity |]. split; [reflexivity |].
  split; [exact Ht |]. split; [exact Hstep |].
  rewrite Hstep. auto.
Qed.

End DelayTimeSmoothing.

(** ** The equal-power panner *)

(** Twenty digits of pi / 4, from the series of 2 atan (1/3) + atan (1/7). *)
Lemma PI4_enclosure :
  0.78539816339744830961 <= PI / 4 <= 0.78539816339744830962.
Proof.
  destruct (PI_2_3_7_ineq 10) as [Hlo Hhi].
  split.
  - eapply Rle_trans; [| exact Hlo].
    unfold sum_f_R0, tg_alt, PI_2_3_7_tg, Ratan_seq. simpl. lra.
  - eapply Rle_trans; [exact Hhi |].
    unfold sum_f_R0, tg_alt, PI_2_3_7_tg, Ratan_seq. simpl. lra.
Qed.

(** The constant of the source, as the [float] it is, exceeds pi / 4 by
    about 2.19 / 10^8. *)
Lemma panning_constant_close :
  21 / 1000000000 <= DSP.quarterTurn - PI / 4 <= 22 / 1000000000.
Proof.
  destruct PI4_enclosure as [Hlo Hhi]. unfold DSP.quarterTurn. split; lra.
Qed.

Lemma Rabs_sin_le (t : R) : Rabs (sin t) <= Rabs t.
Proof.
  destruct (Rtotal_order t 0) as [Hneg | [-> | Hpos]].
  - pose proof (sin_gt_x t Hneg) as H1.
    destruct (Rle_dec (-1) t) as [Hge | Hlt].
    + assert (Hs : sin t <= 0).
      { pose proof (sin_ge_0 (- t)) as H2. rewrite sin_neg in H2.
        pose proof PI_RGT_0. pose proof PI4_enclosure.
        assert (0 <= - sin t) by (apply H2; lra). lra. }
      rewrite (Rabs_left1 (sin t)), (Rabs_left t) by lra. lra.
    + pose proof (SIN_bound t) as Hb.
      rewrite (Rabs_left t) by lra.
      apply Rabs_le. lra.
  - rewrite sin_0. lra.
  - pose proof (sin_lt_x t Hpos) as H1.
    destruct (Rle_dec t 1) as [Hle | Hgt].
    + assert (Hs : 0 <= sin t).
      { apply sin_ge_0; [lra |]. pose proof PI4_enclosure. lra. }
      rewrite (Rabs_pos_eq (sin t)), (Rabs_pos_eq t) by lra. lra.
    + pose proof (SIN_bound t) as Hb.
      rewrite (Rabs_pos_eq t) by lra.
      apply Rabs_le. lra.
Qed.

Lemma cos_lipschitz (a b : R) : Rabs (cos a - cos b) <= Rabs (a - b).
Proof.
  rewrite form2, !Rabs_mult.
  pose proof (Rabs_sin_le ((a - b) / 2)) as H1.
  assert (H2 : Rabs (sin ((a + b) / 2)) <= 1)
    by (apply Rabs_le; apply SIN_bound).
  assert (H3 : Rabs ((a - b) / 2) = Rabs (a - b) / 2).
  { unfold Rdiv. rewrite Rabs_mult, (Rabs_pos_eq (/ 2)) by lra. lra. }
  rewrite H3 in H1.
  replace (Rabs (-2)) with 2
    by (rewrite Rabs_left by lra; lra).
  pose proof (Rabs_pos (sin ((a - b) / 2))).
  pose proof (Rabs_pos (sin ((a + b) / 2))).
  nra.
Qed.

Lemma sin_lipschitz (a b : R) : Rabs (sin a - sin b) <= Rabs (a - b).
Proof.
  rewrite form4, !Rabs_mult.
  pose proof (Rabs_sin_le ((a - b) / 2)) as H1.
  assert (H2 : Rabs (cos ((a + b) / 2)) <= 1)
    by (apply Rabs_le; apply COS_bound).
  assert (H3 : Rabs ((a - b) / 2) = Rabs (a - b) / 2).
  { unfold Rdiv. rewrite Rabs_mult, (Rabs_pos_eq (/ 2)) by lra. lra. }
  rewrite H3 in H1.
  rewrite (Rabs_pos_eq 2) by lra.
  pose proof (Rabs_pos (sin ((a - b) / 2))).
  pose proof (Rabs_pos (cos ((a + b) / 2))).
  nra.
Qed.

Lemma half_sqrt2 : 1 / sqrt 2 = sqrt 2 / 2.
Proof.
  assert (H2 : sqrt 2 * sqrt 2 = 2) by (apply sqrt_sqrt; lra).
  assert (Hnz : sqrt 2 <> 0) by (intros E; rewrite E in H2; lra).
  apply Rmult_eq_reg_r with (r := sqrt 2); [| exact Hnz].
  unfold Rdiv. rewrite Rmult_assoc, Rinv_l by exact Hnz. lra.
Qed.

(** The gains differ from the cosine and sine of the exact angle
    pi / 4 * (x + 1) by at most 4.4 / 10^8 on [-1, 1]. *)
Lemma panning_near_exact_angle (x : R) :
  -1 <= x <= 1 ->
  Rabs (fst (DSP.panningEqualPower x) - cos (PI / 4 * (x + 1)))
  <= 44 / 1000000000 /\
  Rabs (snd (DSP.panningEqualPower x) - sin (PI / 4 * (x + 1)))
  <= 44 / 1000000000.
Proof.
  intros Hx. unfold DSP.panningEqualPower; simpl fst; simpl snd.
  pose proof panning_constant_close as Hc.
  assert (Hd : Rabs (DSP.quarterTurn * (x + 1.0) - PI / 4 * (x + 1))
               <= 44 / 1000000000).
  { replace (DSP.quarterTurn * (x + 1.0) - PI / 4 * (x + 1))
      with ((DSP.quarterTurn - PI / 4) * (x + 1)) by lra.
    rewrite Rabs_pos_eq by nra. nra. }
  split; eapply Rle_trans; try exact Hd.
  - apply cos_lipschitz.
  - apply sin_lipschitz.
Qed.

Lemma Rabs_le_inv (a b : R) : Rabs a <= b -> - b <= a <= b.
Proof. unfold Rabs. destruct (Rcase_abs a); lra. Qed.

Lemma panning_tolerance : 88 / 1000000000 <= FLT_EPSILON.
Proof. unfold FLT_EPSILON. simpl. lra. Qed.

(** C6.  [panningEqualPower] is a function of its input alone.  For every
    pan value in [-1, 1] the squares of the two gains sum to 1; the right
    gain lies in [0, 1] and the left gain in [- FLT_EPSILON, 1].  At -1 the
    gains are (1, 0); at 1 they are (0, 1) and at 0 both are sqrt 2 / 2,
    each within single-precision tolerance.  The left gain at 1 is not 0
    but slightly below it, the [float] of the source being above pi / 4. *)
Theorem panning_equal_power_law :
  forall x : R,
    -1 <= x <= 1 ->
    let left := fst (DSP.panningEqualPower x) in
    let right := snd (DSP.panningEqualPower x) in
    left * left + right * right = 1 /\
    - FLT_EPSILON <= left <= 1 /\ 0 <= right <= 1 /\
    DSP.panningEqualPower (-1) = (1, 0) /\
    Rabs (fst (DSP.panningEqualPower 1) - 0) <= FLT_EPSILON /\
    Rabs (snd (DSP.panningEqualPower 1) - 1) <= FLT_EPSILON /\
    Rabs (fst (DSP.panningEqualPower 0) - sqrt 2 / 2) <= FLT_EPSILON /\
    Rabs (snd (DSP.panningEqualPower 0) - sqrt 2 / 2) <= FLT_EPSILON /\
    fst (DSP.panningEqualPower 1) < 0.
Proof.
  intros x Hx left right.
  pose proof panning_tolerance as Heps.
  pose proof panning_constant_close as Hc.
  pose proof PI4_enclosure as Hpi.
  split.
  { unfold left, right, DSP.panningEqualPower; simpl.
    pose proof (sin2_cos2 (DSP.quarterTurn * (x + 1.0))) as Hsq.
    unfold Rsqr in Hsq. lra. }
  split.
  { split; [| unfold left, DSP.panningEqualPower; simpl; apply COS_bound].
    destruct (panning_near_exact_angle x Hx) as [Hl _].
    assert (Hcos : 0 <= cos (PI / 4 * (x + 1)))
      by (apply cos_ge_0; nra).
    apply Rabs_le_inv in Hl. unfold left. lra. }
  split.
  { unfold right, DSP.panningEqualPower; simpl. split.
    - apply sin_ge_0; nra.
    - apply SIN_bound. }
  split.
  { unfold DSP.panningEqualPower.
    replace (DSP.quarterTurn * (-1 + 1.0)) with 0 by lra.
    now rewrite cos_0, sin_0. }
  destruct (panning_near_exact_angle 1) as [Hl1 Hr1]; [lra |].
  destruct (panning_near_exact_angle 0) as [Hl0 Hr0]; [lra |].
  replace (PI / 4 * (1 + 1)) with (PI / 2) in Hl1, Hr1 by lra.
  replace (PI / 4 * (0 + 1)) with (PI / 4) in Hl0, Hr0 by lra.
  rewrite cos_PI2 in Hl1. rewrite sin_PI2 in Hr1.
  rewrite cos_PI4, half_sqrt2 in Hl0. rewrite sin_PI4, half_sqrt2 in Hr0.
  split; [lra |]. split; [lra |]. split; [lra |]. split; [lra |].
  unfold DSP.panningEqualPower. simpl fst.
  apply cos_lt_0; lra.
Qed.

Lemma panning_equal_power_law_witness :
  let left := fst (DSP.panningEqualPower 0.5) in
  let right := snd (DSP.panningEqualPower 0.5) in
  left * left + right * right = 1 /\
  - FLT_EPSILON <= left <= 1 /\ 0 <= right <= 1 /\
  DSP.panningEqualPower (-1) = (1, 0) /\
  Rabs (fst (DSP.panningEqualPower 1) - 0) <= FLT_EPSILON /\
  Rabs (snd (DSP.panningEqualPower 1) - 1) <= FLT_EPSILON /\
  Rabs (fst (DSP.panningEqualPower 0) - sqrt 2 / 2) <= FLT_EPSILON /\
  Rabs (snd (DSP.panningEqualPower 0) - sqrt 2 / 2) <= FLT_EPSILON /\
  fst (DSP.panningEqualPower 1) < 0.
Proof.
  apply (panning_equal_power_law 0.5). lra.
Defined.

(** ** The per-sample loop *)

Lemma lineReady_write (x : R) (d : DelayLine.t) :
  lineReady d -> lineReady (DelayLine.write x d).
Proof.
  intros [Hal Hcur]. unfold cursorInside in Hcur. split.
  - now apply allocated_write.
  - apply cursorInside_write; lia.
Qed.

Lemma newest_sample_write (x : R) (d : DelayLine.t) :
  lineReady d ->
  Cmath.load (DelayLine.buffer (DelayLine.write x d))
    (DelayLine.writeIndex (DelayLine.write x d))
  = Some x.
Proof.
  intros [Hal Hcur]. unfold allocated in Hal. unfold cursorInside in Hcur.
  unfold DelayLine.write; simpl.
  apply load_storeZ_same.
  destruct (Z.leb_spec (DelayLine.bufferLength d)
              (DelayLine.writeIndex d + 1)); lia.
Qed.

Lemma lineReady_configured g (maxLen : Z) (d0 : DelayLine.t) :
  allocated d0 -> (0 < maxLen)%Z ->
  lineReady
    (DelayLine.reset (DelayLine.setMaximumDelayInSamples g maxLen d0)).
Proof.
  intros Hal Hmax.
  destruct (configured_reset_line g maxLen d0 Hal Hmax) as (H1 & H2 & _).
  split; [now apply allocated_reset | now apply cursorInside_reset].
Qed.

(** ** The plug-in after [prepareToPlay] *)

Lemma bufferLength_reset (d : DelayLine.t) :
  DelayLine.bufferLength (DelayLine.reset d) = DelayLine.bufferLength d.
Proof. reflexivity. Qed.

Lemma writeIndex_reset (d : DelayLine.t) :
  DelayLine.writeIndex (DelayLine.reset d)
  = (DelayLine.bufferLength d - 1)%Z.
Proof. reflexivity. Qed.

Lemma ceil_maxDelay_positive (sampleRate : R) :
  0 < sampleRate ->
  (0 < Cmath.ceil (Parameters.maxDelayTime / 1000.0 * sampleRate))%Z /\
  5 * sampleRate
  <= IZR (Cmath.ceil (Parameters.maxDelayTime / 1000.0 * sampleRate)).
Proof.
  intros Hsr. unfold Cmath.ceil, Parameters.maxDelayTime.
  pose proof (Zceil_bound (5000.0 / 1000.0 * sampleRate)) as [_ Hub].
  split; [apply lt_IZR |]; lra.
Qed.

Section Prepared.

Context {S F : Type} {smoothedValue : Juce.LinearSmoothedValue S}
  {filter : Juce.StateVariableTPTFilter F}.

Variable decibelsToGain : R -> R.

Variable indeterminate : nat -> R.

(** After [prepareToPlay] both lines are ready, hold at least
    ceil (5 * sampleRate) + 2 slots, and have the cursor on the last slot. *)
Lemma prepared_lines (store : Parameters.Store) (sampleRate : R)
  (samplesPerBlock : Z) (p0 : Processor.t S F) :
  allocated (Processor.delayLineL p0) ->
  allocated (Processor.delayLineR p0) ->
  0 < sampleRate ->
  let p :=
    Processor.prepareToPlay decibelsToGain indeterminate store sampleRate
      samplesPerBlock p0 in
  let maxDelayInSamples :=
    Cmath.ceil (Parameters.maxDelayTime / 1000.0 * sampleRate) in
  lineReady (Processor.delayLineL p) /\
  lineReady (Processor.delayLineR p) /\
  (maxDelayInSamples + 2
   <= DelayLine.bufferLength (Processor.delayLineL p))%Z /\
  (maxDelayInSamples + 2
   <= DelayLine.bufferLength (Processor.delayLineR p))%Z /\
  DelayLine.writeIndex (Processor.delayLineL p)
  = (DelayLine.bufferLength (Processor.delayLineL p) - 1)%Z /\
  DelayLine.writeIndex (Processor.delayLineR p)
  = (DelayLine.bufferLength (Processor.delayLineR p) - 1)%Z.
Proof.
  intros HL HR Hsr p maxDelayInSamples.
  destruct (ceil_maxDelay_positive sampleRate Hsr) as [Hpos _].
  fold maxDelayInSamples in Hpos.
  unfold p, Processor.prepareToPlay. fold maxDelayInSamples.
  cbn [Processor.delayLineL Processor.delayLineR].
  rewrite !bufferLength_reset, !writeIndex_reset.
  rewrite !bufferLength_setMaximumDelayInSamples.
  repeat split; try lia; try (now apply lineReady_configured).
Qed.

End Prepared.

(** ** When the delay stays inside the window of [read] *)

Lemma tempo_update_forgets (playhead : option Tempo.AudioPlayHead)
  (s s' : Tempo.t) :
  Tempo.update playhead s = Tempo.update playhead s'.
Proof. reflexivity. Qed.

Section InsideTheWindow.

Context {S F : Type} {smoothedValue : Juce.LinearSmoothedValue S}
  {filter : Juce.StateVariableTPTFilter F}.

Variable decibelsToGain : R -> R.

Variable indeterminate : nat -> R.

(** An iteration on ready lines with the delay inside the window. *)
Lemma loopBody_runs (syncedTime sampleRate : R) (l : Processor.Loop S F)
  (dryL dryR : R) :
  let p := Processor.proc l in
  let q := Parameters.smoothen (Processor.params p) in
  let delay := Processor.delayInSamples syncedTime sampleRate q in
  let mono := (dryL + dryR) / 2 in
  let inL := mono * Parameters.panL q + Processor.feedbackR p in
  let inR := mono * Parameters.panR q + Processor.feedbackL p in
  lineReady (Processor.delayLineL p) ->
  lineReady (Processor.delayLineR p) ->
  DelayLine.read_precondition (Processor.delayLineL p) delay ->
  DelayLine.read_precondition (Processor.delayLineR p) delay ->
  exists (l' : Processor.Loop S F) (wetL wetR : R),
    Processor.loopBody syncedTime sampleRate l (dryL, dryR) = Some l' /\
    Processor.params (Processor.proc l') = q /\
    Processor.delayLineL (Processor.proc l')
    = DelayLine.write inL (Processor.delayLineL p) /\
    Processor.delayLineR (Processor.proc l')
    = DelayLine.write inR (Processor.delayLineR p) /\
    DelayLine.read (Processor.delayLineL (Processor.proc l')) delay
    = Some wetL /\
    DelayLine.read (Processor.delayLineR (Processor.proc l')) delay
    = Some wetR /\
    (Processor.feedbackL (Processor.proc l'),
     Processor.feedbackR (Processor.proc l'))
    = fst (Processor.feedbackPath (Parameters.feedback q) wetL wetR
             (fst (Processor.refreshCutoff (Parameters.lowCut q)
                     (Processor.lastLowCut p) (Processor.lowCutFilter p)))
             (fst (Processor.refreshCutoff (Parameters.highCut q)
                     (Processor.lastHighCut p)
                     (Processor.highCutFilter p)))).
Proof.
  intros p q delay mono inL inR HL HR HpreL HpreR.
  assert (Emono : (dryL + dryR) * 0.5 = mono) by (unfold mono; lra).
  pose proof (lineReady_write inL _ HL) as [HalL HcurL].
  pose proof (lineReady_write inR _ HR) as [HalR HcurR].
  destruct (read_fetch (DelayLine.write inL (Processor.delayLineL p)) delay)
    as (aL & bL & cL & dL & _ & _ & _ & _ & HreadL); auto.
  destruct (read_fetch (DelayLine.write inR (Processor.delayLineR p)) delay)
    as (aR & bR & cR & dR & _ & _ & _ & _ & HreadR); auto.
  unfold Processor.loopBody. fold p. fold q. fold delay.
  destruct (Processor.refreshCutoff (Parameters.lowCut q)
              (Processor.lastLowCut p) (Processor.lowCutFilter p))
    as [lc1 lastLow].
  destruct (Processor.refreshCutoff (Parameters.highCut q)
              (Processor.lastHighCut p) (Processor.highCutFilter p))
    as [hc1 lastHigh].
  rewrite Emono. fold inL inR.
  rewrite HreadL, HreadR. simpl Processor.bind. simpl fst.
  destruct (Processor.feedbackPath (Parameters.feedback q) _ _ lc1 hc1)
    as [[fbL fbR] [lc' hc']] eqn:Epath.
  eexists _, _, _. split; [reflexivity |].
  cbn [Processor.proc Processor.delayLineL Processor.delayLineR
       Processor.feedbackL Processor.feedbackR Processor.params].
  split; [reflexivity |]. split; [reflexivity |]. split; [reflexivity |].
  split; [exact HreadL |]. split; [exact HreadR |].
  now rewrite Epath.
Qed.

(** What an iteration that completes has written, read and stored, and
    when an iteration completes: exactly when both reads stay inside their
    arrays. *)
Lemma loopBody_done (syncedTime sampleRate : R) (l : Processor.Loop S F)
  (dryL dryR : R) :
  let p := Processor.proc l in
  let q := Parameters.smoothen (Processor.params p) in
  let delay := Processor.delayInSamples syncedTime sampleRate q in
  let mono := (dryL + dryR) / 2 in
  let inL := mono * Parameters.panL q + Processor.feedbackR p in
  let inR := mono * Parameters.panR q + Processor.feedbackL p in
  (forall l' : Processor.Loop S F,
      Processor.loopBody syncedTime sampleRate l (dryL, dryR) = Some l' ->
      Processor.delayLineL (Processor.proc l')
      = DelayLine.write inL (Processor.delayLineL p) /\
      Processor.delayLineR (Processor.proc l')
      = DelayLine.write inR (Processor.delayLineR p) /\
      exists wetL wetR : R,
        DelayLine.read (Processor.delayLineL (Processor.proc l')) delay
        = Some wetL /\
        DelayLine.read (Processor.delayLineR (Processor.proc l')) delay
        = Some wetR /\
        (Processor.feedbackL (Processor.proc l'),
         Processor.feedbackR (Processor.proc l'))
        = fst (Processor.feedbackPath (Parameters.feedback q) wetL wetR
                 (fst (Processor.refreshCutoff (Parameters.lowCut q)
                         (Processor.lastLowCut p)
                         (Processor.lowCutFilter p)))
                 (fst (Processor.refreshCutoff (Parameters.highCut q)
                         (Processor.lastHighCut p)
                         (Processor.highCutFilter p))))) /\
  (Processor.loopBody syncedTime sampleRate l (dryL, dryR) <> None <->
   DelayLine.read (DelayLine.write inL (Processor.delayLineL p)) delay
   <> None /\
   DelayLine.read (DelayLine.write inR (Processor.delayLineR p)) delay
   <> None).
Proof.
  intros p q delay mono inL inR.
  assert (Emono : (dryL + dryR) * 0.5 = mono) by (unfold mono; lra).
  unfold Processor.loopBody. fold p. fold q. fold delay.
  destruct (Processor.refreshCutoff (Parameters.lowCut q)
              (Processor.lastLowCut p) (Processor.lowCutFilter p))
    as [lc1 lastLow].
  destruct (Processor.refreshCutoff (Parameters.highCut q)
              (Processor.lastHighCut p) (Processor.highCutFilter p))
    as [hc1 lastHigh].
  rewrite Emono. fold inL inR.
  destruct (DelayLine.read (DelayLine.write inL (Processor.delayLineL p))
              delay) as [wetL |] eqn:EL;
    [| split; [discriminate | split; [tauto | intros [H _]; tauto]]].
  destruct (DelayLine.read (DelayLine.write inR (Processor.delayLineR p))
              delay) as [wetR |] eqn:ER;
    [| split; [discriminate | split; [tauto | intros [_ H]; tauto]]].
  cbv beta iota delta [Processor.bind]. simpl fst.
  destruct (Processor.feedbackPath (Parameters.feedback q) wetL wetR lc1 hc1)
    as [[fbL fbR] [lc' hc']] eqn:Epath.
  split; [| split; [intros _; split; discriminate | discriminate]].
  intros l' Hbody. injection Hbody as <-.
  cbn [Processor.proc Processor.delayLineL Processor.delayLineR
       Processor.feedbackL Processor.feedbackR].
  split; [reflexivity |]. split; [reflexivity |].
  exists wetL, wetR. rewrite EL, ER, Epath. auto.
Qed.

(** C9.  [prepareToPlay] leaves both feedback samples at zero.  In every
    iteration of the loop on ready delay lines the left line receives
    mono * panL + feedbackR and the right line mono * panR + feedbackL,
    where mono is the average of the two dry samples, panL and panR are the
    gains after this iteration's [smoothen], and feedbackL, feedbackR are
    the values the state holds on entry, that is, the ones the previous
    iteration stored.  The iteration stores, for the next one, the wet
    samples times the feedback amount passed through the low-cut and the
    high-cut filter.  This holds of every iteration that completes,
    whatever the delay; an iteration completes exactly when both reads stay
    inside their arrays, and it does so whenever the delay is inside the
    window of [read]. *)
Theorem cross_feedback_delay_writes :
  forall (store : Parameters.Store) (rate0 : R) (samplesPerBlock : Z)
         (p0 : Processor.t S F)
         (syncedTime sampleRate : R) (l : Processor.Loop S F)
         (dryL dryR : R),
    let p := Processor.proc l in
    let q := Parameters.smoothen (Processor.params p) in
    let delay := Processor.delayInSamples syncedTime sampleRate q in
    let mono := (dryL + dryR) / 2 in
    let inL := mono * Parameters.panL q + Processor.feedbackR p in
    let inR := mono * Parameters.panR q + Processor.feedbackL p in
    let lowCut1 :=
      fst (Processor.refreshCutoff (Parameters.lowCut q)
             (Processor.lastLowCut p) (Processor.lowCutFilter p)) in
    let highCut1 :=
      fst (Processor.refreshCutoff (Parameters.highCut q)
             (Processor.lastHighCut p) (Processor.highCutFilter p)) in
    lineReady (Processor.delayLineL p) ->
    lineReady (Processor.delayLineR p) ->
    let started :=
      Processor.prepareToPlay decibelsToGain indeterminate store rate0
        samplesPerBlock p0 in
    Processor.feedbackL started = 0 /\
    Processor.feedbackR started = 0 /\
    (forall l' : Processor.Loop S F,
        Processor.loopBody syncedTime sampleRate l (dryL, dryR) = Some l' ->
        Processor.delayLineL (Processor.proc l')
        = DelayLine.write inL (Processor.delayLineL p) /\
        Processor.delayLineR (Processor.proc l')
        = DelayLine.write inR (Processor.delayLineR p) /\
        Cmath.load
          (DelayLine.buffer (Processor.delayLineL (Processor.proc l')))
          (DelayLine.writeIndex (Processor.delayLineL (Processor.proc l')))
        = Some inL /\
        Cmath.load
          (DelayLine.buffer (Processor.delayLineR (Processor.proc l')))
          (DelayLine.writeIndex (Processor.delayLineR (Processor.proc l')))
        = Some inR /\
        exists wetL wetR : R,
          DelayLine.read (Processor.delayLineL (Processor.proc l')) delay
          = Some wetL /\
          DelayLine.read (Processor.delayLineR (Processor.proc l')) delay
          = Some wetR /\
          (Processor.feedbackL (Processor.proc l'),
           Processor.feedbackR (Processor.proc l'))
          = fst (Processor.feedbackPath (Parameters.feedback q) wetL wetR
                   lowCut1 highCut1)) /\
    (Processor.loopBody syncedTime sampleRate l (dryL, dryR) <> None <->
     DelayLine.read (DelayLine.write inL (Processor.delayLineL p)) delay
     <> None /\
     DelayLine.read (DelayLine.write inR (Processor.delayLineR p)) delay
     <> None) /\
    (DelayLine.read_precondition (Processor.delayLineL p) delay ->
     DelayLine.read_precondition (Processor.delayLineR p) delay ->
     exists l' : Processor.Loop S F,
       Processor.loopBody syncedTime sampleRate l (dryL, dryR) = Some l').
Proof.
  intros store rate0 samplesPerBlock p0 syncedTime sampleRate l dryL dryR
         p q delay mono inL inR lowCut1 highCut1 HL HR started.
  split; [unfold started, Processor.prepareToPlay; simpl; lra |].
  split; [unfold started, Processor.prepareToPlay; simpl; lra |].
  destruct (loopBody_done syncedTime sampleRate l dryL dryR)
    as [Hdone Hiff].
  fold p q delay mono inL inR in Hdone, Hiff.
  split; [| split; [exact Hiff |]].
  - intros l' Hbody.
    destruct (Hdone l' Hbody) as (HwL & HwR & wetL & wetR & HrL & HrR & Hfb).
    split; [exact HwL |]. split; [exact HwR |].
    split; [rewrite HwL; now apply newest_sample_write |].
    split; [rewrite HwR; now apply newest_sample_write |].
    exists wetL, wetR. auto.
  - intros HpreL HpreR.
    destruct (loopBody_runs syncedTime sampleRate l dryL dryR HL HR
                HpreL HpreR)
      as (l' & _ & _ & Hbody & _).
    exists l'. exact Hbody.
Qed.

Lemma loopReady_window (sampleRate syncedTime : R)
  (l : Processor.Loop S F) :
  200 <= sampleRate -> loopReady sampleRate syncedTime l ->
  let p := Processor.proc l in
  let q := Parameters.smoothen (Processor.params p) in
  let delay := Processor.delayInSamples syncedTime sampleRate q in
  5 <= Parameters.delayTime q <= 5000 /\
  DelayLine.read_precondition (Processor.delayLineL p) delay /\
  DelayLine.read_precondition (Processor.delayLineR p) delay.
Proof.
  intros Hsr (HL & HR & HlenL & HlenR & Hc & Hcur & Htarget & Hsync)
         p q delay.
  fold p in HL, HR, HlenL, HlenR, Hc, Hcur, Htarget, Hsync.
  destruct (smoothen_delayTime (Processor.params p))
    as (Hd & _ & _ & Hts & _). fold q in Hd, Hts.
  destruct (one_pole_step (Parameters.delayTime (Processor.params p))
              (Parameters.targetDelayTime (Processor.params p))
              (Parameters.coeff (Processor.params p)) Hc)
    as (Hup & Hdown & _).
  rewrite <- Hd in Hup, Hdown.
  assert (Hq : 5 <= Parameters.delayTime q <= 5000).
  { destruct (Rle_dec (Parameters.delayTime (Processor.params p))
                (Parameters.targetDelayTime (Processor.params p)))
      as [Hle | Hgt].
    - specialize (Hup Hle). lra.
    - assert (Hge : Parameters.targetDelayTime (Processor.params p)
                    <= Parameters.delayTime (Processor.params p)) by lra.
      specialize (Hdown Hge). lra. }
  split; [exact Hq |].
  assert (Hdelay : 1 <= delay <= 5 * sampleRate).
  { unfold delay, Processor.delayInSamples. rewrite Hts.
    destruct (Parameters.tempoSync (Processor.params p)).
    - destruct (Hsync eq_refl) as [Hlo Hhi]. split; nra.
    - split; nra. }
  unfold DelayLine.read_precondition. split; split; lra.
Qed.

Lemma loopBody_ready (sampleRate syncedTime : R) (l : Processor.Loop S F)
  (dry : R * R) :
  200 <= sampleRate -> loopReady sampleRate syncedTime l ->
  exists l' : Processor.Loop S F,
    Processor.loopBody syncedTime sampleRate l dry = Some l' /\
    loopReady sampleRate syncedTime l'.
Proof.
  intros Hsr Hready.
  destruct (loopReady_window sampleRate syncedTime l Hsr Hready)
    as (Hq & HpreL & HpreR).
  destruct Hready as (HL & HR & HlenL & HlenR & Hc & Hcur & Htarget & Hsync).
  destruct dry as [dryL dryR].
  destruct (loopBody_runs syncedTime sampleRate l dryL dryR HL HR HpreL HpreR)
    as (l' & wetL & wetR & Hbody & Hp & HwL & HwR & _).
  exists l'. split; [exact Hbody |].
  destruct (smoothen_delayTime (Processor.params (Processor.proc l)))
    as (_ & Ht & Hco & Hts & _).
  unfold loopReady. rewrite Hp, HwL, HwR, Ht, Hco, Hts.
  rewrite !bufferLength_write.
  repeat split; try (apply lineReady_write; assumption);
    try lra; try apply Hq; try apply Hsync; assumption.
Qed.

Lemma sampleLoop_ready (sampleRate syncedTime : R) (input : list (R * R)) :
  200 <= sampleRate ->
  forall l : Processor.Loop S F,
    loopReady sampleRate syncedTime l ->
    delaysInWindow syncedTime sampleRate l input /\
    exists l' : Processor.Loop S F,
      Processor.sampleLoop syncedTime sampleRate l input = Some l' /\
      loopReady sampleRate syncedTime l'.
Proof.
  intros Hsr. induction input as [| dry rest IH]; intros l Hready.
  - simpl. split; [exact I |]. exists l. auto.
  - destruct (loopReady_window sampleRate syncedTime l Hsr Hready)
      as (_ & HpreL & HpreR).
    destruct (loopBody_ready sampleRate syncedTime l dry Hsr Hready)
      as (l1 & Hbody & Hready1).
    destruct (IH l1 Hready1) as (Hwin & l' & Hloop & Hready').
    simpl. rewrite Hbody. simpl.
    split; [| exists l'; auto].
    split; [exact HpreL |]. split; [exact HpreR | exact Hwin].
Qed.

(** [prepareToPlay] at a positive sample rate leaves the plug-in ready for
    blocks at that rate. *)
Lemma prepareToPlay_blockReady (store : Parameters.Store) (sampleRate : R)
  (samplesPerBlock : Z) (p0 : Processor.t S F) :
  allocated (Processor.delayLineL p0) ->
  allocated (Processor.delayLineR p0) ->
  0 < sampleRate ->
  blockReady sampleRate
    (Processor.prepareToPlay decibelsToGain indeterminate store sampleRate
       samplesPerBlock p0).
Proof.
  intros HL HR Hsr.
  destruct (prepared_lines decibelsToGain indeterminate store sampleRate
              samplesPerBlock p0 HL HR Hsr)
    as (HrL & HrR & HcapL & HcapR & _).
  destruct (ceil_maxDelay_positive sampleRate Hsr) as [_ Hceil].
  apply IZR_le in HcapL, HcapR. rewrite plus_IZR in HcapL, HcapR.
  pose proof (prepared_coeff_range sampleRate
                (Processor.params p0) Hsr) as Hc.
  unfold blockReady.
  split; [exact HrL |]. split; [exact HrR |].
  split; [lra |]. split; [lra |].
  split; [exact Hc |].
  left. unfold Processor.prepareToPlay, Parameters.reset; simpl. lra.
Qed.

(** The head of a block turns a ready plug-in into a ready loop. *)
Lemma beginBlock_loopReady (sampleRate : R) (host : Processor.Host)
  (p : Processor.t S F) :
  200 <= sampleRate ->
  Parameters.inLayout (Processor.store host) ->
  tempoWithinReach sampleRate host ->
  blockReady sampleRate p ->
  let started := Processor.beginBlock decibelsToGain host p in
  exists syncedTime : R,
    Processor.syncedTime (Processor.params started)
      (Processor.tempo started)
    = Some syncedTime /\
    loopReady sampleRate syncedTime (Processor.mkLoop started 0.0 0.0 []).
Proof.
  intros Hsr Hlay Hreach (HL & HR & HlenL & HlenR & Hc & Hdt) started.
  destruct Hlay as (_ & Hdelay & _ & _ & _ & _ & _ & Hnote).
  unfold Parameters.minDelayTime, Parameters.maxDelayTime in Hdelay.
  destruct (load_Some Tempo.noteLengthMultipliers
              (Parameters.delayNoteParam (Processor.store host)))
    as [m Hm]; [simpl; lia |].
  set (bpm := Tempo.getTempo
                (Tempo.update (Processor.getPlayHead host) Tempo.init)).
  set (raw := 60000.0 * m / bpm).
  exists (if Rgt_dec raw Parameters.maxDelayTime
          then Parameters.maxDelayTime else raw).
  split.
  { unfold Processor.syncedTime, Tempo.getMillisecondsForNoteLength.
    unfold started, Processor.beginBlock.
    cbn [Processor.params Processor.tempo].
    unfold Parameters.update at 1. cbn [Parameters.delayNote].
    rewrite Hm. reflexivity. }
  unfold loopReady, started, Processor.beginBlock.
  cbn [Processor.proc Processor.params Processor.delayLineL
       Processor.delayLineR].
  split; [exact HL |]. split; [exact HR |].
  split; [exact HlenL |]. split; [exact HlenR |].
  unfold Parameters.update.
  cbn [Parameters.coeff Parameters.delayTime Parameters.targetDelayTime
       Parameters.tempoSync].
  split; [exact Hc |].
  split.
  { destruct (Req_dec_T (Parameters.delayTime (Processor.params p)) 0.0)
      as [Hz | Hnz]; [lra |].
    destruct Hdt as [Hz | Hin]; [exfalso; apply Hnz; lra | exact Hin]. }
  split; [lra |].
  intros Hsync. destruct (Hreach Hsync) as (m' & Hm' & Hpos & Hmargin).
  rewrite Hm in Hm'. injection Hm' as <-. fold bpm in Hpos, Hmargin.
  assert (Hbound : bpm <= 60 * m * sampleRate)
    by (unfold roundingMargin in Hmargin; nra).
  unfold Parameters.maxDelayTime.
  destruct (Rgt_dec raw 5000.0) as [Hgt | Hle]; [split; nra |].
  split; [| lra].
  assert (Hraw : raw * bpm = 60000 * m).
  { unfold raw. decimals. field. lra. }
  assert (Hrawpos : 0 <= raw * sampleRate - 1000 \/
                    raw * sampleRate - 1000 < 0) by lra.
  destruct Hrawpos as [Hok | Hbad]; [lra |].
  exfalso.
  assert (Hprod : (raw * sampleRate - 1000) * bpm < 0) by nra.
  nra.
Qed.

(** X1.  A plug-in that is ready between blocks stays ready through a
    block, and every delay handed to [read] in that block satisfies the
    precondition of [read], provided the sample rate is a whole number of
    Hz, at least 201 (so that the shortest delay time, 5 ms, exceeds one
    sample by a margin) with 5 * rate + 2 below 2^24, and is the one the
    plug-in was prepared for, the parameters are inside their declared
    ranges, and, when tempo sync is on, the host tempo is positive and the
    selected note lasts one sample and the rounding margin more:
    bpm * 1.000001 <= 60 * multiplier * sampleRate. *)
Theorem processBlock_delays_in_window :
  forall (sampleRate : R) (host : Processor.Host) (input : list (R * R))
         (p : Processor.t S F),
    wholeRate sampleRate ->
    201 <= sampleRate ->
    Processor.getSampleRate host = sampleRate ->
    Parameters.inLayout (Processor.store host) ->
    tempoWithinReach sampleRate host ->
    blockReady sampleRate p ->
    let started := Processor.beginBlock decibelsToGain host p in
    exists (syncedTime : R) (l : Processor.Loop S F),
      Processor.syncedTime (Processor.params started)
        (Processor.tempo started)
      = Some syncedTime /\
      delaysInWindow syncedTime sampleRate
        (Processor.mkLoop started 0.0 0.0 []) input /\
      Processor.processBlock decibelsToGain host input p = Some l /\
      blockReady sampleRate (Processor.proc l).
Proof.
  intros sampleRate host input p _ Hsr201 Hhost Hlay Hreach Hready started.
  assert (Hsr : 200 <= sampleRate) by lra.
  destruct (beginBlock_loopReady sampleRate host p Hsr Hlay Hreach Hready)
    as (syncedTime & Hsynced & Hloop).
  fold started in Hsynced, Hloop.
  destruct (sampleLoop_ready sampleRate syncedTime input Hsr _ Hloop)
    as (Hwin & l & Hrun & Hready').
  exists syncedTime, l.
  split; [exact Hsynced |]. split; [exact Hwin |].
  split.
  { unfold Processor.processBlock. fold started.
    rewrite Hsynced, Hhost. exact Hrun. }
  destruct Hready' as (HL & HR & HlenL & HlenR & Hc & Hcur & _).
  unfold blockReady. auto 10.
Qed.

End InsideTheWindow.

(** ** Delays below the window of [read] *)

Lemma truncate_below_one (x : R) : 0 <= x < 1 -> Cmath.truncate x = 0%Z.
Proof.
  intros Hx. unfold Cmath.truncate.
  destruct (Rle_dec 0 x); [| lra].
  apply Zfloor_eq. simpl. lra.
Qed.

(** With an integer delay of zero, index A is the slot after the cursor:
    with the cursor on the last slot it is one past the end of the array. *)
Lemma read_zero_delay_overrun (d : DelayLine.t) (x : R) :
  allocated d -> Cmath.truncate x = 0%Z ->
  DelayLine.writeIndex d = (DelayLine.bufferLength d - 1)%Z ->
  DelayLine.read d x = None.
Proof.
  intros Hal Hx Hw. unfold allocated in Hal.
  unfold DelayLine.read. rewrite readIndices_wrapOne, Hx, Hw.
  replace (DelayLine.bufferLength d - 1 - 0 + 1)%Z
    with (DelayLine.bufferLength d) by lia.
  assert (HA : Cmath.load (DelayLine.buffer d)
                 (wrapOne (DelayLine.bufferLength d)
                    (DelayLine.bufferLength d)) = None).
  { unfold wrapOne, Cmath.load.
    destruct (Z.ltb_spec (DelayLine.bufferLength d) 0); [lia |].
    destruct (Z.ltb_spec (DelayLine.bufferLength d) 0); [lia |].
    apply nth_error_None. lia. }
  now rewrite HA.
Qed.

Lemma cursor_after_write (x : R) (d : DelayLine.t) :
  cursorInside d ->
  DelayLine.writeIndex (DelayLine.write x d)
  = ((DelayLine.writeIndex d + 1) mod DelayLine.bufferLength d)%Z.
Proof.
  intros Hcur. unfold cursorInside in Hcur. unfold DelayLine.write; simpl.
  rewrite <- (mod_succ_cursor (DelayLine.bufferLength d)
                (DelayLine.writeIndex d + 1)) by lia.
  replace (DelayLine.writeIndex d + 1 - 1)%Z
    with (DelayLine.writeIndex d) by lia.
  rewrite (Z.mod_small (DelayLine.writeIndex d)) by lia. reflexivity.
Qed.

Lemma writesToLastSlot_zero (x : R) (d : DelayLine.t) :
  cursorInside d -> writesToLastSlot d = 0%Z ->
  DelayLine.writeIndex (DelayLine.write x d)
  = (DelayLine.bufferLength d - 1)%Z.
Proof.
  intros Hcur Hz. rewrite cursor_after_write by exact Hcur.
  unfold writesToLastSlot in Hz. unfold cursorInside in Hcur.
  set (len := DelayLine.bufferLength d) in *.
  set (w := DelayLine.writeIndex d) in *.
  apply Z.mod_divide in Hz; [| lia]. destruct Hz as [c Hc].
  symmetry. apply Z.mod_unique with (q := (- c - 1)%Z); [lia | nia].
Qed.

Lemma writesToLastSlot_succ (x : R) (d : DelayLine.t) (m : Z) :
  cursorInside d -> (0 <= m)%Z -> writesToLastSlot d = (m + 1)%Z ->
  writesToLastSlot (DelayLine.write x d) = m.
Proof.
  intros Hcur Hm Hd. unfold writesToLastSlot in *.
  rewrite cursor_after_write by exact Hcur. rewrite bufferLength_write.
  unfold cursorInside in Hcur.
  set (len := DelayLine.bufferLength d) in *.
  set (w := DelayLine.writeIndex d) in *.
  assert (Hlen : (0 < len)%Z) by lia.
  pose proof (Z.mod_pos_bound (- 2 - w) len Hlen) as Hb.
  rewrite Zminus_mod_idemp_r.
  replace (- 2 - (w + 1))%Z with ((- 2 - w) - 1)%Z by lia.
  rewrite <- Zminus_mod_idemp_l, Hd.
  replace (m + 1 - 1)%Z with m by lia.
  apply Z.mod_small. lia.
Qed.

Section BelowTheWindow.

Context {S F : Type} {smoothedValue : Juce.LinearSmoothedValue S}
  {filter : Juce.StateVariableTPTFilter F}.

(** What an iteration that completes has done to the left delay line and
    to the parameters. *)
Lemma loopBody_completed (syncedTime sampleRate : R)
  (l l' : Processor.Loop S F) (dry : R * R) :
  Processor.loopBody syncedTime sampleRate l dry = Some l' ->
  let p := Processor.proc l in
  let q := Parameters.smoothen (Processor.params p) in
  Processor.params (Processor.proc l') = q /\
  exists v : R,
    Processor.delayLineL (Processor.proc l')
    = DelayLine.write v (Processor.delayLineL p) /\
    DelayLine.read (DelayLine.write v (Processor.delayLineL p))
      (Processor.delayInSamples syncedTime sampleRate q)
    <> None.
Proof.
  intros Hbody p q. unfold Processor.loopBody in Hbody.
  fold p in Hbody. fold q in Hbody.
  destruct (Processor.refreshCutoff (Parameters.lowCut q) _ _)
    as [lc1 lastLow].
  destruct (Processor.refreshCutoff (Parameters.highCut q) _ _)
    as [hc1 lastHigh].
  destruct dry as [dryL dryR].
  match type of Hbody with
  | context [DelayLine.read (DelayLine.write ?v (Processor.delayLineL p)) _]
    => set (inL := v) in *
  end.
  destruct (DelayLine.read (DelayLine.write inL (Processor.delayLineL p))
              (Processor.delayInSamples syncedTime sampleRate q))
    as [wetL |] eqn:EL; [| discriminate].
  simpl Processor.bind in Hbody.
  destruct (DelayLine.read _ _) as [wetR |] in Hbody; [| discriminate].
  simpl Processor.bind in Hbody.
  destruct (Processor.feedbackPath _ _ _ _ _) as [[fbL fbR] [lc' hc']].
  injection Hbody as <-. simpl. split; [reflexivity |].
  exists inL. split; [reflexivity |]. rewrite EL. discriminate.
Qed.

(** In tempo-sync mode with a delay of less than one sample the loop
    cannot run past the iteration whose write puts the cursor on the last
    slot: the read of that iteration is outside the array. *)
Lemma sampleLoop_overruns (syncedTime sampleRate : R) (m : nat) :
  forall (l : Processor.Loop S F) (input : list (R * R)),
    lineReady (Processor.delayLineL (Processor.proc l)) ->
    Parameters.tempoSync (Processor.params (Processor.proc l)) = true ->
    0 <= syncedTime / 1000.0 * sampleRate < 1 ->
    writesToLastSlot (Processor.delayLineL (Processor.proc l))
    = Z.of_nat m ->
    (m < length input)%nat ->
    Processor.sampleLoop syncedTime sampleRate l input = None.
Proof.
  induction m as [| m IH]; intros l input Hready Hsync Hdelay Hdist Hlen;
    (destruct input as [| dry rest]; [simpl in Hlen; lia |]);
    simpl Processor.sampleLoop;
    destruct (Processor.loopBody syncedTime sampleRate l dry)
      as [l' |] eqn:Hbody; try reflexivity;
    simpl Processor.bind;
    destruct (loopBody_completed _ _ _ _ _ Hbody) as (Hq & v & HL & Hread);
    destruct (smoothen_delayTime (Processor.params (Processor.proc l)))
      as (_ & _ & _ & Hts & _);
    assert (Hd : Processor.delayInSamples syncedTime sampleRate
                   (Parameters.smoothen
                      (Processor.params (Processor.proc l)))
                 = syncedTime / 1000.0 * sampleRate)
      by (unfold Processor.delayInSamples; now rewrite Hts, Hsync);
    rewrite Hd in Hread; destruct Hready as [Hal Hcur].
  - exfalso. apply Hread. apply read_zero_delay_overrun.
    + now apply allocated_write.
    + now apply truncate_below_one.
    + rewrite bufferLength_write. now apply writesToLastSlot_zero.
  - apply IH.
    + rewrite HL. apply lineReady_write. now split.
    + rewrite Hq, Hts. exact Hsync.
    + exact Hdelay.
    + rewrite HL. apply writesToLastSlot_succ; [exact Hcur | lia | lia].
    + simpl in Hlen. lia.
Qed.

End BelowTheWindow.

(** ** A run at 44.1 kHz with a host tempo of one million BPM *)

Section FastTempo.

#[local] Existing Instance Juce.steplessValue.

#[local] Existing Instance Juce.bypassFilter.

Lemma preparedAt44100_line :
  lineReady (Processor.delayLineL preparedAt44100) /\
  DelayLine.bufferLength (Processor.delayLineL preparedAt44100) = 220502%Z /\
  DelayLine.writeIndex (Processor.delayLineL preparedAt44100) = 220501%Z.
Proof.
  assert (Hceil : Cmath.ceil (Parameters.maxDelayTime / 1000.0 * 44100)
                  = 220500%Z).
  { unfold Cmath.ceil, Parameters.maxDelayTime. apply Zceil_eq. lra. }
  assert (Hlen : DelayLine.bufferLength
                   (Processor.delayLineL preparedAt44100) = 220502%Z).
  { unfold preparedAt44100, Processor.prepareToPlay.
    cbn [Processor.delayLineL]. rewrite Hceil, bufferLength_reset.
    rewrite bufferLength_setMaximumDelayInSamples. reflexivity. }
  destruct (prepared_lines Juce.decibelsToGain (fun _ => 0)
              Parameters.defaultStore 44100 512
              (Processor.constructed 0 tt tt (Measurement.mk 0)
                 (Measurement.mk 0)))
    as (HL & _ & _ & _ & Hw & _);
    [reflexivity | reflexivity | lra |].
  fold preparedAt44100 in HL, Hw.
  split; [exact HL |]. split; [exact Hlen |]. rewrite Hw, Hlen. reflexivity.
Qed.

(** C1 fails on the tempo-synced path.  The plug-in is prepared at
    44.1 kHz, so both delay lines have 220502 slots; tempo sync is on with
    note index 0 and every parameter is inside its declared range; the host
    reports 1000000 BPM.  Then the synced delay time is 0.0075 ms (nothing
    clamps it from below) and the delay handed to [read] is 0.33075
    samples, below the 1.0 that [read] asserts, on every iteration: already
    the first sample of the block passes a delay outside the window.  A
    block of 220502 samples does not complete: within it a read indexes
    the slot one past the end of the left array. *)
Theorem tempo_synced_delay_below_window :
  let started :=
    Processor.beginBlock Juce.decibelsToGain fastHost preparedAt44100 in
  let params' := Processor.params started in
  let tempo' := Processor.tempo started in
  Parameters.inLayout syncedStore /\
  DelayLine.bufferLength (Processor.delayLineL preparedAt44100)
  = 220502%Z /\
  Processor.syncedTime params' tempo' = Some 0.0075 /\
  (forall n : nat,
      Processor.delayInSamples 0.0075 (Processor.getSampleRate fastHost)
        (Nat.iter (Datatypes.S n) Parameters.smoothen params')
      = 0.33075) /\
  (forall v : R,
      ~ DelayLine.read_precondition
          (DelayLine.write v (Processor.delayLineL preparedAt44100))
          0.33075) /\
  ~ delaysInWindow 0.0075 (Processor.getSampleRate fastHost)
      (Processor.mkLoop started 0.0 0.0 []) [(0, 0)] /\
  Processor.processBlock Juce.decibelsToGain fastHost
    (repeat (0, 0) (Z.to_nat 220502)) preparedAt44100
  = None.
Proof.
  intros started params' tempo'.
  destruct preparedAt44100_line as (Hready & Hlen & Hw).
  assert (Hsynced : Processor.syncedTime params' tempo' = Some 0.0075).
  { unfold Processor.syncedTime, Tempo.getMillisecondsForNoteLength.
    simpl. destruct (Rgt_dec _ _) as [Hgt | _].
    - unfold Parameters.maxDelayTime in Hgt. exfalso. lra.
    - f_equal. lra. }
  assert (Hsync : forall n,
             Parameters.tempoSync (Nat.iter n Parameters.smoothen params')
             = true).
  { induction n as [| n IHn]; [reflexivity |]. simpl Nat.iter.
    destruct (smoothen_delayTime (Nat.iter n Parameters.smoothen params'))
      as (_ & _ & _ & Hts & _).
    now rewrite Hts. }
  assert (Hdelay : forall n : nat,
             Processor.delayInSamples 0.0075
               (Processor.getSampleRate fastHost)
               (Nat.iter (Datatypes.S n) Parameters.smoothen params')
             = 0.33075).
  { intros n. unfold Processor.delayInSamples. rewrite Hsync.
    simpl. lra. }
  split.
  { unfold Parameters.inLayout, syncedStore,
      Parameters.minDelayTime, Parameters.maxDelayTime; simpl.
    repeat split; try lra; lia. }
  split; [exact Hlen |]. split; [exact Hsynced |].
  split; [exact Hdelay |].
  split.
  { intros v [Hlo _]. lra. }
  split.
  { intros (Hpre & _).
    cbn [Processor.proc] in Hpre. fold params' in Hpre.
    change (Parameters.smoothen params')
      with (Nat.iter 1 Parameters.smoothen params') in Hpre.
    rewrite Hdelay in Hpre. destruct Hpre as [Hlo _]. lra. }
  unfold Processor.processBlock. fold started. fold params' tempo'.
  rewrite Hsynced. cbv beta iota delta [Processor.bind].
  apply sampleLoop_overruns with (m := Z.to_nat 220501).
  - exact Hready.
  - reflexivity.
  - simpl. lra.
  - unfold started, Processor.beginBlock.
    cbn [Processor.proc Processor.delayLineL]. unfold writesToLastSlot.
    rewrite Hlen, Hw. reflexivity.
  - rewrite repeat_length. lia.
Qed.

End FastTempo.

(** ** Concrete instances of the theorems *)

Section Instances.

#[local] Existing Instance Juce.steplessValue.

#[local] Existing Instance Juce.bypassFilter.

Lemma read_indices_within_buffer_witness :
  let d :=
    DelayLine.write 1
      (DelayLine.reset
         (DelayLine.setMaximumDelayInSamples (fun _ => 0) 4
            DelayLine.init)) in
  DelayLine.readIndices d (IZR 2) = (5, 4, 3, 2)%Z /\
  (0 <= 5 < DelayLine.bufferLength d)%Z /\
  (0 <= 2 < DelayLine.bufferLength d)%Z /\
  exists v : R, DelayLine.read d (IZR 2) = Some v.
Proof.
  intros d.
  assert (Hidx : DelayLine.readIndices d (IZR 2) = (5, 4, 3, 2)%Z).
  { unfold DelayLine.readIndices. rewrite truncate_IZR. reflexivity. }
  destruct (read_indices_within_buffer d (IZR 2) 5 4 3 2)
    as (_ & _ & _ & Ha & _ & _ & Hd & Hread).
  - unfold DelayLine.read_precondition.
    change (DelayLine.bufferLength d) with 6%Z. lra.
  - unfold cursorInside. simpl. lia.
  - exact Hidx.
  - split; [exact Hidx |]. split; [exact Ha |]. split; [exact Hd |].
    apply Hread. reflexivity.
Defined.

Lemma sweepStart_values :
  Parameters.delayTime sweepStart = 100 /\
  Parameters.targetDelayTime sweepStart = 200.
Proof.
  unfold sweepStart, Parameters.update, Parameters.reset.
  cbn [Parameters.delayTime Parameters.targetDelayTime
       Parameters.delayTimeParam Parameters.defaultStore].
  destruct (Req_dec_T 0.0 0.0) as [_ | Hne]; [| exfalso; apply Hne; lra].
  destruct (Req_dec_T 100.0 0.0) as [He | _]; [exfalso; lra |].
  split; lra.
Qed.

Lemma delay_time_smoothing_no_overshoot_witness :
  let p := Parameters.prepareToPlay 48000 sweepStart in
  let c := Parameters.coeff p in
  let target := Parameters.targetDelayTime p in
  let current i := Parameters.delayTime (Nat.iter i Parameters.smoothen p) in
  0 < c < 1 /\
  current 4%nat = current 3%nat + (target - current 3%nat) * c /\
  (current 0%nat <= target -> current 3%nat <= current 4%nat <= target) /\
  Rabs (target - current 4%nat) <= Rabs (target - current 3%nat).
Proof.
  intros p c target current.
  destruct (delay_time_smoothing_no_overshoot 48000 sweepStart 3)
    as (_ & Hc & _ & _ & _ & Hstep & Hup & _ & Habs); [lra |].
  fold p in Hc, Hstep, Hup, Habs.
  repeat split; try apply Hc; try apply Hup; auto.
Defined.

(** At an integer delay, [read] on a line that was configured, reset and
    written returns the sample written that many writes before the last. *)
Lemma read_back_written (g : nat -> R) (maxLen : Z) (d0 : DelayLine.t)
  (samples : list R) (N : Z) :
  allocated d0 -> (0 < maxLen)%Z ->
  let d :=
    writes samples
      (DelayLine.reset (DelayLine.setMaximumDelayInSamples g maxLen d0)) in
  (1 <= N <= DelayLine.bufferLength d - 2)%Z ->
  (N < Z.of_nat (length samples))%Z ->
  DelayLine.read d (IZR N)
  = Some (nth (Z.to_nat (Z.of_nat (length samples) - 1 - N)) samples 0).
Proof.
  intros Hal Hm d HN Hk.
  destruct (written_line g maxLen d0 samples Hal Hm)
    as (_ & Hall & Hcur & _ & Hload).
  fold d in Hall, Hcur, Hload.
  assert (Hpre : DelayLine.read_precondition d (IZR N)).
  { unfold DelayLine.read_precondition. rewrite <- minus_IZR.
    split; apply IZR_le; lia. }
  pose proof (read_fetch d (IZR N) Hpre Hcur Hall) as Hf. cbv zeta in Hf.
  destruct Hf as (sa & sb & sc & sd & _ & Hb & _ & _ & Hread).
  rewrite truncate_IZR in Hb, Hread.
  rewrite Hread, Rminus_diag, interpolate_zero. rewrite <- Hb.
  apply Hload; lia.
Qed.

Lemma cross_feedback_delay_writes_witness :
  let p := Processor.proc crossFedLoop in
  let q := Parameters.smoothen (Processor.params p) in
  let inL := (0.5 + 0.25) / 2 * Parameters.panL q + -0.125 in
  let inR := (0.5 + 0.25) / 2 * Parameters.panR q + 0.25 in
  Processor.feedbackL preparedAt44100 = 0 /\
  Processor.feedbackR preparedAt44100 = 0 /\
  Processor.feedbackL p = 0.25 /\
  Processor.feedbackR p = -0.125 /\
  Parameters.feedback q = 50.0 * 0.01 /\
  exists l' : Processor.Loop R unit,
    Processor.loopBody 2 1000 crossFedLoop (0.5, 0.25) = Some l' /\
    Processor.delayLineL (Processor.proc l')
    = DelayLine.write inL (Processor.delayLineL p) /\
    Processor.delayLineR (Processor.proc l')
    = DelayLine.write inR (Processor.delayLineR p) /\
    Cmath.load
      (DelayLine.buffer (Processor.delayLineL (Processor.proc l')))
      (DelayLine.writeIndex (Processor.delayLineL (Processor.proc l')))
    = Some inL /\
    Cmath.load
      (DelayLine.buffer (Processor.delayLineR (Processor.proc l')))
      (DelayLine.writeIndex (Processor.delayLineR (Processor.proc l')))
    = Some inR /\
    DelayLine.read (Processor.delayLineL (Processor.proc l')) (IZR 2)
    = Some 0.2 /\
    DelayLine.read (Processor.delayLineR (Processor.proc l')) (IZR 2)
    = Some 0.5 /\
    (Processor.feedbackL (Processor.proc l'),
     Processor.feedbackR (Processor.proc l'))
    = (0.2 * Parameters.feedback q, 0.5 * Parameters.feedback q).
Proof.
  intros p q inL inR.
  assert (Hdelay : Processor.delayInSamples 2 1000 q = IZR 2).
  { unfold Processor.delayInSamples, q.
    destruct (smoothen_delayTime (Processor.params p))
      as (_ & _ & _ & -> & _).
    simpl. lra. }
  assert (Hfeedback : Parameters.feedback q = 50.0 * 0.01) by reflexivity.
  assert (HL : lineReady (Processor.delayLineL p))
    by (split; [reflexivity | unfold cursorInside; simpl; lia]).
  assert (HR : lineReady (Processor.delayLineR p))
    by (split; [reflexivity | unfold cursorInside; simpl; lia]).
  destruct (cross_feedback_delay_writes Juce.decibelsToGain (fun _ => 0)
              Parameters.defaultStore 44100 512
              (Processor.constructed 0 tt tt (Measurement.mk 0)
                 (Measurement.mk 0))
              2 1000 crossFedLoop 0.5 0.25 HL HR)
    as (Hstart0 & Hstart1 & Hdone & _ & Hruns).
  fold p q in Hdone, Hruns. rewrite Hdelay in Hdone, Hruns.
  destruct Hruns as [l' Hbody].
  { unfold DelayLine.read_precondition.
    change (DelayLine.bufferLength (Processor.delayLineL p)) with 8%Z. lra. }
  { unfold DelayLine.read_precondition.
    change (DelayLine.bufferLength (Processor.delayLineR p)) with 8%Z. lra. }
  destruct (Hdone l' Hbody)
    as (HwL & HwR & HnL & HnR & wetL & wetR & HrL & HrR & Hfb).
  assert (HwL' : Processor.delayLineL (Processor.proc l')
                 = DelayLine.write inL (Processor.delayLineL p))
    by exact HwL.
  assert (HwR' : Processor.delayLineR (Processor.proc l')
                 = DelayLine.write inR (Processor.delayLineR p))
    by exact HwR.
  clear HwL HwR.
  assert (ErL : DelayLine.read (DelayLine.write inL (Processor.delayLineL p))
                  (IZR 2)
                = Some 0.2).
  { change (DelayLine.write inL (Processor.delayLineL p))
      with (writes [0.1; 0.2; 0.3; inL]
              (DelayLine.reset
                 (DelayLine.setMaximumDelayInSamples (fun _ => 0) 6
                    DelayLine.init))).
    rewrite (read_back_written (fun _ => 0) 6 DelayLine.init
               [0.1; 0.2; 0.3; inL] 2); [reflexivity | reflexivity | lia | |].
    - change (DelayLine.bufferLength _) with 8%Z. lia.
    - simpl. lia. }
  assert (ErR : DelayLine.read (DelayLine.write inR (Processor.delayLineR p))
                  (IZR 2)
                = Some 0.5).
  { change (DelayLine.write inR (Processor.delayLineR p))
      with (writes [0.4; 0.5; 0.6; inR]
              (DelayLine.reset
                 (DelayLine.setMaximumDelayInSamples (fun _ => 0) 6
                    DelayLine.init))).
    rewrite (read_back_written (fun _ => 0) 6 DelayLine.init
               [0.4; 0.5; 0.6; inR] 2); [reflexivity | reflexivity | lia | |].
    - change (DelayLine.bufferLength _) with 8%Z. lia.
    - simpl. lia. }
  rewrite HwL', ErL in HrL. rewrite HwR', ErR in HrR.
  injection HrL as <-. injection HrR as <-.
  split; [exact Hstart0 |]. split; [exact Hstart1 |].
  split; [reflexivity |]. split; [reflexivity |]. split; [exact Hfeedback |].
  exists l'. split; [exact Hbody |]. split; [exact HwL' |].
  split; [exact HwR' |]. split; [exact HnL |]. split; [exact HnR |].
  split; [rewrite HwL'; exact ErL |]. split; [rewrite HwR'; exact ErR |].
  rewrite Hfb. reflexivity.
Defined.

Lemma processBlock_delays_in_window_witness :
  exists (syncedTime : R) (l : Processor.Loop R unit),
    delaysInWindow syncedTime 44100
      (Processor.mkLoop
         (Processor.beginBlock Juce.decibelsToGain steadyHost
            preparedAt44100)
         0.0 0.0 [])
      [(0.5, 0.25); (0, 0)] /\
    Processor.processBlock Juce.decibelsToGain steadyHost
      [(0.5, 0.25); (0, 0)] preparedAt44100
    = Some l /\
    blockReady 44100 (Processor.proc l).
Proof.
  destruct (processBlock_delays_in_window Juce.decibelsToGain 44100
              steadyHost [(0.5, 0.25); (0, 0)] preparedAt44100)
    as (syncedTime & l & _ & Hwin & Hrun & Hready).
  - exists 44100%Z. split; [reflexivity | lia].
  - lra.
  - reflexivity.
  - unfold Parameters.inLayout, steadyHost, syncedStore,
      Parameters.minDelayTime, Parameters.maxDelayTime; simpl.
    repeat split; try lra; lia.
  - intros _. exists 0.125. split; [reflexivity |].
    unfold roundingMargin. simpl. lra.
  - apply prepareToPlay_blockReady; [reflexivity | reflexivity | lra].
  - exists syncedTime, l. auto.
Defined.

End Instances.

(** * Further properties *)

(** ** The delay line: configuration, layout and the window of [read] *)

(** X2.  [setMaximumDelayInSamples] never shrinks the line.  For a
    positive request whose padded length, the request plus two, still is
    an [int], the capacity afterwards is the larger of the old capacity and
    the padded length.  When the old capacity suffices nothing is touched;
    otherwise only the array is replaced, the cursor stays.  Asking again
    for no more than before changes nothing. *)
Theorem setMaximumDelayInSamples_grows_only :
  forall (g : nat -> R) (n : Z) (d : DelayLine.t),
    (0 < n)%Z ->
    (n + 2 <= Cmath.INT_MAX)%Z ->
    let d' := DelayLine.setMaximumDelayInSamples g n d in
    DelayLine.bufferLength d'
    = Z.max (DelayLine.bufferLength d) (n + 2) /\
    (DelayLine.bufferLength d <= DelayLine.bufferLength d')%Z /\
    (n + 2 <= DelayLine.bufferLength d')%Z /\
    ((n + 2 <= DelayLine.bufferLength d)%Z -> d' = d) /\
    DelayLine.writeIndex d' = DelayLine.writeIndex d /\
    (allocated d -> allocated d') /\
    (forall m : Z,
        (0 < m <= n)%Z -> DelayLine.setMaximumDelayInSamples g m d' = d').
Proof.
  intros g n d _ _ d'.
  assert (Hlen : DelayLine.bufferLength d'
                 = Z.max (DelayLine.bufferLength d) (n + 2))
    by apply bufferLength_setMaximumDelayInSamples.
  split; [exact Hlen |]. split; [lia |]. split; [lia |].
  split.
  { intros Hfit. unfold d', DelayLine.setMaximumDelayInSamples.
    destruct (Z.ltb_spec (DelayLine.bufferLength d) (n + 2));
      [lia | reflexivity]. }
  split.
  { unfold d', DelayLine.setMaximumDelayInSamples.
    destruct (Z.ltb_spec (DelayLine.bufferLength d) (n + 2)); reflexivity. }
  split; [apply allocated_setMaximumDelayInSamples |].
  intros m Hm. unfold DelayLine.setMaximumDelayInSamples at 1.
  destruct (Z.ltb_spec (DelayLine.bufferLength d') (m + 2));
    [lia | reflexivity].
Qed.

Lemma setMaximumDelayInSamples_grows_only_witness :
  let d := DelayLine.setMaximumDelayInSamples (fun _ => 9) 3 DelayLine.init
  in
  let d' := DelayLine.setMaximumDelayInSamples (fun _ => 7) 6 d in
  DelayLine.bufferLength d' = Z.max (DelayLine.bufferLength d) (6 + 2) /\
  (DelayLine.bufferLength d <= DelayLine.bufferLength d')%Z /\
  (6 + 2 <= DelayLine.bufferLength d')%Z /\
  ((6 + 2 <= DelayLine.bufferLength d)%Z -> d' = d) /\
  DelayLine.writeIndex d' = DelayLine.writeIndex d /\
  (allocated d -> allocated d') /\
  (forall m : Z,
      (0 < m <= 6)%Z -> DelayLine.setMaximumDelayInSamples (fun _ => 7) m d'
                        = d').
Proof.
  intros d.
  apply (setMaximumDelayInSamples_grows_only (fun _ => 7) 6 d);
    [lia | unfold Cmath.INT_MAX; lia].
Defined.

Lemma store_at_end (l zs : list R) (x y : R) :
  Cmath.store (length l) x (l ++ y :: zs) = l ++ x :: zs.
Proof. induction l as [| a l IH]; simpl; [reflexivity | now rewrite IH]. Qed.

Lemma layout_after_reset :
  forall (d : DelayLine.t) (samples : list R),
    allocated d ->
    (Z.of_nat (length samples) <= DelayLine.bufferLength d)%Z ->
    let d' := writes samples (DelayLine.reset d) in
    DelayLine.buffer d'
    = samples
      ++ repeat 0
           (Z.to_nat (DelayLine.bufferLength d) - length samples) /\
    DelayLine.bufferLength d' = DelayLine.bufferLength d /\
    DelayLine.writeIndex d'
    = (if (length samples =? 0)%nat
       then DelayLine.bufferLength d - 1
       else Z.of_nat (length samples) - 1)%Z.
Proof.
  intros d samples Hal. unfold allocated in Hal.
  induction samples as [| x l IH] using rev_ind; intros Hk d'.
  - unfold d'. simpl. rewrite Nat.sub_0_r. auto.
  - rewrite length_app in Hk. simpl length in Hk.
    destruct IH as (Hbuf & Hlen & Hcur); [lia |].
    unfold d'. rewrite writes_snoc.
    set (d1 := writes l (DelayLine.reset d)) in *.
    assert (Hw : (if (DelayLine.bufferLength d1
                      <=? DelayLine.writeIndex d1 + 1)%Z
                  then 0%Z else (DelayLine.writeIndex d1 + 1)%Z)
                 = Z.of_nat (length l)).
    { rewrite Hlen, Hcur. destruct (Nat.eqb_spec (length l) 0) as [E | E].
      - rewrite E.
        destruct (Z.leb_spec (DelayLine.bufferLength d)
                    (DelayLine.bufferLength d - 1 + 1)); [reflexivity | lia].
      - destruct (Z.leb_spec (DelayLine.bufferLength d)
                    (Z.of_nat (length l) - 1 + 1)); lia. }
    unfold DelayLine.write. cbn [DelayLine.buffer DelayLine.bufferLength
                                 DelayLine.writeIndex].
    rewrite Hw, Hlen, Hbuf.
    split; [| split; [reflexivity |]].
    + unfold Cmath.storeZ.
      destruct (Z.ltb_spec (Z.of_nat (length l)) 0); [lia |].
      rewrite Nat2Z.id.
      replace (Z.to_nat (DelayLine.bufferLength d) - length l)%nat
        with (Datatypes.S
                (Z.to_nat (DelayLine.bufferLength d) - length (l ++ [x])))
        by (rewrite length_app; simpl; lia).
      simpl repeat. rewrite store_at_end, <- app_assoc. reflexivity.
    + rewrite length_app. simpl length.
      destruct (Nat.eqb_spec (length l + 1) 0); lia.
Qed.

(** X3.  [reset] followed by [k] writes, [k] no more than the capacity,
    leaves the written samples in slots 0 .. k-1, in the order written,
    zeros in the slots behind them, and the cursor on the last written
    slot.  After exactly as many writes as the line has slots the array is
    the written samples and the cursor is back where [reset] put it. *)
Theorem reset_then_writes_layout :
  forall (d : DelayLine.t) (samples : list R),
    allocated d ->
    (Z.of_nat (length samples) <= DelayLine.bufferLength d)%Z ->
    let d' := writes samples (DelayLine.reset d) in
    DelayLine.buffer d'
    = samples
      ++ repeat 0
           (Z.to_nat (DelayLine.bufferLength d) - length samples) /\
    DelayLine.bufferLength d' = DelayLine.bufferLength d /\
    ((0 < length samples)%nat ->
     DelayLine.writeIndex d' = (Z.of_nat (length samples) - 1)%Z) /\
    (Z.of_nat (length samples) = DelayLine.bufferLength d ->
     DelayLine.buffer d' = samples /\
     DelayLine.writeIndex d' = DelayLine.writeIndex (DelayLine.reset d)).
Proof.
  intros d samples Hal Hk d'.
  destruct (layout_after_reset d samples Hal Hk) as (Hbuf & Hlen & Hcur).
  fold d' in Hbuf, Hlen, Hcur.
  split; [exact Hbuf |]. split; [exact Hlen |].
  split.
  - intros Hpos. rewrite Hcur.
    destruct (Nat.eqb_spec (length samples) 0); [lia | reflexivity].
  - intros Hfull. split.
    + rewrite Hbuf.
      replace (Z.to_nat (DelayLine.bufferLength d) - length samples)%nat
        with 0%nat by lia.
      apply app_nil_r.
    + rewrite Hcur, writeIndex_reset.
      destruct (Nat.eqb_spec (length samples) 0); lia.
Qed.

Lemma reset_then_writes_layout_witness :
  let d :=
    DelayLine.setMaximumDelayInSamples (fun _ => 9) 3 DelayLine.init in
  DelayLine.buffer (writes [7; 8] (DelayLine.reset d)) = [7; 8; 0; 0; 0] /\
  DelayLine.bufferLength (writes [7; 8] (DelayLine.reset d)) = 5%Z /\
  DelayLine.writeIndex (writes [7; 8] (DelayLine.reset d)) = 1%Z.
Proof.
  intros d.
  destruct (reset_then_writes_layout d [7; 8]) as (Hbuf & Hlen & Hcur & _).
  - reflexivity.
  - simpl. lia.
  - split; [exact Hbuf |]. split; [exact Hlen |]. apply Hcur. simpl. lia.
Defined.

(** [k] writes into any ready line move the cursor [k] slots on, modulo
    the capacity, and leave the slot the cursor started on untouched as
    long as [k] is less than the capacity. *)
Lemma writes_on_ready_line (d : DelayLine.t) (samples : list R) :
  lineReady d ->
  let d' := writes samples d in
  let len := DelayLine.bufferLength d in
  let k := Z.of_nat (length samples) in
  lineReady d' /\
  DelayLine.bufferLength d' = len /\
  DelayLine.writeIndex d' = ((DelayLine.writeIndex d + k) mod len)%Z /\
  ((k < len)%Z ->
   Cmath.load (DelayLine.buffer d') (DelayLine.writeIndex d)
   = Cmath.load (DelayLine.buffer d) (DelayLine.writeIndex d)).
Proof.
  intros Hready. cbv zeta.
  induction samples as [| x l IH] using rev_ind.
  - simpl. destruct Hready as [Hal Hcur]. unfold cursorInside in Hcur.
    split; [split; assumption |]. split; [reflexivity |].
    split; [| reflexivity].
    change (Z.of_nat 0) with 0%Z. rewrite Z.add_0_r, Z.mod_small; lia.
  - destruct IH as (Hr & Hlen & Hw & Hkeep).
    rewrite writes_snoc, length_app, Nat2Z.inj_add. simpl length.
    set (d1 := writes l d) in *.
    set (len := DelayLine.bufferLength d) in *.
    set (k := Z.of_nat (length l)) in *.
    set (w := DelayLine.writeIndex d) in *.
    destruct Hready as [Hal Hcur]. unfold cursorInside in Hcur.
    fold len w in Hcur.
    assert (Hlenpos : (0 < len)%Z) by lia.
    assert (Hcur' : DelayLine.writeIndex (DelayLine.write x d1)
                    = ((w + (k + Z.of_nat 1)) mod len)%Z).
    { rewrite cursor_after_write by apply Hr.
      rewrite Hlen, Hw, Zplus_mod_idemp_l. f_equal. lia. }
    split; [now apply lineReady_write |].
    split; [rewrite bufferLength_write; exact Hlen |].
    split; [exact Hcur' |].
    intros Hk.
    rewrite <- Hkeep by lia.
    assert (Hbuf : DelayLine.buffer (DelayLine.write x d1)
                   = Cmath.storeZ ((w + (k + Z.of_nat 1)) mod len) x
                       (DelayLine.buffer d1)).
    { rewrite <- Hcur'. reflexivity. }
    rewrite Hbuf. apply load_storeZ_other.
    + apply Z.mod_pos_bound. lia.
    + lia.
    + intros Heq.
      assert (Hz : (((w + (k + Z.of_nat 1)) - w) mod len = 0)%Z).
      { rewrite Zminus_mod, Heq, (Z.mod_small w len) by lia.
        rewrite Z.sub_diag. apply Z.mod_0_l. lia. }
      replace (w + (k + Z.of_nat 1) - w)%Z with (k + 1)%Z in Hz by lia.
      rewrite Z.mod_small in Hz; lia.
Qed.

(** The sample under the cursor comes back at the integer delay [N] after
    [N] further writes. *)
Lemma sample_under_cursor_delayed :
  forall (d : DelayLine.t) (later : list R),
    lineReady d ->
    let N := Z.of_nat (length later) in
    (1 <= N <= DelayLine.bufferLength d - 2)%Z ->
    exists v : R,
      Cmath.load (DelayLine.buffer d) (DelayLine.writeIndex d) = Some v /\
      DelayLine.read (writes later d) (IZR N) = Some v.
Proof.
  intros d later Hready N HN.
  destruct (writes_on_ready_line d later Hready)
    as ((Hal' & Hcur') & Hlen & Hw & Hkeep).
  fold N in Hw, Hkeep.
  assert (Hpre : DelayLine.read_precondition (writes later d) (IZR N)).
  { unfold DelayLine.read_precondition. rewrite Hlen, <- minus_IZR.
    split; apply IZR_le; lia. }
  pose proof (read_fetch (writes later d) (IZR N) Hpre Hcur' Hal') as Hf.
  cbv zeta in Hf.
  destruct Hf as (sa & sb & sc & sd & _ & Hb & _ & _ & Hread).
  rewrite truncate_IZR in Hb, Hread.
  rewrite Hread, Rminus_diag, interpolate_zero.
  exists sb. split; [| reflexivity].
  rewrite <- Hkeep by lia. rewrite <- Hb. f_equal.
  rewrite Hlen, Hw, Zminus_mod_idemp_l.
  replace (DelayLine.writeIndex d + N - N)%Z
    with (DelayLine.writeIndex d) by lia.
  destruct Hready as [_ Hcur]. unfold cursorInside in Hcur.
  symmetry. apply Z.mod_small. lia.
Qed.

(** X4.  The line is a delay.  On any ready line, whatever it holds, a
    sample that is written and followed by [N] further writes is what
    [read] returns at the integer delay [N], for 1 <= N <= capacity - 2. *)
Theorem sample_returns_after_N_writes :
  forall (d : DelayLine.t) (x : R) (later : list R),
    lineReady d ->
    let N := Z.of_nat (length later) in
    (1 <= N <= DelayLine.bufferLength d - 2)%Z ->
    DelayLine.read (writes later (DelayLine.write x d)) (IZR N) = Some x.
Proof.
  intros d x later Hready N HN.
  destruct (sample_under_cursor_delayed (DelayLine.write x d) later)
    as (v & Hv & Hread).
  - now apply lineReady_write.
  - rewrite bufferLength_write. exact HN.
  - rewrite newest_sample_write in Hv by assumption.
    fold N in Hread. congruence.
Qed.

Lemma sample_returns_after_N_writes_witness :
  let d :=
    writes [4; 5]
      (DelayLine.reset
         (DelayLine.setMaximumDelayInSamples (fun _ => 9) 3
            DelayLine.init)) in
  DelayLine.read (writes [6; 7; 8] (DelayLine.write 1 d)) (IZR 3) = Some 1.
Proof.
  intros d.
  apply (sample_returns_after_N_writes d 1 [6; 7; 8]).
  - split; [reflexivity | unfold cursorInside; simpl; lia].
  - simpl. lia.
Defined.

Lemma interpolate_silence (f : R) : DelayLine.interpolate 0 0 0 0 f = 0.
Proof. unfold DelayLine.interpolate. decimals. field. Qed.

Lemma nth_error_zeros_tail (l : list R) (n i : nat) :
  (length l <= i < length l + n)%nat ->
  nth_error (l ++ repeat 0 n) i = Some 0.
Proof.
  intros Hi. rewrite nth_error_app2 by lia.
  apply nth_error_repeat. lia.
Qed.

(** A slot that has not been written since [reset] holds zero. *)
Lemma unwritten_slot (g : nat -> R) (maxLen : Z) (d0 : DelayLine.t)
  (samples : list R) (j : Z) :
  allocated d0 -> (0 < maxLen)%Z ->
  let d :=
    writes samples
      (DelayLine.reset (DelayLine.setMaximumDelayInSamples g maxLen d0)) in
  (Z.of_nat (length samples) <= j < DelayLine.bufferLength d)%Z ->
  Cmath.load (DelayLine.buffer d)
    ((DelayLine.writeIndex d - j) mod DelayLine.bufferLength d)
  = Some 0.
Proof.
  intros Hal Hmax d Hj.
  destruct (written_line g maxLen d0 samples Hal Hmax)
    as (_ & Hall & _ & Hw & _).
  fold d in Hall, Hw.
  set (d1 := DelayLine.setMaximumDelayInSamples g maxLen d0) in *.
  destruct (configured_reset_line g maxLen d0 Hal Hmax) as (Hal1 & _ & _).
  fold d1 in Hal1.
  assert (Hlen1 : DelayLine.bufferLength d = DelayLine.bufferLength d1).
  { destruct (writes_on_ready_line (DelayLine.reset d1) samples)
      as (_ & Hl & _); [| exact Hl].
    split; [now apply allocated_reset |].
    apply cursorInside_reset. unfold d in Hj. fold d in Hj.
    destruct (configured_reset_line g maxLen d0 Hal Hmax) as (_ & Hp & _).
    exact Hp. }
  destruct (layout_after_reset d1 samples Hal1) as (Hbuf & _ & _);
    [lia |].
  fold d in Hbuf.
  set (len := DelayLine.bufferLength d) in *.
  set (k := Z.of_nat (length samples)) in *.
  rewrite Hw, Zminus_mod_idemp_l.
  assert (Hidx : ((k - 1 - j) mod len = k - 1 - j + len)%Z).
  { symmetry. apply Z.mod_unique with (q := (-1)%Z); lia. }
  rewrite Hidx. unfold Cmath.load.
  destruct (Z.ltb_spec (k - 1 - j + len) 0); [lia |].
  rewrite Hbuf. apply nth_error_zeros_tail. unfold k in *. lia.
Qed.

(** Reads that only meet unwritten slots return zero. *)
Lemma silence_before_fill :
  forall (g : nat -> R) (maxLen : Z) (d0 : DelayLine.t) (samples : list R)
         (x : R),
    allocated d0 -> (0 < maxLen)%Z ->
    let d :=
      writes samples
        (DelayLine.reset (DelayLine.setMaximumDelayInSamples g maxLen d0)) in
    let k := Z.of_nat (length samples) in
    let n := Cmath.truncate x in
    DelayLine.read_precondition d x ->
    (k <= n)%Z ->
    x = IZR n \/ (k < n /\ n + 2 < DelayLine.bufferLength d)%Z ->
    DelayLine.read d x = Some 0.
Proof.
  intros g maxLen d0 samples x Hal Hmax d k n Hpre Hk Hcase.
  destruct (written_line g maxLen d0 samples Hal Hmax)
    as (_ & Hall & Hcur & _ & _).
  fold d in Hall, Hcur.
  pose proof (truncate_window x _ Hpre) as Hn. fold n in Hn.
  pose proof (read_fetch d x Hpre Hcur Hall) as Hf. cbv zeta in Hf.
  fold n in Hf.
  destruct Hf as (sa & sb & sc & sd & Ha & Hb & Hc & Hd & Hread).
  rewrite Hread. f_equal.
  assert (Esb : sb = 0).
  { pose proof (unwritten_slot g maxLen d0 samples n Hal Hmax) as Hz.
    cbv zeta in Hz. fold d in Hz. rewrite Hz in Hb by (fold k; lia).
    now injection Hb. }
  destruct Hcase as [Hint | [Hgt Hroom]].
  - replace (x - IZR n) with 0 by lra.
    now rewrite interpolate_zero.
  - assert (Esa : sa = 0).
    { pose proof (unwritten_slot g maxLen d0 samples (n - 1) Hal Hmax)
        as Hz.
      cbv zeta in Hz. fold d in Hz.
      replace (DelayLine.writeIndex d - (n - 1))%Z
        with (DelayLine.writeIndex d - n + 1)%Z in Hz by lia.
      rewrite Hz in Ha by (fold k; lia). now injection Ha. }
    assert (Esc : sc = 0).
    { pose proof (unwritten_slot g maxLen d0 samples (n + 1) Hal Hmax)
        as Hz.
      cbv zeta in Hz. fold d in Hz.
      replace (DelayLine.writeIndex d - (n + 1))%Z
        with (DelayLine.writeIndex d - n - 1)%Z in Hz by lia.
      rewrite Hz in Hc by (fold k; lia). now injection Hc. }
    assert (Esd : sd = 0).
    { pose proof (unwritten_slot g maxLen d0 samples (n + 2) Hal Hmax)
        as Hz.
      cbv zeta in Hz. fold d in Hz.
      replace (DelayLine.writeIndex d - (n + 2))%Z
        with (DelayLine.writeIndex d - n - 2)%Z in Hz by lia.
      rewrite Hz in Hd by (fold k; lia). now injection Hd. }
    rewrite Esa, Esb, Esc, Esd. apply interpolate_silence.
Qed.

(** Beyond the samples written since [reset], every delay of the window
    reads zero. *)
Lemma silence_beyond_fill (g : nat -> R) (maxLen : Z) (d0 : DelayLine.t)
  (samples : list R) (x : R) :
  allocated d0 -> (0 < maxLen)%Z ->
  let d :=
    writes samples
      (DelayLine.reset (DelayLine.setMaximumDelayInSamples g maxLen d0)) in
  DelayLine.read_precondition d x ->
  (Z.of_nat (length samples) < Cmath.truncate x)%Z ->
  DelayLine.read d x = Some 0.
Proof.
  intros Hal Hm d Hpre Hk. subst d.
  apply (silence_before_fill g maxLen d0 samples x Hal Hm Hpre); [lia |].
  destruct (Req_dec_T x (IZR (Cmath.truncate x))) as [E | Hne];
    [now left | right].
  split; [exact Hk |].
  destruct Hpre as [Hlo Hhi].
  destruct (truncate_nonneg_bound x) as [Hfl _]; [lra |].
  apply lt_IZR. rewrite plus_IZR. lra.
Qed.

(** X5.  Until enough samples have been written the line is silent.
    After [setMaximumDelayInSamples], [reset] and [k] writes, [read]
    returns exactly 0 at every delay of the window whose integer part is
    above [k], fractional or not, and at the integer delay [k] itself: none
    of the slots it fetches has been written.  In particular a line that
    has just been reset reads 0 everywhere in the window. *)
Theorem read_before_fill_is_silence :
  forall (g : nat -> R) (maxLen : Z) (d0 : DelayLine.t) (samples : list R),
    allocated d0 -> (0 < maxLen)%Z ->
    let d :=
      writes samples
        (DelayLine.reset (DelayLine.setMaximumDelayInSamples g maxLen d0)) in
    let k := Z.of_nat (length samples) in
    (forall x : R,
        DelayLine.read_precondition d x ->
        (k < Cmath.truncate x)%Z ->
        DelayLine.read d x = Some 0) /\
    (DelayLine.read_precondition d (IZR k) ->
     DelayLine.read d (IZR k) = Some 0) /\
    (k = 0%Z ->
     forall x : R,
       DelayLine.read_precondition d x -> DelayLine.read d x = Some 0).
Proof.
  intros g maxLen d0 samples Hal Hm d k.
  split; [| split].
  - intros x Hpre Hk. now apply silence_beyond_fill.
  - intros Hpre.
    apply (silence_before_fill g maxLen d0 samples (IZR k) Hal Hm Hpre);
      rewrite truncate_IZR; [fold k; lia | now left].
  - intros Hk x Hpre. apply silence_beyond_fill; auto.
    fold k. rewrite Hk.
    pose proof (truncate_window x _ Hpre). lia.
Qed.

Lemma read_before_fill_is_silence_witness :
  let d :=
    writes [7; 8]
      (DelayLine.reset
         (DelayLine.setMaximumDelayInSamples (fun _ => 9) 6
            DelayLine.init)) in
  DelayLine.read d 3.5 = Some 0 /\ DelayLine.read d (IZR 2) = Some 0.
Proof.
  intros d.
  destruct (read_before_fill_is_silence (fun _ => 9) 6 DelayLine.init
              [7; 8])
    as (Habove & Hat & _); [reflexivity | lia |].
  assert (Hlen : DelayLine.bufferLength d = 8%Z) by reflexivity.
  split.
  - apply Habove.
    + unfold DelayLine.read_precondition. fold d. rewrite Hlen. lra.
    + replace (Cmath.truncate 3.5) with 3%Z; [simpl; lia |].
      symmetry. unfold Cmath.truncate.
      destruct (Rle_dec 0 3.5); [| lra]. apply Zfloor_eq. lra.
  - apply Hat.
    unfold DelayLine.read_precondition. fold d. rewrite Hlen.
    simpl. lra.
Defined.

Lemma load_defined_iff (l : list R) (i : Z) :
  Cmath.load l i <> None <-> (0 <= i < Z.of_nat (length l))%Z.
Proof.
  unfold Cmath.load. destruct (Z.ltb_spec i 0).
  - split; [intros H'; now contradiction H' | lia].
  - rewrite nth_error_Some. lia.
Qed.

Lemma wrapOne_inside_iff (len i : Z) :
  (0 < len)%Z -> (0 <= wrapOne len i < len <-> - len <= i < len)%Z.
Proof. intros Hlen. unfold wrapOne. destruct (Z.ltb_spec i 0); lia. Qed.

Lemma read_defined_iff_loads (d : DelayLine.t) (x : R) :
  DelayLine.read d x <> None <->
  (let '(ia, ib, ic, id) := DelayLine.readIndices d x in
   Cmath.load (DelayLine.buffer d) ia <> None /\
   Cmath.load (DelayLine.buffer d) ib <> None /\
   Cmath.load (DelayLine.buffer d) ic <> None /\
   Cmath.load (DelayLine.buffer d) id <> None).
Proof.
  unfold DelayLine.read.
  destruct (DelayLine.readIndices d x) as [[[ia ib] ic] id].
  destruct (Cmath.load (DelayLine.buffer d) ia),
    (Cmath.load (DelayLine.buffer d) ib),
    (Cmath.load (DelayLine.buffer d) ic),
    (Cmath.load (DelayLine.buffer d) id);
    split; intros H'; try congruence;
    try (repeat split; discriminate);
    destruct H' as (H1 & H2 & H3 & H4); congruence.
Qed.

(** X6.  The window asserted by [read] is tight.  On a ready line [read]
    stays inside the array exactly when the integer part [n] of the delay
    satisfies cursor + 2 - capacity <= n <= cursor + capacity - 2; the
    integer parts that are safe for every position of the cursor are
    exactly 1 .. capacity - 2. *)
Theorem read_defined_exactly_in_window :
  forall (d : DelayLine.t) (x : R),
    lineReady d ->
    let len := DelayLine.bufferLength d in
    let w := DelayLine.writeIndex d in
    let n := Cmath.truncate x in
    (DelayLine.read d x <> None
     <-> (w + 2 - len <= n <= w + len - 2)%Z) /\
    ((forall c : Z, (0 <= c < len)%Z -> (c + 2 - len <= n <= c + len - 2)%Z)
     <-> (1 <= n <= len - 2)%Z).
Proof.
  intros d x [Hal Hcur] len w n.
  unfold allocated in Hal. unfold cursorInside in Hcur.
  fold len in Hal. fold len w in Hcur.
  assert (Hlen : (0 < len)%Z) by lia.
  split.
  - rewrite read_defined_iff_loads, readIndices_wrapOne. fold len w n.
    rewrite !load_defined_iff, <- Hal.
    rewrite !wrapOne_inside_iff by (rewrite Hal; exact Hlen).
    rewrite Hal. lia.
  - split.
    + intros Hall.
      pose proof (Hall 0%Z ltac:(lia)).
      pose proof (Hall (len - 1)%Z ltac:(lia)).
      lia.
    + intros Hn c Hc. lia.
Qed.

Lemma read_defined_exactly_in_window_witness :
  let d :=
    DelayLine.reset
      (DelayLine.setMaximumDelayInSamples (fun _ => 9) 3 DelayLine.init) in
  DelayLine.read d (IZR 0) = None.
Proof.
  intros d.
  destruct (read_defined_exactly_in_window d (IZR 0)) as [[Hdef _] _].
  - split; [reflexivity | unfold cursorInside; simpl; lia].
  - destruct (DelayLine.read d (IZR 0)) as [v |] eqn:E; [| reflexivity].
    exfalso.
    assert (Hne : Some v <> None) by discriminate.
    apply Hdef in Hne. rewrite truncate_IZR in Hne. simpl in Hne. lia.
Defined.

(** X7.  The interpolation of [read] is the cubic Hermite (Catmull-Rom)
    segment from sample B (fraction 0) to sample C (fraction 1) with the
    centred-difference tangents (C - A) / 2 and (D - B) / 2; so the curves
    of neighbouring integer delays join at the samples. *)
Theorem interpolate_is_catmull_rom :
  forall sA sB sC sD sE f : R,
    let m0 := (sC - sA) / 2 in
    let m1 := (sD - sB) / 2 in
    DelayLine.interpolate sA sB sC sD f
    = (2 * f ^ 3 - 3 * f ^ 2 + 1) * sB + (f ^ 3 - 2 * f ^ 2 + f) * m0
      + (- 2 * f ^ 3 + 3 * f ^ 2) * sC + (f ^ 3 - f ^ 2) * m1 /\
    DelayLine.interpolate sA sB sC sD 0 = sB /\
    DelayLine.interpolate sA sB sC sD 1 = sC /\
    DelayLine.interpolate sA sB sC sD 1
    = DelayLine.interpolate sB sC sD sE 0.
Proof.
  intros sA sB sC sD sE f m0 m1. unfold m0, m1, DelayLine.interpolate.
  decimals. repeat split; field.
Qed.

(** ** The note table and the tempo *)

Lemma quarterNoteFractions_increasing (i j : nat) :
  (i < j < 16)%nat ->
  0 < nth i quarterNoteFractions 0 < nth j quarterNoteFractions 0.
Proof.
  intros Hij.
  do 16 (destruct i as [| i];
         [do 16 (destruct j as [| j]; [try lia; simpl; lra |]); lia |]).
  lia.
Qed.

(** X8.  The note lengths are in ascending order and the table has no
    entry outside 0 .. 15.  At a positive tempo a larger note index gives a
    strictly longer, positive time; at a fixed index a faster tempo gives a
    strictly shorter time; an index outside 0 .. 15 reads outside the
    table. *)
Theorem note_lengths_ascending :
  forall (i j : Z) (bpm faster : R),
    (0 <= i < j)%Z -> (j < 16)%Z -> 0 < bpm < faster ->
    (exists a b a' : R,
        Tempo.getMillisecondsForNoteLength i (Tempo.mk bpm) = Some a /\
        Tempo.getMillisecondsForNoteLength j (Tempo.mk bpm) = Some b /\
        Tempo.getMillisecondsForNoteLength i (Tempo.mk faster) = Some a' /\
        0 < a < b /\ 0 < a' < a) /\
    (forall (k : Z) (s : Tempo.t),
        (k < 0 \/ 16 <= k)%Z ->
        Tempo.getMillisecondsForNoteLength k s = None).
Proof.
  intros i j bpm faster Hi Hj Hbpm.
  split.
  - unfold Tempo.getMillisecondsForNoteLength.
    rewrite (noteLengthMultipliers_fractions i) by lia.
    rewrite (noteLengthMultipliers_fractions j) by lia.
    destruct (quarterNoteFractions_increasing (Z.to_nat i) (Z.to_nat j))
      as [Hpos Hlt]; [lia |].
    set (mi := nth (Z.to_nat i) quarterNoteFractions 0) in *.
    set (mj := nth (Z.to_nat j) quarterNoteFractions 0) in *.
    simpl Tempo.bpm. eexists _, _, _.
    split; [reflexivity |]. split; [reflexivity |]. split; [reflexivity |].
    assert (Hib : 0 < / bpm) by (apply Rinv_0_lt_compat; lra).
    assert (Hif : 0 < / faster) by (apply Rinv_0_lt_compat; lra).
    assert (Hinv : / faster < / bpm)
      by (apply Rinv_lt_contravar; nra).
    unfold Rdiv. repeat split; nra.
  - intros k s Hk. unfold Tempo.getMillisecondsForNoteLength, Cmath.load.
    destruct (Z.ltb_spec k 0); [reflexivity |].
    destruct (nth_error Tempo.noteLengthMultipliers (Z.to_nat k)) eqn:E;
      [| reflexivity].
    assert (Hlt : (Z.to_nat k < length Tempo.noteLengthMultipliers)%nat)
      by (apply nth_error_Some; congruence).
    simpl in Hlt. lia.
Qed.

Lemma note_lengths_ascending_witness :
  exists a b a' : R,
    Tempo.getMillisecondsForNoteLength 6 (Tempo.mk 120) = Some a /\
    Tempo.getMillisecondsForNoteLength 9 (Tempo.mk 120) = Some b /\
    Tempo.getMillisecondsForNoteLength 6 (Tempo.mk 140) = Some a' /\
    0 < a < b /\ 0 < a' < a.
Proof.
  apply (note_lengths_ascending 6 9 120 140); [lia | lia | lra].
Defined.

(** ** The peak tracker over a run of updates *)

Lemma updatesFrom_single_thread (fuel : nat)
  (calls : list (list bool * R)) :
  forall m : Measurement.t,
    (forall spurious v,
        In (spurious, v) calls -> (length spurious < fuel)%nat) ->
    updatesFrom fuel calls m
    = Some (Measurement.mk
              (fold_left Rmax (map snd calls) (Measurement.value m))).
Proof.
  induction calls as [| [spurious v] rest IH]; intros m Hfuel.
  - simpl. now rewrite measurement_eta.
  - simpl. rewrite updateIfGreater_single_thread
      by (apply (Hfuel spurious v); now left).
    rewrite IH by (intros s' v' Hin; apply (Hfuel s' v'); now right).
    reflexivity.
Qed.

Lemma fold_Rmax_bounds (vs : list R) :
  forall start : R,
    start <= fold_left Rmax vs start /\
    (forall v, In v vs -> v <= fold_left Rmax vs start) /\
    (fold_left Rmax vs start = start \/ In (fold_left Rmax vs start) vs).
Proof.
  induction vs as [| v vs IH]; intros start; simpl.
  - split; [lra |]. split; [intros v [] | now left].
  - destruct (IH (Rmax start v)) as (Hge & Hall & Hatt).
    pose proof (Rmax_l start v). pose proof (Rmax_r start v).
    split; [lra |]. split.
    + intros u [<- | Hu]; [lra | now apply Hall].
    + destruct Hatt as [Heq | Hin]; [| right; now right].
      rewrite Heq. unfold Rmax. destruct (Rle_dec start v); auto.
Qed.

(** X9.  No peak is lost between two drains.  From a reset tracker, after
    any run of [updateIfGreater] calls on one thread, [readAndReset]
    returns the largest value written, or 0 if none exceeded 0: the result
    is never negative, bounds every written value, is 0 or one of the
    written values, and the tracker is back at 0. *)
Theorem drain_returns_largest_peak :
  forall (fuel : nat) (calls : list (list bool * R)) (m : Measurement.t),
    (forall spurious v,
        In (spurious, v) calls -> (length spurious < fuel)%nat) ->
    exists m' : Measurement.t,
      updatesFrom fuel calls (Measurement.reset m) = Some m' /\
      let drained := fst (Measurement.readAndReset m') in
      drained = fold_left Rmax (map snd calls) 0 /\
      0 <= drained /\
      (forall v, In v (map snd calls) -> v <= drained) /\
      (drained = 0 \/ In drained (map snd calls)) /\
      Measurement.value (snd (Measurement.readAndReset m')) = 0.
Proof.
  intros fuel calls m Hfuel.
  eexists. split; [now apply updatesFrom_single_thread |].
  cbv zeta. simpl.
  replace 0.0 with 0 by lra.
  destruct (fold_Rmax_bounds (map snd calls) 0) as (Hge & Hall & Hatt).
  repeat split; auto; lra.
Qed.

Lemma drain_returns_largest_peak_witness :
  exists m' : Measurement.t,
    updatesFrom 2 [([true], 0.3); ([], -0.5); ([false], 0.7)]
      (Measurement.reset (Measurement.mk 5))
    = Some m' /\
    let drained := fst (Measurement.readAndReset m') in
    drained
    = fold_left Rmax (map snd [([true], 0.3); ([], -0.5); ([false], 0.7)]) 0
    /\
    0 <= drained /\
    (forall v,
        In v (map snd [([true], 0.3); ([], -0.5); ([false], 0.7)]) ->
        v <= drained) /\
    (drained = 0 \/
     In drained (map snd [([true], 0.3); ([], -0.5); ([false], 0.7)])) /\
    Measurement.value (snd (Measurement.readAndReset m')) = 0.
Proof.
  apply (drain_returns_largest_peak 2
           [([true], 0.3); ([], -0.5); ([false], 0.7)]
           (Measurement.mk 5)).
  intros spurious v [E | [E | [E | []]]]; injection E as <- _; simpl; lia.
Defined.

(** ** The panner across its range *)

(** X10.  Across [-1, 1] the left gain never rises and the right gain
    never falls by more than single-precision tolerance (the angle passes
    pi / 2 just before the end of the range); and the law is mirrored
    within four times that tolerance: the left gain at [x] is the right
    gain at [- x]. *)
Theorem panning_monotone_and_symmetric :
  forall x y : R,
    -1 <= x -> x <= y -> y <= 1 ->
    fst (DSP.panningEqualPower y) <= fst (DSP.panningEqualPower x) /\
    snd (DSP.panningEqualPower x)
    <= snd (DSP.panningEqualPower y) + FLT_EPSILON /\
    Rabs (fst (DSP.panningEqualPower x) - snd (DSP.panningEqualPower (- x)))
    <= 4 * FLT_EPSILON.
Proof.
  intros x y Hx Hxy Hy.
  pose proof panning_constant_close as Hc.
  pose proof panning_tolerance as Heps.
  pose proof PI4_enclosure as Hpi.
  split.
  { unfold DSP.panningEqualPower. simpl fst.
    apply cos_decr_1; nra. }
  destruct (panning_near_exact_angle x) as [Hlx Hrx]; [lra |].
  destruct (panning_near_exact_angle y) as [_ Hry]; [lra |].
  destruct (panning_near_exact_angle (- x)) as [_ Hrm]; [lra |].
  apply Rabs_le_inv in Hlx, Hrx, Hry, Hrm.
  split.
  { assert (Hsin : sin (PI / 4 * (x + 1)) <= sin (PI / 4 * (y + 1)))
      by (apply sin_incr_1; nra).
    lra. }
  replace (sin (PI / 4 * (- x + 1)))
    with (cos (PI / 4 * (x + 1))) in Hrm
    by (rewrite <- sin_shift; f_equal; lra).
  apply Rabs_le. lra.
Qed.

Lemma panning_monotone_and_symmetric_witness :
  fst (DSP.panningEqualPower 0.5) <= fst (DSP.panningEqualPower (-0.5)) /\
  snd (DSP.panningEqualPower (-0.5))
  <= snd (DSP.panningEqualPower 0.5) + FLT_EPSILON /\
  Rabs (fst (DSP.panningEqualPower (-0.5))
        - snd (DSP.panningEqualPower (- (-0.5))))
  <= 4 * FLT_EPSILON.
Proof.
  apply (panning_monotone_and_symmetric (-0.5) 0.5); lra.
Defined.

(** ** The smoothed parameters over time *)



Section Settling.

Context {S : Type} {smoothedValue : Juce.LinearSmoothedValue S}.

Variable decibelsToGain : R -> R.

(** A delay time that sits on its target stays there, and [smoothen]
    never touches the tempo-sync flag. *)
Lemma delay_time_rests_on_target (q : Parameters.t S) (n : nat) :
  Parameters.delayTime q = Parameters.targetDelayTime q ->
  Parameters.delayTime (Nat.iter n Parameters.smoothen q)
  = Parameters.delayTime q.
Proof.
  intros Hrest. induction n as [| n IH]; [reflexivity |]. simpl Nat.iter.
  destruct (smoothen_delayTime (Nat.iter n Parameters.smoothen q))
    as (Hstep & _).
  destruct (smoothen_iter_fixed q n) as (Htn & _).
  rewrite Hstep, Htn, IH, Hrest. ring.
Qed.

Lemma smoothen_iter_tempoSync (q : Parameters.t S) (n : nat) :
  Parameters.tempoSync (Nat.iter n Parameters.smoothen q)
  = Parameters.tempoSync q.
Proof.
  induction n as [| n IH]; [reflexivity |]. simpl Nat.iter.
  destruct (smoothen_delayTime (Nat.iter n Parameters.smoothen q))
    as (_ & _ & _ & Hsync & _).
  now rewrite Hsync.
Qed.

Lemma first_update_delayTime (store0 store : Parameters.Store)
  (p : Parameters.t S) :
  Parameters.delayTime
    (Parameters.update decibelsToGain store
       (Parameters.reset decibelsToGain store0 p))
  = Parameters.delayTimeParam store.
Proof.
  unfold Parameters.update, Parameters.reset. cbn [Parameters.delayTime].
  destruct (Req_dec_T 0.0 0.0) as [_ | Hne]; [reflexivity | lra].
Qed.

(** X12.  The first [update] after [reset] takes the delay time straight
    to the parameter value, with no sweep up from 0: the smoothed value
    equals the parameter at once and stays there under [smoothen].  A later
    [update] only moves the target, provided the parameter was not 0. *)
Theorem first_update_snaps_delay_time :
  forall (store0 store later : Parameters.Store) (p : Parameters.t S),
    let q :=
      Parameters.update decibelsToGain store
        (Parameters.reset decibelsToGain store0 p) in
    Parameters.delayTime q = Parameters.delayTimeParam store /\
    Parameters.targetDelayTime q = Parameters.delayTimeParam store /\
    (forall n : nat,
        Parameters.delayTime (Nat.iter n Parameters.smoothen q)
        = Parameters.delayTimeParam store) /\
    (Parameters.delayTimeParam store <> 0 ->
     forall n : nat,
       let q' :=
         Parameters.update decibelsToGain later
           (Nat.iter n Parameters.smoothen q) in
       Parameters.delayTime q' = Parameters.delayTimeParam store /\
       Parameters.targetDelayTime q' = Parameters.delayTimeParam later).
Proof.
  intros store0 store later p q.
  assert (Hd : Parameters.delayTime q = Parameters.delayTimeParam store)
    by apply first_update_delayTime.
  assert (Ht : Parameters.targetDelayTime q
               = Parameters.delayTimeParam store) by reflexivity.
  assert (Hstay : forall n : nat,
             Parameters.delayTime (Nat.iter n Parameters.smoothen q)
             = Parameters.delayTimeParam store).
  { intros n. rewrite delay_time_rests_on_target; [exact Hd |].
    now rewrite Hd, Ht. }
  split; [exact Hd |]. split; [exact Ht |]. split; [exact Hstay |].
  intros Hne n q'. split; [| reflexivity].
  unfold q', Parameters.update. cbn [Parameters.delayTime].
  rewrite Hstay.
  destruct (Req_dec_T (Parameters.delayTimeParam store) 0.0) as [E | _];
    [| reflexivity].
  exfalso. apply Hne. rewrite E. lra.
Qed.

End Settling.

(** ** What one block does *)

Lemma fmax_cases (a b : R) :
  a <= Cmath.fmax a b /\ b <= Cmath.fmax a b /\
  (Cmath.fmax a b = a \/ Cmath.fmax a b = b).
Proof. unfold Cmath.fmax. destruct (Rlt_dec a b); lra. Qed.

Section BlockFacts.

Context {S F : Type} {smoothedValue : Juce.LinearSmoothedValue S}
  {filter : Juce.StateVariableTPTFilter F}.

Variable decibelsToGain : R -> R.

Variable indeterminate : nat -> R.

(** Everything an iteration that completes has done. *)
Lemma loopBody_inversion (syncedTime sampleRate : R)
  (l l' : Processor.Loop S F) (dryL dryR : R) :
  Processor.loopBody syncedTime sampleRate l (dryL, dryR) = Some l' ->
  let p := Processor.proc l in
  let q := Parameters.smoothen (Processor.params p) in
  let delay := Processor.delayInSamples syncedTime sampleRate q in
  let mono := (dryL + dryR) * 0.5 in
  let inL := mono * Parameters.panL q + Processor.feedbackR p in
  let inR := mono * Parameters.panR q + Processor.feedbackL p in
  exists wetL wetR : R,
    DelayLine.read (DelayLine.write inL (Processor.delayLineL p)) delay
    = Some wetL /\
    DelayLine.read (DelayLine.write inR (Processor.delayLineR p)) delay
    = Some wetR /\
    Processor.params (Processor.proc l') = q /\
    Processor.delayLineL (Processor.proc l')
    = DelayLine.write inL (Processor.delayLineL p) /\
    Processor.delayLineR (Processor.proc l')
    = DelayLine.write inR (Processor.delayLineR p) /\
    Processor.levelL (Processor.proc l') = Processor.levelL p /\
    Processor.levelR (Processor.proc l') = Processor.levelR p /\
    Processor.tempo (Processor.proc l') = Processor.tempo p /\
    let outL := (dryL + wetL * Parameters.mix q) * Parameters.gain q in
    let outR := (dryR + wetR * Parameters.mix q) * Parameters.gain q in
    Processor.output l' = Processor.output l ++ [(outL, outR)] /\
    Processor.maxL l' = Cmath.fmax (Processor.maxL l) (Cmath.fabs outL) /\
    Processor.maxR l' = Cmath.fmax (Processor.maxR l) (Cmath.fabs outR).
Proof.
  intros Hbody p q delay mono inL inR. unfold Processor.loopBody in Hbody.
  fold p in Hbody. fold q in Hbody.
  destruct (Processor.refreshCutoff (Parameters.lowCut q) _ _)
    as [lc1 lastLow].
  destruct (Processor.refreshCutoff (Parameters.highCut q) _ _)
    as [hc1 lastHigh].
  fold mono in Hbody. fold inL inR in Hbody. fold delay in Hbody.
  destruct (DelayLine.read (DelayLine.write inL (Processor.delayLineL p))
              delay) as [wetL |] eqn:EL; [| discriminate].
  cbv beta iota delta [Processor.bind] in Hbody.
  destruct (DelayLine.read (DelayLine.write inR (Processor.delayLineR p))
              delay) as [wetR |] eqn:ER; [| discriminate].
  destruct (Processor.feedbackPath _ _ _ _ _) as [[fbL fbR] [lc' hc']].
  injection Hbody as <-. exists wetL, wetR.
  cbn [Processor.proc Processor.params Processor.delayLineL
       Processor.delayLineR Processor.levelL Processor.levelR
       Processor.tempo Processor.output Processor.maxL Processor.maxR].
  repeat split; reflexivity.
Qed.

Lemma loopBody_peaks (syncedTime sampleRate : R)
  (l l' : Processor.Loop S F) (dry : R * R) :
  Processor.loopBody syncedTime sampleRate l dry = Some l' ->
  peaksCover l ->
  peaksCover l' /\
  length (Processor.output l') = Datatypes.S (length (Processor.output l)) /\
  Processor.levelL (Processor.proc l') = Processor.levelL (Processor.proc l)
  /\
  Processor.levelR (Processor.proc l') = Processor.levelR (Processor.proc l).
Proof.
  destruct dry as [dryL dryR]. intros Hbody (Hall & HattL & HattR).
  destruct (loopBody_inversion _ _ _ _ _ _ Hbody)
    as (wetL & wetR & _ & _ & _ & _ & _ & HlevL & HlevR & _ & Hout).
  cbv zeta in Hout. destruct Hout as (Hout & HmaxL & HmaxR).
  set (outL := (dryL + wetL * _) * _) in *.
  set (outR := (dryR + wetR * _) * _) in *.
  unfold Cmath.fabs in HmaxL, HmaxR.
  destruct (fmax_cases (Processor.maxL l) (Rabs outL)) as (HL1 & HL2 & HL3).
  destruct (fmax_cases (Processor.maxR l) (Rabs outR)) as (HR1 & HR2 & HR3).
  rewrite <- HmaxL in HL1, HL2, HL3. rewrite <- HmaxR in HR1, HR2, HR3.
  split; [| split; [rewrite Hout, length_app; simpl; lia | auto]].
  unfold peaksCover. rewrite Hout. split; [| split].
  - apply Forall_app. split.
    + eapply Forall_impl; [| exact Hall]. intros o [Ho1 Ho2]. split; lra.
    + constructor; [simpl; split; lra | constructor].
  - destruct HL3 as [E | E].
    + destruct HattL as [H0 | (o & Hin & Ho)]; [left; lra |].
      right. exists o. split; [apply in_or_app; now left | lra].
    + right. exists (outL, outR).
      split; [apply in_or_app; right; now left | exact E].
  - destruct HR3 as [E | E].
    + destruct HattR as [H0 | (o & Hin & Ho)]; [left; lra |].
      right. exists o. split; [apply in_or_app; now left | lra].
    + right. exists (outL, outR).
      split; [apply in_or_app; right; now left | exact E].
Qed.

Lemma sampleLoop_peaks (syncedTime sampleRate : R) (input : list (R * R)) :
  forall l l' : Processor.Loop S F,
    Processor.sampleLoop syncedTime sampleRate l input = Some l' ->
    peaksCover l ->
    peaksCover l' /\
    length (Processor.output l')
    = (length (Processor.output l) + length input)%nat /\
    Processor.levelL (Processor.proc l')
    = Processor.levelL (Processor.proc l) /\
    Processor.levelR (Processor.proc l')
    = Processor.levelR (Processor.proc l).
Proof.
  induction input as [| dry rest IH]; intros l l' Hrun Hcover.
  - simpl in Hrun. injection Hrun as <-. simpl. rewrite Nat.add_0_r. auto.
  - simpl Processor.sampleLoop in Hrun.
    destruct (Processor.loopBody syncedTime sampleRate l dry)
      as [l1 |] eqn:Ebody; [| discriminate].
    cbv beta iota delta [Processor.bind] in Hrun.
    destruct (loopBody_peaks _ _ _ _ _ Ebody Hcover)
      as (Hcover1 & Hlen1 & HL1 & HR1).
    destruct (IH l1 l' Hrun Hcover1) as (Hcover' & Hlen' & HL' & HR').
    split; [exact Hcover' |].
    split; [rewrite Hlen', Hlen1; simpl; lia |].
    split; congruence.
Qed.

Lemma processBlock_peaks (host : Processor.Host) (input : list (R * R))
  (p : Processor.t S F) (l : Processor.Loop S F) :
  Processor.processBlock decibelsToGain host input p = Some l ->
  peaksCover l /\
  length (Processor.output l) = length input /\
  Processor.levelL (Processor.proc l) = Processor.levelL p /\
  Processor.levelR (Processor.proc l) = Processor.levelR p.
Proof.
  unfold Processor.processBlock. intros Hrun.
  destruct (Processor.syncedTime _ _) as [st |]; [| discriminate].
  cbv beta iota delta [Processor.bind] in Hrun.
  apply sampleLoop_peaks in Hrun.
  - exact Hrun.
  - unfold peaksCover. cbn [Processor.output Processor.maxL Processor.maxR].
    split; [constructor |]. split; left; lra.
Qed.

(** X13.  One output pair per input pair, and exact peaks.  When the
    sample loop of [processBlock] completes, it has stored exactly as many
    output pairs as the block has input pairs; [maxL] and [maxR] are not
    negative, bound the magnitude of every stored sample of their channel,
    and each is 0 or the magnitude of a stored sample; the level meters
    are untouched by the loop. *)
Theorem processBlock_output_and_peaks :
  forall (host : Processor.Host) (input : list (R * R))
         (p : Processor.t S F) (l : Processor.Loop S F),
    Processor.processBlock decibelsToGain host input p = Some l ->
    length (Processor.output l) = length input /\
    0 <= Processor.maxL l /\ 0 <= Processor.maxR l /\
    (forall outL outR : R,
        In (outL, outR) (Processor.output l) ->
        Rabs outL <= Processor.maxL l /\ Rabs outR <= Processor.maxR l) /\
    (Processor.maxL l = 0 \/
     exists o, In o (Processor.output l) /\ Processor.maxL l = Rabs (fst o))
    /\
    (Processor.maxR l = 0 \/
     exists o, In o (Processor.output l) /\ Processor.maxR l = Rabs (snd o))
    /\
    Processor.levelL (Processor.proc l) = Processor.levelL p /\
    Processor.levelR (Processor.proc l) = Processor.levelR p.
Proof.
  intros host input p l Hrun.
  destruct (processBlock_peaks host input p l Hrun)
    as ((Hall & HattL & HattR) & Hlen & HL & HR).
  split; [exact Hlen |].
  split.
  { destruct HattL as [E | (o & _ & E)]; rewrite E;
      [lra | apply Rabs_pos]. }
  split.
  { destruct HattR as [E | (o & _ & E)]; rewrite E;
      [lra | apply Rabs_pos]. }
  split.
  { intros outL outR Hin. rewrite Forall_forall in Hall.
    exact (Hall (outL, outR) Hin). }
  auto.
Qed.

(** X14.  The meters never miss an output peak.  After a completed sample
    loop, the two [updateIfGreater] calls that end [processBlock] succeed
    on one thread whatever exchanges fail spuriously, leave each level at
    the larger of its previous value and the block's peak, and so at a
    value that bounds every output sample of the block; nothing else of
    the processor changes: parameters, delay lines, feedback samples,
    filters, cached cut-offs and tempo are the ones the loop left. *)
Theorem published_levels_cover_block :
  forall (host : Processor.Host) (input : list (R * R))
         (p : Processor.t S F) (l : Processor.Loop S F)
         (fuel : nat) (spuriousL spuriousR : list bool),
    Processor.processBlock decibelsToGain host input p = Some l ->
    (length spuriousL < fuel)%nat -> (length spuriousR < fuel)%nat ->
    exists p' : Processor.t S F,
      Processor.publishPeaks fuel spuriousL spuriousR l = Some p' /\
      Measurement.value (Processor.levelL p')
      = Rmax (Measurement.value (Processor.levelL p)) (Processor.maxL l) /\
      Measurement.value (Processor.levelR p')
      = Rmax (Measurement.value (Processor.levelR p)) (Processor.maxR l) /\
      (forall outL outR : R,
          In (outL, outR) (Processor.output l) ->
          Rabs outL <= Measurement.value (Processor.levelL p') /\
          Rabs outR <= Measurement.value (Processor.levelR p')) /\
      Processor.params p' = Processor.params (Processor.proc l) /\
      Processor.delayLineL p' = Processor.delayLineL (Processor.proc l) /\
      Processor.delayLineR p' = Processor.delayLineR (Processor.proc l) /\
      Processor.feedbackL p' = Processor.feedbackL (Processor.proc l) /\
      Processor.feedbackR p' = Processor.feedbackR (Processor.proc l) /\
      Processor.lowCutFilter p' = Processor.lowCutFilter (Processor.proc l) /\
      Processor.highCutFilter p'
      = Processor.highCutFilter (Processor.proc l) /\
      Processor.lastLowCut p' = Processor.lastLowCut (Processor.proc l) /\
      Processor.lastHighCut p' = Processor.lastHighCut (Processor.proc l) /\
      Processor.tempo p' = Processor.tempo (Processor.proc l).
Proof.
  intros host input p l fuel spuriousL spuriousR Hrun HfL HfR.
  destruct (processBlock_peaks host input p l Hrun)
    as ((Hall & _ & _) & _ & HL & HR).
  unfold Processor.publishPeaks.
  rewrite !updateIfGreater_single_thread by assumption.
  cbv beta iota delta [Processor.bind].
  eexists. split; [reflexivity |].
  cbn [Processor.levelL Processor.levelR Processor.params
       Processor.delayLineL Processor.delayLineR Processor.feedbackL
       Processor.feedbackR Processor.lowCutFilter Processor.highCutFilter
       Processor.lastLowCut Processor.lastHighCut Processor.tempo
       Measurement.value].
  rewrite HL, HR.
  split; [reflexivity |]. split; [reflexivity |].
  split; [| repeat split; reflexivity].
  intros outL outR Hin. rewrite Forall_forall in Hall.
  destruct (Hall (outL, outR) Hin) as [H1 H2]. simpl in H1, H2.
  pose proof (Rmax_r (Measurement.value (Processor.levelL p))
                (Processor.maxL l)).
  pose proof (Rmax_r (Measurement.value (Processor.levelR p))
                (Processor.maxR l)).
  split; lra.
Qed.

End BlockFacts.

(** ** Preparing again *)

Lemma ceil_monotone (x y : R) : x <= y -> (Cmath.ceil x <= Cmath.ceil y)%Z.
Proof.
  intros Hxy. unfold Cmath.ceil.
  pose proof (Zceil_bound x) as [Hx _]. pose proof (Zceil_bound y) as [_ Hy].
  assert (H : (Zceil x < Zceil y + 1)%Z)
    by (apply lt_IZR; rewrite plus_IZR; lra).
  lia.
Qed.

Section PreparingAgain.

Context {S F : Type} {smoothedValue : Juce.LinearSmoothedValue S}
  {filter : Juce.StateVariableTPTFilter F}.

Variable decibelsToGain : R -> R.

Variable indeterminate : nat -> R.

(** X15.  [prepareToPlay] can be called again.  Whatever the processor
    went through before, a call at a sample rate that is a whole number of
    Hz with 5 * rate + 2 below 2^24 (so that the sample count is an [int])
    leaves both delay lines silent (every slot 0) and ready for a block,
    the feedback samples at 0, the cached cutoffs at -1, the tempo at 120
    and both meters at 0; the capacity of a line afterwards is the larger
    of its previous capacity and ceil (5 * sampleRate) + 2, so a second
    call at a rate that is not higher keeps the arrays of the first. *)
Theorem prepareToPlay_again :
  forall (store store' : Parameters.Store) (sampleRate sampleRate' : R)
         (samplesPerBlock samplesPerBlock' : Z) (p0 : Processor.t S F),
    allocated (Processor.delayLineL p0) ->
    allocated (Processor.delayLineR p0) ->
    wholeRate sampleRate ->
    wholeRate sampleRate' ->
    sampleRate' <= sampleRate ->
    let p :=
      Processor.prepareToPlay decibelsToGain indeterminate store sampleRate
        samplesPerBlock p0 in
    let p' :=
      Processor.prepareToPlay decibelsToGain indeterminate store'
        sampleRate' samplesPerBlock' p in
    let capacity := (Cmath.ceil (5 * sampleRate) + 2)%Z in
    (DelayLine.bufferLength (Processor.delayLineL p)
     = Z.max (DelayLine.bufferLength (Processor.delayLineL p0)) capacity /\
     DelayLine.bufferLength (Processor.delayLineR p)
     = Z.max (DelayLine.bufferLength (Processor.delayLineR p0)) capacity) /\
    (DelayLine.bufferLength (Processor.delayLineL p')
     = DelayLine.bufferLength (Processor.delayLineL p) /\
     DelayLine.bufferLength (Processor.delayLineR p')
     = DelayLine.bufferLength (Processor.delayLineR p)) /\
    blockReady sampleRate p /\ blockReady sampleRate' p' /\
    (DelayLine.buffer (Processor.delayLineL p')
     = repeat 0
         (Z.to_nat (DelayLine.bufferLength (Processor.delayLineL p'))) /\
     DelayLine.buffer (Processor.delayLineR p')
     = repeat 0
         (Z.to_nat (DelayLine.bufferLength (Processor.delayLineR p')))) /\
    Processor.feedbackL p' = 0 /\ Processor.feedbackR p' = 0 /\
    Processor.lastLowCut p' = -1 /\ Processor.lastHighCut p' = -1 /\
    Tempo.getTempo (Processor.tempo p') = 120 /\
    Measurement.value (Processor.levelL p') = 0 /\
    Measurement.value (Processor.levelR p') = 0.
Proof.
  intros store store' sampleRate sampleRate' samplesPerBlock
         samplesPerBlock' p0 HL HR _ Hwhole Hle p p' capacity.
  assert (Hsr : 0 < sampleRate' <= sampleRate).
  { destruct Hwhole as (rate & -> & Hrate & _).
    split; [apply IZR_lt; lia | exact Hle]. }
  assert (Hceil : Cmath.ceil (Parameters.maxDelayTime / 1000.0 * sampleRate)
                  = Cmath.ceil (5 * sampleRate)).
  { f_equal. unfold Parameters.maxDelayTime. lra. }
  assert (Hceil' :
            (Cmath.ceil (Parameters.maxDelayTime / 1000.0 * sampleRate')
             <= Cmath.ceil (5 * sampleRate))%Z).
  { apply ceil_monotone. unfold Parameters.maxDelayTime. lra. }
  assert (HcapL : DelayLine.bufferLength (Processor.delayLineL p)
                  = Z.max (DelayLine.bufferLength (Processor.delayLineL p0))
                      capacity).
  { unfold p, Processor.prepareToPlay. cbn [Processor.delayLineL].
    now rewrite bufferLength_reset, bufferLength_setMaximumDelayInSamples,
      Hceil. }
  assert (HcapR : DelayLine.bufferLength (Processor.delayLineR p)
                  = Z.max (DelayLine.bufferLength (Processor.delayLineR p0))
                      capacity).
  { unfold p, Processor.prepareToPlay. cbn [Processor.delayLineR].
    now rewrite bufferLength_reset, bufferLength_setMaximumDelayInSamples,
      Hceil. }
  assert (Hready : blockReady sampleRate p)
    by (apply prepareToPlay_blockReady; auto; lra).
  assert (Hready' : blockReady sampleRate' p').
  { destruct Hready as ((HalL & _) & (HalR & _) & _).
    apply prepareToPlay_blockReady; auto; lra. }
  split; [split; assumption |].
  split.
  { unfold p' at 1 2, Processor.prepareToPlay at 1 2.
    cbn [Processor.delayLineL Processor.delayLineR].
    rewrite !bufferLength_reset, !bufferLength_setMaximumDelayInSamples.
    fold capacity in Hceil'. split; lia. }
  split; [exact Hready |]. split; [exact Hready' |].
  split; [split; reflexivity |].
  unfold p', Processor.prepareToPlay, Tempo.getTempo, Tempo.reset,
    Measurement.reset.
  cbn [Processor.feedbackL Processor.feedbackR Processor.lastLowCut
       Processor.lastHighCut Processor.tempo Processor.levelL
       Processor.levelR Tempo.bpm Measurement.value].
  repeat split; lra.
Qed.

End PreparingAgain.

(** ** The echo *)

Section Echo.

Context {S F : Type} {smoothedValue : Juce.LinearSmoothedValue S}
  {filter : Juce.StateVariableTPTFilter F}.

Variable decibelsToGain : R -> R.

Variable indeterminate : nat -> R.

Lemma sampleLoop_app (syncedTime sampleRate : R) (a b : list (R * R)) :
  forall l : Processor.Loop S F,
    Processor.sampleLoop syncedTime sampleRate l (a ++ b)
    = match Processor.sampleLoop syncedTime sampleRate l a with
      | Some l' => Processor.sampleLoop syncedTime sampleRate l' b
      | None => None
      end.
Proof.
  induction a as [| dry a IH]; intros l; [reflexivity |].
  simpl. destruct (Processor.loopBody syncedTime sampleRate l dry);
    simpl; auto.
Qed.

(** A completed run of the loop has written one sample per input pair to
    each line and called [smoothen] once per input pair. *)
Lemma sampleLoop_lines (syncedTime sampleRate : R) (input : list (R * R)) :
  forall l l' : Processor.Loop S F,
    Processor.sampleLoop syncedTime sampleRate l input = Some l' ->
    Processor.params (Processor.proc l')
    = Nat.iter (length input) Parameters.smoothen
        (Processor.params (Processor.proc l)) /\
    exists wsL wsR : list R,
      length wsL = length input /\ length wsR = length input /\
      Processor.delayLineL (Processor.proc l')
      = writes wsL (Processor.delayLineL (Processor.proc l)) /\
      Processor.delayLineR (Processor.proc l')
      = writes wsR (Processor.delayLineR (Processor.proc l)).
Proof.
  induction input as [| [dryL dryR] rest IH]; intros l l' Hrun.
  - simpl in Hrun. injection Hrun as <-. split; [reflexivity |].
    exists [], []. auto.
  - simpl Processor.sampleLoop in Hrun.
    destruct (Processor.loopBody syncedTime sampleRate l (dryL, dryR))
      as [l1 |] eqn:Ebody; [| discriminate].
    cbv beta iota delta [Processor.bind] in Hrun.
    destruct (loopBody_inversion _ _ _ _ _ _ Ebody)
      as (wetL & wetR & _ & _ & Hq & HwL & HwR & _).
    destruct (IH l1 l' Hrun) as (Hq' & wsL & wsR & HlL & HlR & HL & HR).
    split.
    { rewrite Hq', Hq. simpl length. now rewrite Nat.iter_succ_r. }
    eexists (_ :: wsL), (_ :: wsR).
    split; [simpl; now rewrite HlL |]. split; [simpl; now rewrite HlR |].
    rewrite HL, HR, HwL, HwR. split; reflexivity.
Qed.

(** X16.  The plug-in is a delay.  While the loop runs with an integer
    delay of [N] samples, the wet part of the output at an iteration is
    what the loop wrote to the delay lines [N] iterations before: the
    mono sum of that input pair, panned, plus the cross-fed feedback of
    that moment.  The output pair is (dry + wet * mix) * gain with the mix
    and gain of the later iteration. *)
Theorem echo_after_N_samples :
  forall (syncedTime sampleRate : R) (l0 l1 l2 : Processor.Loop S F)
         (dry0 : R * R) (later : list (R * R)) (N : Z),
    lineReady (Processor.delayLineL (Processor.proc l0)) ->
    lineReady (Processor.delayLineR (Processor.proc l0)) ->
    Processor.loopBody syncedTime sampleRate l0 dry0 = Some l1 ->
    Processor.sampleLoop syncedTime sampleRate l1 later = Some l2 ->
    Z.of_nat (length later) = N ->
    (1 <= N <= DelayLine.bufferLength
                 (Processor.delayLineL (Processor.proc l0)) - 2)%Z ->
    (N <= DelayLine.bufferLength
            (Processor.delayLineR (Processor.proc l0)) - 2)%Z ->
    Processor.delayInSamples syncedTime sampleRate
      (Processor.params (Processor.proc l2))
    = IZR N ->
    let q0 := Processor.params (Processor.proc l1) in
    let mono0 := (fst dry0 + snd dry0) * 0.5 in
    let inL0 :=
      mono0 * Parameters.panL q0 + Processor.feedbackR (Processor.proc l0) in
    let inR0 :=
      mono0 * Parameters.panR q0 + Processor.feedbackL (Processor.proc l0) in
    let q := Processor.params (Processor.proc l2) in
    let dryN := last later (0, 0) in
    last (Processor.output l2) (0, 0)
    = ((fst dryN + inL0 * Parameters.mix q) * Parameters.gain q,
       (snd dryN + inR0 * Parameters.mix q) * Parameters.gain q).
Proof.
  intros syncedTime sampleRate l0 l1 l2 [dryL0 dryR0] later N HL HR
         Hfirst Hrun Hlen HNL HNR Hdelay q0 mono0 inL0 inR0 q dryN.
  destruct (loopBody_inversion _ _ _ _ _ _ Hfirst)
    as (_ & _ & _ & _ & Hq0 & HL1 & HR1 & _).
  fold q0 in Hq0. rewrite <- Hq0 in HL1, HR1.
  simpl fst in mono0. simpl snd in mono0.
  fold mono0 in HL1, HR1. fold inL0 in HL1. fold inR0 in HR1.
  destruct later as [| x later0] using rev_ind;
    [simpl in Hlen; lia |]. clear IHlater0.
  destruct x as [dryL dryR].
  unfold dryN. rewrite last_last. simpl fst. simpl snd.
  rewrite sampleLoop_app in Hrun.
  destruct (Processor.sampleLoop syncedTime sampleRate l1 later0)
    as [lm |] eqn:Emid; [| discriminate].
  simpl Processor.sampleLoop in Hrun.
  destruct (Processor.loopBody syncedTime sampleRate lm (dryL, dryR))
    as [l2' |] eqn:Elast; [| discriminate].
  cbv beta iota delta [Processor.bind] in Hrun. injection Hrun as ->.
  destruct (sampleLoop_lines _ _ _ _ _ Emid)
    as (_ & wsL & wsR & HlL & HlR & HLm & HRm).
  destruct (loopBody_inversion _ _ _ _ _ _ Elast)
    as (wetL & wetR & HreadL & HreadR & Hq & _ & _ & _ & _ & _ & Hout).
  cbv zeta in Hout. destruct Hout as (Hout & _).
  rewrite <- Hq in HreadL, HreadR, Hout.
  rewrite Hdelay in HreadL, HreadR.
  rewrite Hout, last_last.
  rewrite length_app, Nat2Z.inj_add in Hlen. simpl length in Hlen.
  assert (EwetL : wetL = inL0).
  { rewrite HLm, <- writes_snoc in HreadL.
    destruct (sample_under_cursor_delayed
                (Processor.delayLineL (Processor.proc l1))
                (wsL ++ [(dryL + dryR) * 0.5
                         * Parameters.panL
                             (Processor.params (Processor.proc l2))
                         + Processor.feedbackR (Processor.proc lm)]))
      as (v & Hv & Hread).
    - rewrite HL1. now apply lineReady_write.
    - rewrite HL1, bufferLength_write, length_app, Nat2Z.inj_add, HlL.
      simpl length. lia.
    - rewrite length_app, Nat2Z.inj_add, HlL in Hread.
      simpl length in Hread. rewrite Hlen in Hread.
      rewrite HL1, newest_sample_write in Hv by assumption.
      congruence. }
  assert (EwetR : wetR = inR0).
  { rewrite HRm, <- writes_snoc in HreadR.
    destruct (sample_under_cursor_delayed
                (Processor.delayLineR (Processor.proc l1))
                (wsR ++ [(dryL + dryR) * 0.5
                         * Parameters.panR
                             (Processor.params (Processor.proc l2))
                         + Processor.feedbackL (Processor.proc lm)]))
      as (v & Hv & Hread).
    - rewrite HR1. now apply lineReady_write.
    - rewrite HR1, bufferLength_write, length_app, Nat2Z.inj_add, HlR.
      simpl length. lia.
    - rewrite length_app, Nat2Z.inj_add, HlR in Hread.
      simpl length in Hread. rewrite Hlen in Hread.
      rewrite HR1, newest_sample_write in Hv by assumption.
      congruence. }
  now rewrite EwetL, EwetR.
Qed.

(** While every read only meets slots that have not been written since
    [reset], the loop outputs the dry signal times the gain. *)
Lemma sampleLoop_dry (syncedTime sampleRate D : R)
  (gL gR : nat -> R) (mL mR : Z) (dL dR : DelayLine.t) :
  allocated dL -> allocated dR -> (0 < mL)%Z -> (0 < mR)%Z ->
  forall (input : list (R * R)) (l l' : Processor.Loop S F)
         (wsL wsR : list R),
    Processor.delayLineL (Processor.proc l)
    = writes wsL
        (DelayLine.reset (DelayLine.setMaximumDelayInSamples gL mL dL)) ->
    Processor.delayLineR (Processor.proc l)
    = writes wsR
        (DelayLine.reset (DelayLine.setMaximumDelayInSamples gR mR dR)) ->
    length wsR = length wsL ->
    DelayLine.read_precondition (Processor.delayLineL (Processor.proc l)) D ->
    DelayLine.read_precondition (Processor.delayLineR (Processor.proc l)) D ->
    (forall j : nat,
        (1 <= j <= length input)%nat ->
        Processor.delayInSamples syncedTime sampleRate
          (Nat.iter j Parameters.smoothen
             (Processor.params (Processor.proc l)))
        = D) ->
    (Z.of_nat (length wsL + length input) < Cmath.truncate D)%Z ->
    Processor.sampleLoop syncedTime sampleRate l input = Some l' ->
    Processor.output l'
    = Processor.output l
      ++ dryOutput (Processor.params (Processor.proc l)) input.
Proof.
  intros HalL HalR HmL HmR.
  assert (Hsilent : forall (g : nat -> R) (m : Z) (d0 : DelayLine.t)
                           (ws : list R) (wet : R),
             allocated d0 -> (0 < m)%Z ->
             let d :=
               writes ws
                 (DelayLine.reset
                    (DelayLine.setMaximumDelayInSamples g m d0)) in
             DelayLine.read_precondition d D ->
             (Z.of_nat (length ws) < Cmath.truncate D)%Z ->
             DelayLine.read d D = Some wet ->
             wet = 0).
  { intros g m d0 ws wet Hal Hm d Hpre Hk Hread. subst d.
    rewrite (silence_beyond_fill g m d0 ws D Hal Hm Hpre Hk) in Hread.
    now injection Hread. }
  induction input as [| [dryL dryR] rest IH];
    intros l l' wsL wsR HL HR Hws HpreL HpreR Hdelay Hshort Hrun.
  - simpl in Hrun. injection Hrun as <-. simpl. now rewrite app_nil_r.
  - simpl Processor.sampleLoop in Hrun.
    destruct (Processor.loopBody syncedTime sampleRate l (dryL, dryR))
      as [l1 |] eqn:Ebody; [| discriminate].
    cbv beta iota delta [Processor.bind] in Hrun.
    destruct (loopBody_inversion _ _ _ _ _ _ Ebody)
      as (wetL & wetR & HreadL & HreadR & Hq & HL1 & HR1 & _ & _ & _ & Hout).
    cbv zeta in Hout. destruct Hout as (Hout & _).
    pose proof (Hdelay 1%nat ltac:(simpl; lia)) as Hd1.
    simpl Nat.iter in Hd1.
    set (q := Parameters.smoothen (Processor.params (Processor.proc l)))
      in *.
    rewrite Hd1 in HreadL, HreadR.
    simpl length in Hshort.
    rewrite HL, <- writes_snoc in HreadL, HL1.
    rewrite HR, <- writes_snoc in HreadR, HR1.
    assert (EwetL : wetL = 0).
    { eapply (Hsilent gL mL dL); [exact HalL | exact HmL | | | exact HreadL].
      - rewrite writes_snoc, <- HL. exact HpreL.
      - rewrite length_app. simpl length. lia. }
    assert (EwetR : wetR = 0).
    { eapply (Hsilent gR mR dR); [exact HalR | exact HmR | | | exact HreadR].
      - rewrite writes_snoc, <- HR. exact HpreR.
      - rewrite length_app, Hws. simpl length. lia. }
    assert (IH1 := IH l1 l' _ _ HL1 HR1).
    rewrite IH1.
    + rewrite Hout, Hq, <- app_assoc. f_equal. simpl. f_equal.
      rewrite EwetL, EwetR. fold q. f_equal; ring.
    + rewrite !length_app. simpl. now rewrite Hws.
    + rewrite HL1, writes_snoc, <- HL. exact HpreL.
    + rewrite HR1, writes_snoc, <- HR. exact HpreR.
    + intros j Hj. rewrite Hq. unfold q. rewrite <- Nat.iter_succ_r.
      apply Hdelay. simpl length. lia.
    + rewrite length_app. simpl length. lia.
    + exact Hrun.
Qed.

End Echo.

Section FirstBlock.

Context {S F : Type} {smoothedValue : Juce.LinearSmoothedValue S}
  {filter : Juce.StateVariableTPTFilter F}.

Variable decibelsToGain : R -> R.

Variable indeterminate : nat -> R.

(** In manual mode, from the first [update] after [reset] on, every
    iteration uses the delay the parameter asks for. *)
Lemma manual_delay_constant (store0 : Parameters.Store)
  (host : Processor.Host) (sampleRate syncedTime : R)
  (samplesPerBlock : Z) (p0 : Processor.t S F) (j : nat) :
  Parameters.tempoSyncParam (Processor.store host) = false ->
  let p :=
    Processor.prepareToPlay decibelsToGain indeterminate store0 sampleRate
      samplesPerBlock p0 in
  Processor.delayInSamples syncedTime sampleRate
    (Nat.iter j Parameters.smoothen
       (Processor.params (Processor.beginBlock decibelsToGain host p)))
  = Parameters.delayTimeParam (Processor.store host) / 1000 * sampleRate.
Proof.
  intros Hmanual p. unfold Processor.delayInSamples.
  rewrite smoothen_iter_tempoSync.
  set (q := Processor.params (Processor.beginBlock decibelsToGain host p)).
  assert (Hsync : Parameters.tempoSync q = false) by exact Hmanual.
  assert (Hd : Parameters.delayTime q
               = Parameters.delayTimeParam (Processor.store host))
    by apply first_update_delayTime.
  rewrite Hsync, delay_time_rests_on_target, Hd; [lra |].
  rewrite Hd. reflexivity.
Qed.

(** X17.  No wet signal before the first echo is due.  After
    [prepareToPlay] at a whole-number sample rate of at least 201 Hz, in
    manual mode, a first block that is shorter than the delay by one sample
    and the rounding margin, (length + 1) * 1.000001 <= delay, comes out as
    the dry input times the gain of each iteration: [processBlock]
    completes, and nothing the delay lines held before [prepareToPlay], and
    nothing of the feedback path, reaches the output. *)
Theorem first_block_is_dry :
  forall (store0 : Parameters.Store) (host : Processor.Host)
         (sampleRate : R) (samplesPerBlock : Z) (p0 : Processor.t S F)
         (input : list (R * R)),
    allocated (Processor.delayLineL p0) ->
    allocated (Processor.delayLineR p0) ->
    wholeRate sampleRate ->
    201 <= sampleRate ->
    Processor.getSampleRate host = sampleRate ->
    Parameters.inLayout (Processor.store host) ->
    Parameters.tempoSyncParam (Processor.store host) = false ->
    let p :=
      Processor.prepareToPlay decibelsToGain indeterminate store0 sampleRate
        samplesPerBlock p0 in
    let delay :=
      Parameters.delayTimeParam (Processor.store host) / 1000 * sampleRate in
    (IZR (Z.of_nat (length input)) + 1) * roundingMargin <= delay ->
    exists l : Processor.Loop S F,
      Processor.processBlock decibelsToGain host input p = Some l /\
      Processor.output l
      = dryOutput
          (Processor.params (Processor.beginBlock decibelsToGain host p))
          input.
Proof.
  intros store0 host sampleRate samplesPerBlock p0 input HalL HalR _ Hsr201
         Hhost Hlay Hmanual p delay Hmargin.
  assert (Hsr : 200 <= sampleRate) by lra.
  assert (Hshort : (Z.of_nat (length input) < Cmath.truncate delay)%Z).
  { assert (Hk : 0 <= IZR (Z.of_nat (length input)))
      by (apply IZR_le; lia).
    unfold roundingMargin in Hmargin.
    destruct (truncate_nonneg_bound delay) as [_ Hup]; [nra |].
    apply lt_IZR. nra. }
  assert (Hready : blockReady sampleRate p)
    by (apply prepareToPlay_blockReady; auto; lra).
  assert (Hreach : tempoWithinReach sampleRate host)
    by (intros Hsync; congruence).
  destruct (beginBlock_loopReady decibelsToGain sampleRate host p Hsr Hlay
              Hreach Hready)
    as (syncedTime & Hsynced & Hloop).
  set (started := Processor.beginBlock decibelsToGain host p) in *.
  destruct (sampleLoop_ready sampleRate syncedTime input Hsr _ Hloop)
    as (_ & l & Hrun & _).
  destruct (loopReady_window sampleRate syncedTime _ Hsr Hloop)
    as (_ & HpreL & HpreR).
  cbn [Processor.proc] in HpreL, HpreR.
  assert (Hfirst : Processor.delayInSamples syncedTime sampleRate
                     (Parameters.smoothen (Processor.params started))
                   = delay)
    by apply (manual_delay_constant store0 host sampleRate syncedTime
                samplesPerBlock p0 1 Hmanual).
  rewrite Hfirst in HpreL, HpreR.
  exists l. split.
  { unfold Processor.processBlock. fold p. fold started.
    rewrite Hsynced, Hhost. exact Hrun. }
  destruct (ceil_maxDelay_positive sampleRate) as [Hpos _]; [lra |].
  pose proof (sampleLoop_dry syncedTime sampleRate delay
                indeterminate indeterminate _ _
                (Processor.delayLineL p0) (Processor.delayLineR p0)
                HalL HalR Hpos Hpos input
                (Processor.mkLoop started 0.0 0.0 []) l [] [])
    as Hdry.
  cbn [Processor.proc Processor.output app] in Hdry.
  apply Hdry; auto.
  intros j _. apply manual_delay_constant. exact Hmanual.
Qed.

End FirstBlock.

(** ** The debug guard *)

Lemma examine_silence (x : ProtectYourEars.Sample) (firstWarning : bool) :
  (fst (fst (ProtectYourEars.examine x firstWarning)) = false /\
   safeSample x) \/
  (fst (fst (ProtectYourEars.examine x firstWarning)) = true /\
   ~ safeSample x).
Proof.
  destruct x as [r | negative |]; simpl; [| right; tauto | right; tauto].
  destruct (Rlt_dec r (-2.0)); [right; simpl; split; [reflexivity | lra] |].
  destruct (Rgt_dec r 2.0); [right; simpl; split; [reflexivity | lra] |].
  left. split; [| lra].
  destruct (Rlt_dec r (-1.0)), (Rgt_dec r 1.0), firstWarning; reflexivity.
Qed.

Lemma examine_log (x : ProtectYourEars.Sample) (firstWarning : bool) :
  let '(silence, firstWarning', printed) :=
    ProtectYourEars.examine x firstWarning in
  (silence = true ->
   softWarnings printed = 0%nat /\ silencings printed = 1%nat) /\
  (silence = false ->
   silencings printed = 0%nat /\
   (softWarnings printed + Nat.b2n firstWarning'
    = Nat.b2n firstWarning)%nat).
Proof.
  destruct x as [r | negative |]; simpl; try (split; [auto | discriminate]).
  destruct (Rlt_dec r (-2.0)); [split; [auto | discriminate] |].
  destruct (Rgt_dec r 2.0); [split; [auto | discriminate] |].
  destruct (Rlt_dec r (-1.0)), (Rgt_dec r 1.0), firstWarning;
    (split; [discriminate | auto]).
Qed.

Lemma softWarnings_app (a b : list ProtectYourEars.Message) :
  softWarnings (a ++ b) = (softWarnings a + softWarnings b)%nat.
Proof. unfold softWarnings. now rewrite filter_app, length_app. Qed.

Lemma silencings_app (a b : list ProtectYourEars.Message) :
  silencings (a ++ b) = (silencings a + silencings b)%nat.
Proof. unfold silencings. now rewrite filter_app, length_app. Qed.

(** The inner loop: it returns early exactly on the first unsafe sample,
    prints one silencing line exactly then, and at most the one soft
    warning [firstWarning] still allows. *)
Lemma sampleLoop_outcome (channelData : list ProtectYourEars.Sample) :
  forall firstWarning : bool,
    let '(result, printed) :=
      ProtectYourEars.sampleLoop channelData firstWarning in
    match result with
    | None =>
        ~ Forall safeSample channelData /\
        silencings printed = 1%nat /\
        (softWarnings printed <= Nat.b2n firstWarning)%nat
    | Some firstWarning' =>
        Forall safeSample channelData /\
        silencings printed = 0%nat /\
        (softWarnings printed + Nat.b2n firstWarning'
         = Nat.b2n firstWarning)%nat
    end.
Proof.
  induction channelData as [| x rest IH]; intros firstWarning.
  - simpl. auto.
  - simpl ProtectYourEars.sampleLoop.
    pose proof (examine_silence x firstWarning) as Hs.
    pose proof (examine_log x firstWarning) as Hl.
    destruct (ProtectYourEars.examine x firstWarning)
      as [[silence firstWarning'] printed].
    simpl in Hs. destruct Hl as [Hfatal Hsoft].
    destruct silence.
    + destruct Hs as [[Hs _] | [_ Hs]]; [discriminate |].
      destruct (Hfatal eq_refl) as [H1 H2].
      split; [| split; [exact H2 | lia]].
      intros Hall. inversion Hall. contradiction.
    + destruct Hs as [[_ Hs] | [Hs _]]; [| discriminate].
      destruct (Hsoft eq_refl) as [H1 H2].
      specialize (IH firstWarning').
      destruct (ProtectYourEars.sampleLoop rest firstWarning')
        as [[fw |] printed'].
      * destruct IH as (Hall & Hsil & Hcount).
        rewrite softWarnings_app, silencings_app.
        split; [now constructor |]. split; lia.
      * destruct IH as (Hall & Hsil & Hcount).
        rewrite softWarnings_app, silencings_app.
        split; [| split; lia].
        intros Hall'. inversion Hall'. contradiction.
Qed.

Lemma channelLoop_outcome (channels : list (list ProtectYourEars.Sample)) :
  forall firstWarning : bool,
    let '(result, printed) :=
      ProtectYourEars.channelLoop channels firstWarning in
    match result with
    | None =>
        ~ safeBuffer channels /\
        silencings printed = 1%nat /\
        (softWarnings printed <= Nat.b2n firstWarning)%nat
    | Some firstWarning' =>
        safeBuffer channels /\
        silencings printed = 0%nat /\
        (softWarnings printed + Nat.b2n firstWarning'
         = Nat.b2n firstWarning)%nat
    end.
Proof.
  unfold safeBuffer.
  induction channels as [| channelData rest IH]; intros firstWarning.
  - simpl. auto.
  - simpl ProtectYourEars.channelLoop.
    pose proof (sampleLoop_outcome channelData firstWarning) as Hc.
    destruct (ProtectYourEars.sampleLoop channelData firstWarning)
      as [[fw |] printed].
    + destruct Hc as (Hall & Hsil & Hcount).
      specialize (IH fw).
      destruct (ProtectYourEars.channelLoop rest fw) as [[fw' |] printed'];
        destruct IH as (Hall' & Hsil' & Hcount');
        rewrite softWarnings_app, silencings_app.
      * split; [now constructor |]. split; lia.
      * split; [| split; lia].
        intros H. inversion H. contradiction.
    + destruct Hc as (Hall & Hsil & Hcount).
      split; [| split; assumption].
      intros H. inversion H. contradiction.
Qed.

Lemma clear_safe (buffer : list (list ProtectYourEars.Sample)) :
  safeBuffer (ProtectYourEars.clear buffer).
Proof.
  unfold safeBuffer, ProtectYourEars.clear.
  apply Forall_map, Forall_forall. intros channel _.
  apply Forall_map, Forall_forall. intros x _. simpl. lra.
Qed.

Lemma protectYourEars_keeps_safe (buffer : list (list ProtectYourEars.Sample)) :
  safeBuffer buffer ->
  fst (ProtectYourEars.protectYourEars buffer) = buffer.
Proof.
  intros Hsafe. unfold ProtectYourEars.protectYourEars.
  pose proof (channelLoop_outcome buffer true) as H.
  destruct (ProtectYourEars.channelLoop buffer true) as [[fw |] printed];
    [reflexivity |].
  destruct H as (Hn & _). contradiction.
Qed.

(** X18.  What leaves the guard is safe to listen to.  Whatever the buffer
    holds, afterwards every sample is a number between -2 and 2; a buffer
    that was like this already is returned as it is, any other is
    returned silent, with the same channels and lengths; running the guard
    again changes nothing. *)
Theorem protectYourEars_output_is_safe :
  forall buffer : list (list ProtectYourEars.Sample),
    let out := fst (ProtectYourEars.protectYourEars buffer) in
    safeBuffer out /\
    (safeBuffer buffer -> out = buffer) /\
    (~ safeBuffer buffer -> out = ProtectYourEars.clear buffer) /\
    map (@length _) out = map (@length _) buffer /\
    fst (ProtectYourEars.protectYourEars out) = out.
Proof.
  intros buffer out.
  assert (Hsafe : safeBuffer out).
  { unfold out, ProtectYourEars.protectYourEars.
    pose proof (channelLoop_outcome buffer true) as H.
    destruct (ProtectYourEars.channelLoop buffer true) as [[fw |] printed].
    - simpl. apply H.
    - simpl. apply clear_safe. }
  split; [exact Hsafe |].
  split; [apply protectYourEars_keeps_safe |].
  split.
  { intros Hn. unfold out, ProtectYourEars.protectYourEars.
    pose proof (channelLoop_outcome buffer true) as H.
    destruct (ProtectYourEars.channelLoop buffer true) as [[fw |] printed];
      [| reflexivity].
    destruct H as (H & _). contradiction. }
  split; [| now apply protectYourEars_keeps_safe].
  unfold out, ProtectYourEars.protectYourEars.
  destruct (ProtectYourEars.channelLoop buffer true) as [[fw |] printed];
    [reflexivity |].
  simpl. unfold ProtectYourEars.clear. rewrite map_map.
  apply map_ext. intros channel. apply length_map.
Qed.

(** X19.  What the guard prints.  One call prints the soft out-of-range
    warning at most once, however many samples lie outside [-1, 1]; it
    prints exactly one silencing line when it clears the buffer and none
    when it leaves the buffer alone. *)
Theorem protectYourEars_warns_once :
  forall buffer : list (list ProtectYourEars.Sample),
    let '(out, printed) := ProtectYourEars.protectYourEars buffer in
    (softWarnings printed <= 1)%nat /\
    (safeBuffer buffer -> silencings printed = 0%nat /\ out = buffer) /\
    (~ safeBuffer buffer ->
     silencings printed = 1%nat /\ out = ProtectYourEars.clear buffer).
Proof.
  intros buffer. unfold ProtectYourEars.protectYourEars.
  pose proof (channelLoop_outcome buffer true) as H.
  destruct (ProtectYourEars.channelLoop buffer true) as [[fw |] printed];
    destruct H as (Hb & Hsil & Hcount); simpl Nat.b2n in Hcount.
  - split; [lia |]. split; [auto | contradiction].
  - split; [lia |]. split; [contradiction | auto].
Qed.

(** ** The level meter *)

Lemma meter_decay_range :
  0 < LevelMeter.decay LevelMeter.constructed < 1 /\
  1 - LevelMeter.decay LevelMeter.constructed = exp (- / 12).
Proof.
  unfold LevelMeter.constructed, LevelMeter.refreshRate.
  cbn [LevelMeter.decay].
  replace (- 1.0 / (60 * 0.2)) with (- / 12) by lra.
  pose proof (exp_pos (- / 12)) as Hpos.
  assert (Hlt : exp (- / 12) < 1).
  { rewrite <- exp_0. apply exp_increasing. lra. }
  split; lra.
Qed.

Lemma gainToDecibels_floor (gain : R) : -100 <= Juce.gainToDecibels gain.
Proof.
  unfold Juce.gainToDecibels.
  destruct (Rgt_dec gain 0); [| lra].
  destruct (fmax_cases (-100) (ln gain / ln 10 * 20.0)) as (H & _). exact H.
Qed.

Lemma ln_10_pos : 0 < ln 10.
Proof. rewrite <- ln_1. apply ln_increasing; lra. Qed.

Lemma gainToDecibels_monotone (a b : R) :
  0 < a <= b -> Juce.gainToDecibels a <= Juce.gainToDecibels b.
Proof.
  intros [Ha Hab]. unfold Juce.gainToDecibels.
  destruct (Rgt_dec a 0) as [_ | Hn]; [| lra].
  destruct (Rgt_dec b 0) as [_ | Hn]; [| lra].
  pose proof ln_10_pos as H10.
  assert (Hln : ln a <= ln b).
  { destruct Hab as [Hlt | ->]; [left; now apply ln_increasing | lra]. }
  assert (Hdb : ln a / ln 10 * 20.0 <= ln b / ln 10 * 20.0).
  { unfold Rdiv. assert (0 < / ln 10) by now apply Rinv_0_lt_compat. nra. }
  unfold Cmath.fmax.
  destruct (Rlt_dec (-100) _), (Rlt_dec (-100) _); lra.
Qed.

Lemma updateLevel_step (m : LevelMeter.t) (newLevel smoothedLevel : R) :
  0 < LevelMeter.decay m < 1 ->
  let level' := fst (LevelMeter.updateLevel m newLevel smoothedLevel) in
  newLevel <= level' /\
  (smoothedLevel < newLevel -> level' = newLevel) /\
  (newLevel <= smoothedLevel ->
   level' <= smoothedLevel /\
   level' - newLevel
   = (smoothedLevel - newLevel) * (1 - LevelMeter.decay m)).
Proof.
  intros Hd level'. unfold level', LevelMeter.updateLevel. cbn [fst].
  destruct (Rgt_dec newLevel smoothedLevel) as [Hgt | Hle].
  - split; [lra |]. split; [auto | intros; lra].
  - split; [nra |]. split; [intros; lra |].
    intros _. split; [nra | ring].
Qed.

(** X20.  The ballistics of the meter, one tick.  With the decay of the
    constructor, [updateLevel] never shows less than the new peak: a
    higher peak is taken over at once, a lower one is approached from
    above by the factor exp (-1/12) per tick.  The dB value is -120 when
    the level is at most 0.000001 and otherwise at least -100, it is 0 dB
    at level 1, and it never decreases when the level increases. *)
Theorem updateLevel_ballistics :
  forall (m : LevelMeter.t) (newLevel smoothedLevel : R),
    LevelMeter.decay m = LevelMeter.decay LevelMeter.constructed ->
    let '(level', dB') :=
      LevelMeter.updateLevel m newLevel smoothedLevel in
    newLevel <= level' /\
    (smoothedLevel < newLevel -> level' = newLevel) /\
    (newLevel <= smoothedLevel ->
     level' <= smoothedLevel /\
     level' - newLevel = (smoothedLevel - newLevel) * exp (- / 12)) /\
    (level' <= LevelMeter.clampLevel -> dB' = -120) /\
    (LevelMeter.clampLevel < level' -> -100 <= dB') /\
    (level' = 1 -> dB' = 0) /\
    (forall other : R,
        let '(level'', dB'') :=
          LevelMeter.updateLevel m other smoothedLevel in
        level' <= level'' -> dB' <= dB'').
Proof.
  intros m newLevel smoothedLevel Hdecay.
  destruct meter_decay_range as [Hrange Hexp]. rewrite <- Hdecay in *.
  pose proof (updateLevel_step m newLevel smoothedLevel Hrange) as Hstep.
  cbv zeta in Hstep.
  assert (HdB : forall v : R,
             snd (LevelMeter.updateLevel m v smoothedLevel)
             = let level := fst (LevelMeter.updateLevel m v smoothedLevel) in
               if Rgt_dec level LevelMeter.clampLevel
               then Juce.gainToDecibels level
               else LevelMeter.clampdB) by reflexivity.
  pose proof (HdB newLevel) as HdB'. cbv zeta in HdB'.
  destruct (LevelMeter.updateLevel m newLevel smoothedLevel)
    as [level' dB'] eqn:E.
  cbn [fst snd] in Hstep, HdB'.
  destruct Hstep as (H1 & H2 & H3).
  split; [exact H1 |]. split; [exact H2 |].
  split; [intros Hle; rewrite <- Hexp; auto |].
  assert (Hclamp : LevelMeter.clampLevel = 0.000001) by reflexivity.
  split.
  { intros Hle. rewrite HdB'.
    destruct (Rgt_dec level' LevelMeter.clampLevel); [lra |].
    unfold LevelMeter.clampdB. lra. }
  split.
  { intros Hgt. rewrite HdB'.
    destruct (Rgt_dec level' LevelMeter.clampLevel); [| lra].
    apply gainToDecibels_floor. }
  split.
  { intros ->. rewrite HdB'.
    destruct (Rgt_dec 1 LevelMeter.clampLevel) as [_ | Hn]; [| lra].
    unfold Juce.gainToDecibels.
    destruct (Rgt_dec 1 0) as [_ | Hn]; [| lra].
    rewrite ln_1. unfold Cmath.fmax.
    destruct (Rlt_dec (-100) (0 / ln 10 * 20.0)) as [_ | Hn]; lra. }
  intros other. pose proof (HdB other) as HdB''. cbv zeta in HdB''.
  destruct (LevelMeter.updateLevel m other smoothedLevel)
    as [level'' dB''].
  cbn [fst snd] in HdB''. intros Hle. rewrite HdB', HdB''.
  destruct (Rgt_dec level' LevelMeter.clampLevel) as [Ha | Ha],
           (Rgt_dec level'' LevelMeter.clampLevel) as [Hb | Hb].
  - apply gainToDecibels_monotone. lra.
  - lra.
  - pose proof (gainToDecibels_floor level''). unfold LevelMeter.clampdB.
    lra.
  - lra.
Qed.

Lemma timerCallback_fields (m : LevelMeter.t)
  (measurementL measurementR : Measurement.t) :
  let '(m', measurementL', measurementR') :=
    LevelMeter.timerCallback m measurementL measurementR in
  LevelMeter.decay m' = LevelMeter.decay m /\
  LevelMeter.levelL m'
  = fst (LevelMeter.updateLevel m (Measurement.value measurementL)
           (LevelMeter.levelL m)) /\
  LevelMeter.levelR m'
  = fst (LevelMeter.updateLevel m (Measurement.value measurementR)
           (LevelMeter.levelR m)) /\
  Measurement.value measurementL' = 0 /\
  Measurement.value measurementR' = 0.
Proof.
  unfold LevelMeter.timerCallback, Measurement.readAndReset.
  destruct (LevelMeter.updateLevel m (Measurement.value measurementL) _)
    as [lL dL].
  destruct (LevelMeter.updateLevel m (Measurement.value measurementR) _)
    as [lR dR].
  cbn [LevelMeter.decay LevelMeter.levelL LevelMeter.levelR
       Measurement.value fst].
  repeat split; lra.
Qed.




(** ** The scale of the meter *)

Lemma round_IZR (z : Z) : LevelMeter.round (IZR z) = z.
Proof.
  unfold LevelMeter.round.
  destruct (Rle_dec 0 (IZR z)).
  - apply Zfloor_eq. lra.
  - apply Zceil_eq. lra.
Qed.

Lemma round_monotone (x y : R) :
  x <= y -> (LevelMeter.round x <= LevelMeter.round y)%Z.
Proof.
  intros Hxy. unfold LevelMeter.round.
  destruct (Rle_dec 0 x), (Rle_dec 0 y); try lra.
  - apply Zfloor_le. lra.
  - apply Z.le_trans with 0%Z.
    + pose proof (Zceil_bound (x - 0.5)) as [Hlo _].
      assert (H : (Zceil (x - 0.5) < 1)%Z) by (apply lt_IZR; lra). lia.
    + apply Zfloor_lub. lra.
  - apply Zceil_le. lra.
Qed.

(** X22.  The scale of the meter runs downwards.  After [resized] on a
    component at least 8 pixels high, 6 dB sits 4 pixels below the top and
    -60 dB 4 pixels above the bottom, a higher level is never drawn lower,
    and every level of the range lands between the two ends. *)
Theorem meter_scale_positions :
  forall (getHeight : Z) (m : LevelMeter.t) (dB dB' : R),
    (8 <= getHeight)%Z ->
    let m' := LevelMeter.resized getHeight m in
    LevelMeter.positionForLevel m' LevelMeter.maxdB = 4%Z /\
    LevelMeter.positionForLevel m' LevelMeter.mindB = (getHeight - 4)%Z /\
    (dB <= dB' ->
     (LevelMeter.positionForLevel m' dB'
      <= LevelMeter.positionForLevel m' dB)%Z) /\
    (LevelMeter.mindB <= dB <= LevelMeter.maxdB ->
     (4 <= LevelMeter.positionForLevel m' dB <= getHeight - 4)%Z).
Proof.
  intros h m dB dB' Hh m'.
  assert (HhR : 8 <= IZR h) by (apply IZR_le in Hh; exact Hh).
  assert (Hmap : forall v : R,
             LevelMeter.jmap v LevelMeter.maxdB LevelMeter.mindB
               (LevelMeter.maxPos m') (LevelMeter.minPos m')
             = 4 + (IZR h - 8) * (6 - v) / 66).
  { intros v. unfold LevelMeter.jmap, m', LevelMeter.resized,
      LevelMeter.maxdB, LevelMeter.mindB.
    cbn [LevelMeter.maxPos LevelMeter.minPos]. decimals. field. }
  assert (Hanti : forall a b : R,
             a <= b ->
             (LevelMeter.positionForLevel m' b
              <= LevelMeter.positionForLevel m' a)%Z).
  { intros a b Hab. unfold LevelMeter.positionForLevel.
    apply round_monotone. rewrite !Hmap. nra. }
  assert (Htop : LevelMeter.positionForLevel m' LevelMeter.maxdB = 4%Z).
  { unfold LevelMeter.positionForLevel. rewrite Hmap.
    replace (4 + (IZR h - 8) * (6 - LevelMeter.maxdB) / 66) with (IZR 4)
      by (unfold LevelMeter.maxdB; lra).
    apply round_IZR. }
  assert (Hbottom : LevelMeter.positionForLevel m' LevelMeter.mindB
                    = (h - 4)%Z).
  { unfold LevelMeter.positionForLevel. rewrite Hmap.
    replace (4 + (IZR h - 8) * (6 - LevelMeter.mindB) / 66)
      with (IZR (h - 4))
      by (rewrite minus_IZR; unfold LevelMeter.mindB; lra).
    apply round_IZR. }
  split; [exact Htop |]. split; [exact Hbottom |].
  split; [apply Hanti |].
  intros [Hlo Hhi].
  split; [rewrite <- Htop | rewrite <- Hbottom]; apply Hanti; assumption.
Qed.

Lemma meter_scale_positions_witness :
  let m' := LevelMeter.resized 100 LevelMeter.constructed in
  LevelMeter.positionForLevel m' LevelMeter.maxdB = 4%Z /\
  LevelMeter.positionForLevel m' LevelMeter.mindB = (100 - 4)%Z /\
  (-6 <= 0 ->
   (LevelMeter.positionForLevel m' 0
    <= LevelMeter.positionForLevel m' (-6))%Z) /\
  (LevelMeter.mindB <= -6 <= LevelMeter.maxdB ->
   (4 <= LevelMeter.positionForLevel m' (-6) <= 100 - 4)%Z).
Proof.
  apply (meter_scale_positions 100 LevelMeter.constructed (-6) 0). lia.
Defined.


Lemma updateLevel_ballistics_witness :
  let '(level', dB') :=
    LevelMeter.updateLevel LevelMeter.constructed 0.25 0.5 in
  0.25 <= level' /\
  (0.5 < 0.25 -> level' = 0.25) /\
  (0.25 <= 0.5 ->
   level' <= 0.5 /\ level' - 0.25 = (0.5 - 0.25) * exp (- / 12)) /\
  (level' <= LevelMeter.clampLevel -> dB' = -120) /\
  (LevelMeter.clampLevel < level' -> -100 <= dB') /\
  (level' = 1 -> dB' = 0) /\
  (forall other : R,
      let '(level'', dB'') :=
        LevelMeter.updateLevel LevelMeter.constructed other 0.5 in
      level' <= level'' -> dB' <= dB'').
Proof.
  apply (updateLevel_ballistics LevelMeter.constructed 0.25 0.5).
  reflexivity.
Defined.

Section MeterChain.

Context {S F : Type} {smoothedValue : Juce.LinearSmoothedValue S}
  {filter : Juce.StateVariableTPTFilter F}.

Variable decibelsToGain : R -> R.

(** X23.  From the audio thread to the screen.  After a block has been
    processed and its peaks published, the next timer tick drains both
    measurements to 0 and leaves each smoothed level of the meter at or
    above the magnitude of every output sample of that block. *)
Theorem meter_shows_block_peak :
  forall (host : Processor.Host) (input : list (R * R))
         (p : Processor.t S F) (l : Processor.Loop S F)
         (fuel : nat) (spuriousL spuriousR : list bool) (m : LevelMeter.t),
    Processor.processBlock decibelsToGain host input p = Some l ->
    (length spuriousL < fuel)%nat -> (length spuriousR < fuel)%nat ->
    LevelMeter.decay m = LevelMeter.decay LevelMeter.constructed ->
    exists p' : Processor.t S F,
      Processor.publishPeaks fuel spuriousL spuriousR l = Some p' /\
      let '(m', measurementL', measurementR') :=
        LevelMeter.timerCallback m (Processor.levelL p')
          (Processor.levelR p') in
      (forall outL outR : R,
          In (outL, outR) (Processor.output l) ->
          Rabs outL <= LevelMeter.levelL m' /\
          Rabs outR <= LevelMeter.levelR m') /\
      Measurement.value measurementL' = 0 /\
      Measurement.value measurementR' = 0.
Proof.
  intros host input p l fuel spuriousL spuriousR m Hrun HfL HfR Hdecay.
  destruct meter_decay_range as [Hrange _]. rewrite <- Hdecay in Hrange.
  destruct (processBlock_peaks decibelsToGain host input p l Hrun)
    as ((Hall & _ & _) & _ & HL & HR).
  unfold Processor.publishPeaks.
  rewrite !updateIfGreater_single_thread by assumption.
  cbv beta iota delta [Processor.bind].
  eexists. split; [reflexivity |].
  cbn [Processor.levelL Processor.levelR].
  match goal with
  | |- context [LevelMeter.timerCallback m ?a ?b] =>
      pose proof (timerCallback_fields m a b) as Hf;
      destruct (LevelMeter.timerCallback m a b) as [[m' mL'] mR']
  end.
  destruct Hf as (_ & HfL' & HfR' & HvL & HvR).
  cbn [Measurement.value] in HfL', HfR'.
  split; [| auto].
  intros outL outR Hin. rewrite Forall_forall in Hall.
  destruct (Hall (outL, outR) Hin) as [H1 H2]. simpl in H1, H2.
  destruct (updateLevel_step m
              (Rmax (Measurement.value
                       (Processor.levelL (Processor.proc l)))
                    (Processor.maxL l))
              (LevelMeter.levelL m) Hrange) as (HgeL & _).
  destruct (updateLevel_step m
              (Rmax (Measurement.value
                       (Processor.levelR (Processor.proc l)))
                    (Processor.maxR l))
              (LevelMeter.levelR m) Hrange) as (HgeR & _).
  rewrite <- HfL' in HgeL. rewrite <- HfR' in HgeR.
  pose proof (Rmax_r (Measurement.value
                        (Processor.levelL (Processor.proc l)))
                (Processor.maxL l)).
  pose proof (Rmax_r (Measurement.value
                        (Processor.levelR (Processor.proc l)))
                (Processor.maxR l)).
  split; lra.
Qed.

End MeterChain.

(** ** Typing a value *)

Section TypedValues.

Import String.

Context {T : Type} {juceString : Juce.JuceString T}.

(** X24.  A number typed without the unit "ms" lands inside the range of
    its parameter.  For the delay time, a text that does not end in "ms"
    and whose number is between 0.005 and 5000 (at most 5 if it ends in
    "s") gives a time between 5 and 5000 ms: below 5 and with "s" it is
    taken as seconds.  For the two cut-offs, a number between 0.02 and
    20000 gives a frequency between 20 and 20000 Hz: below 20 it is taken
    as kHz.  A text that ends in "ms" is taken as it is. *)
Theorem typed_values_land_in_range :
  forall text : T,
    let value := Juce.getFloatValue text in
    (Juce.endsWithIgnoreCase text "ms" = false ->
     0.005 <= value <= 5000 ->
     (Juce.endsWithIgnoreCase text "s" = true -> value <= 5) ->
     5 <= ParameterText.millisecondsFromString text <= 5000) /\
    (Juce.endsWithIgnoreCase text "ms" = true ->
     ParameterText.millisecondsFromString text = value) /\
    (0.02 <= value <= 20000 ->
     20 <= ParameterText.hzFromString text <= 20000).
Proof.
  intros text value. split; [| split].
  - intros Hms Hrange Hs. unfold ParameterText.millisecondsFromString.
    fold value. rewrite Hms. cbn [negb].
    destruct (Juce.endsWithIgnoreCase text "s").
    + specialize (Hs eq_refl). cbn [orb]. lra.
    + cbn [orb]. unfold Parameters.minDelayTime.
      destruct (Rlt_dec value 5.0); lra.
  - intros Hms. unfold ParameterText.millisecondsFromString.
    now rewrite Hms.
  - intros Hrange. unfold ParameterText.hzFromString. fold value.
    destruct (Rlt_dec value 20.0); lra.
Qed.

End TypedValues.


(** ** Instances of the further properties *)

Section FurtherInstances.

#[local] Existing Instance Juce.steplessValue.

#[local] Existing Instance Juce.bypassFilter.

#[local] Existing Instance Juce.plainNumber.

Lemma typed_values_land_in_range_witness :
  ParameterText.millisecondsFromString 2.5 = 2500 /\
  20 <= ParameterText.hzFromString 2.5 <= 20000.
Proof.
  destruct (typed_values_land_in_range 2.5) as (_ & _ & Hhz).
  split; [| apply Hhz; simpl; lra].
  unfold ParameterText.millisecondsFromString. simpl.
  unfold Parameters.minDelayTime.
  destruct (Rlt_dec 2.5 5.0); simpl; lra.
Defined.

Lemma defaultStore_inLayout : Parameters.inLayout Parameters.defaultStore.
Proof.
  unfold Parameters.inLayout, Parameters.defaultStore,
    Parameters.minDelayTime, Parameters.maxDelayTime; simpl.
  repeat split; try lra; lia.
Qed.

Lemma preparedAt44100_blockReady : blockReady 44100 preparedAt44100.
Proof.
  apply prepareToPlay_blockReady; [reflexivity | reflexivity | lra].
Qed.

(** A block in manual mode at the defaults runs to its end. *)
Lemma manual_block_completes (input : list (R * R)) :
  exists (syncedTime : R) (l : Processor.Loop R unit),
    Processor.processBlock Juce.decibelsToGain manualHost input
      preparedAt44100
    = Some l /\
    Processor.sampleLoop syncedTime 44100 manualLoop input = Some l /\
    loopReady 44100 syncedTime manualLoop.
Proof.
  destruct (beginBlock_loopReady Juce.decibelsToGain 44100 manualHost
              preparedAt44100)
    as (syncedTime & Hsynced & Hloop).
  - lra.
  - exact defaultStore_inLayout.
  - intros Hsync. discriminate.
  - exact preparedAt44100_blockReady.
  - destruct (sampleLoop_ready 44100 syncedTime input ltac:(lra) _ Hloop)
      as (_ & l & Hrun & _).
    exists syncedTime, l. split; [| split; [exact Hrun | exact Hloop]].
    unfold Processor.processBlock.
    rewrite Hsynced. exact Hrun.
Qed.

Lemma processBlock_output_and_peaks_witness :
  exists l : Processor.Loop R unit,
    Processor.processBlock Juce.decibelsToGain manualHost
      [(0.5, 0.25); (0, -0.75)] preparedAt44100
    = Some l /\
    length (Processor.output l) = 2%nat /\
    0 <= Processor.maxL l /\ 0 <= Processor.maxR l /\
    forall outL outR : R,
      In (outL, outR) (Processor.output l) ->
      Rabs outL <= Processor.maxL l /\ Rabs outR <= Processor.maxR l.
Proof.
  destruct (manual_block_completes [(0.5, 0.25); (0, -0.75)])
    as (_ & l & Hrun & _).
  exists l. split; [exact Hrun |].
  destruct (processBlock_output_and_peaks Juce.decibelsToGain manualHost
              [(0.5, 0.25); (0, -0.75)] preparedAt44100 l Hrun)
    as (Hlen & HL & HR & Hall & _).
  auto.
Defined.

Lemma published_levels_cover_block_witness :
  exists (l : Processor.Loop R unit) (p' : Processor.t R unit),
    Processor.processBlock Juce.decibelsToGain manualHost
      [(0.5, 0.25); (0, -0.75)] preparedAt44100
    = Some l /\
    Processor.publishPeaks 2 [true] [] l = Some p' /\
    Measurement.value (Processor.levelL p')
    = Rmax (Measurement.value (Processor.levelL preparedAt44100))
        (Processor.maxL l) /\
    forall outL outR : R,
      In (outL, outR) (Processor.output l) ->
      Rabs outL <= Measurement.value (Processor.levelL p') /\
      Rabs outR <= Measurement.value (Processor.levelR p').
Proof.
  destruct (manual_block_completes [(0.5, 0.25); (0, -0.75)])
    as (_ & l & Hrun & _).
  destruct (published_levels_cover_block Juce.decibelsToGain manualHost
              [(0.5, 0.25); (0, -0.75)] preparedAt44100 l 2 [true] []
              Hrun)
    as (p' & Hpub & HL & _ & Hall & _); [simpl; lia | simpl; lia |].
  exists l, p'. auto.
Defined.

Lemma meter_shows_block_peak_witness :
  exists (l : Processor.Loop R unit) (p' : Processor.t R unit),
    Processor.processBlock Juce.decibelsToGain manualHost
      [(0.5, 0.25); (0, -0.75)] preparedAt44100
    = Some l /\
    Processor.publishPeaks 2 [true] [] l = Some p' /\
    let '(m', measurementL', measurementR') :=
      LevelMeter.timerCallback LevelMeter.constructed
        (Processor.levelL p') (Processor.levelR p') in
    (forall outL outR : R,
        In (outL, outR) (Processor.output l) ->
        Rabs outL <= LevelMeter.levelL m' /\
        Rabs outR <= LevelMeter.levelR m') /\
    Measurement.value measurementL' = 0 /\
    Measurement.value measurementR' = 0.
Proof.
  destruct (manual_block_completes [(0.5, 0.25); (0, -0.75)])
    as (_ & l & Hrun & _).
  destruct (meter_shows_block_peak Juce.decibelsToGain manualHost
              [(0.5, 0.25); (0, -0.75)] preparedAt44100 l 2 [true] []
              LevelMeter.constructed Hrun)
    as (p' & Hpub & Hmeter); [simpl; lia | simpl; lia | reflexivity |].
  exists l, p'. auto.
Defined.

Lemma prepareToPlay_again_witness :
  let p :=
    Processor.prepareToPlay Juce.decibelsToGain (fun _ => 0)
      Parameters.defaultStore 48000 512
      (Processor.constructed 0 tt tt (Measurement.mk 0) (Measurement.mk 0))
  in
  let p' :=
    Processor.prepareToPlay Juce.decibelsToGain (fun _ => 0)
      Parameters.defaultStore 44100 256 p in
  DelayLine.bufferLength (Processor.delayLineL p')
  = DelayLine.bufferLength (Processor.delayLineL p) /\
  blockReady 48000 p /\ blockReady 44100 p'.
Proof.
  intros p p'.
  destruct (prepareToPlay_again Juce.decibelsToGain (fun _ => 0)
              Parameters.defaultStore Parameters.defaultStore 48000 44100
              512 256
              (Processor.constructed 0 tt tt (Measurement.mk 0)
                 (Measurement.mk 0)))
    as (_ & (Hkeep & _) & Hready & Hready' & _).
  - reflexivity.
  - reflexivity.
  - exists 48000%Z. split; [reflexivity | lia].
  - exists 44100%Z. split; [reflexivity | lia].
  - lra.
  - auto.
Defined.

Lemma manual_delay_is_4410 :
  Parameters.delayTimeParam (Processor.store manualHost) / 1000 * 44100
  = IZR 4410.
Proof. simpl. lra. Qed.

Lemma first_block_is_dry_witness :
  exists l : Processor.Loop R unit,
    Processor.processBlock Juce.decibelsToGain manualHost
      [(0.5, 0.25); (0, -0.75)] preparedAt44100
    = Some l /\
    Processor.output l
    = dryOutput
        (Processor.params
           (Processor.beginBlock Juce.decibelsToGain manualHost
              preparedAt44100))
        [(0.5, 0.25); (0, -0.75)].
Proof.
  apply (first_block_is_dry Juce.decibelsToGain (fun _ => 0)
           Parameters.defaultStore manualHost 44100 512
           (Processor.constructed 0 tt tt (Measurement.mk 0)
              (Measurement.mk 0))
           [(0.5, 0.25); (0, -0.75)]).
  - reflexivity.
  - reflexivity.
  - exists 44100%Z. split; [reflexivity | lia].
  - lra.
  - reflexivity.
  - exact defaultStore_inLayout.
  - reflexivity.
  - rewrite manual_delay_is_4410. unfold roundingMargin. simpl. lra.
Defined.

Lemma sampleLoop_cons (syncedTime sampleRate : R)
  (l : Processor.Loop R unit) (dry : R * R) (rest : list (R * R)) :
  Processor.sampleLoop syncedTime sampleRate l (dry :: rest)
  = match Processor.loopBody syncedTime sampleRate l dry with
    | Some l' => Processor.sampleLoop syncedTime sampleRate l' rest
    | None => None
    end.
Proof. reflexivity. Qed.

Lemma echo_after_N_samples_witness :
  let later := repeat (0.125, 0) (Z.to_nat 4410) in
  exists (syncedTime : R) (l1 l2 : Processor.Loop R unit),
    Processor.loopBody syncedTime 44100 manualLoop (0.5, 0.25) = Some l1 /\
    Processor.sampleLoop syncedTime 44100 l1 later = Some l2 /\
    let q0 := Processor.params (Processor.proc l1) in
    let mono0 := (fst (0.5, 0.25) + snd (0.5, 0.25)) * 0.5 in
    let inL0 :=
      mono0 * Parameters.panL q0
      + Processor.feedbackR (Processor.proc manualLoop) in
    let inR0 :=
      mono0 * Parameters.panR q0
      + Processor.feedbackL (Processor.proc manualLoop) in
    let q := Processor.params (Processor.proc l2) in
    let dryN := last later (0, 0) in
    last (Processor.output l2) (0, 0)
    = ((fst dryN + inL0 * Parameters.mix q) * Parameters.gain q,
       (snd dryN + inR0 * Parameters.mix q) * Parameters.gain q).
Proof.
  intros later.
  destruct (manual_block_completes ((0.5, 0.25) :: later))
    as (syncedTime & l2 & _ & Hrun & Hloop).
  rewrite sampleLoop_cons in Hrun.
  destruct (Processor.loopBody syncedTime 44100 manualLoop (0.5, 0.25))
    as [l1 |] eqn:Efirst; [| discriminate].
  exists syncedTime, l1, l2.
  split; [exact Efirst |]. split; [exact Hrun |].
  assert (Hlen : Z.of_nat (length later) = 4410%Z).
  { unfold later. rewrite repeat_length. apply Z2Nat.id. lia. }
  destruct Hloop as (HL & HR & HcapL & HcapR & _).
  apply (echo_after_N_samples syncedTime 44100 manualLoop l1 l2
           (0.5, 0.25) later 4410 HL HR Efirst Hrun Hlen).
  - assert (H : (4410 + 2 <= DelayLine.bufferLength
                               (Processor.delayLineL
                                  (Processor.proc manualLoop)))%Z)
      by (apply le_IZR; rewrite plus_IZR; lra).
    lia.
  - assert (H : (4410 + 2 <= DelayLine.bufferLength
                               (Processor.delayLineR
                                  (Processor.proc manualLoop)))%Z)
      by (apply le_IZR; rewrite plus_IZR; lra).
    lia.
  - destruct (sampleLoop_lines _ _ _ _ _ Hrun) as (Hq & _).
    destruct (loopBody_inversion _ _ _ _ _ _ Efirst)
      as (_ & _ & _ & _ & Hq1 & _).
    rewrite Hq, Hq1, <- Nat.iter_succ_r, <- manual_delay_is_4410.
    apply (manual_delay_constant Juce.decibelsToGain (fun _ => 0)
             Parameters.defaultStore manualHost 44100 syncedTime 512
             (Processor.constructed 0 tt tt (Measurement.mk 0)
                (Measurement.mk 0))).
    reflexivity.
Defined.

End FurtherInstances.
